(** * counters.c: the kperf/kpc counting session and the kdebug trace decode

    A shallow embedding of [src/counters.c].  The program talks to three
    outside parties: the dynamic loader ([dlopen], [dlsym], ...), the kperf
    and kperfdata frameworks (reached through function pointers that
    [lib_init] fills in) and the kernel ([sysctl]).  None of them is part of
    the program, so they are modelled as one deterministic oracle that
    answers every call from the history of the calls made so far.  The
    program itself is a state-passing function over its global variables;
    every outside call is appended, with its answer, to a log, which is what
    the ordering properties are stated on. *)

From Stdlib Require Import ZArith String List Lia Bool.
From stdpp Require Import base option list gmap strings.
Import ListNotations.

#[local] Open Scope string_scope.
#[local] Open Scope list_scope.
#[local] Open Scope Z_scope.

(** ** Machine integers *)

Definition wrap32 (z : Z) : Z := z mod 2 ^ 32.
Definition wrap64 (z : Z) : Z := z mod 2 ^ 64.

(** [u64] subtraction, as in [counters_1[idx] - counters_0[idx]]. *)
Definition sub64 (a b : Z) : Z := wrap64 (a - b).

Definition NULL : Z := 0.

(** [#define KPC_CLASS_CONFIGURABLE (1)] and
    [#define KPC_CLASS_CONFIGURABLE_MASK (1u << KPC_CLASS_CONFIGURABLE)],
    with their siblings. *)
Definition KPC_CLASS_FIXED : Z := 0.
Definition KPC_CLASS_CONFIGURABLE : Z := 1.
Definition KPC_CLASS_FIXED_MASK : Z := Z.shiftl 1 KPC_CLASS_FIXED.
Definition KPC_CLASS_CONFIGURABLE_MASK : Z := Z.shiftl 1 KPC_CLASS_CONFIGURABLE.

Definition KPC_MAX_COUNTERS : nat := 32.
Definition EVENT_NAME_MAX : nat := 8.

(** ** The outside world *)

(** One constructor per outside function the modelled code calls, carrying
    the arguments that are passed by value.  Buffers the callee fills are
    part of the answer instead. *)
Inductive call : Type :=
  | dlopen (path : string)
  | dlerror
  | dlclose (handle : Z)
  | dlsym (handle : Z) (name : string)
  | sysctl_KERN_KDREADTR (buf : Z) (len : Z)
  | kpc_force_all_ctrs_get
  | kpc_force_all_ctrs_set (val : Z)
  | kpc_set_config (cls : Z) (config : list Z)
  | kpc_set_counting (cls : Z)
  | kpc_set_thread_counting (cls : Z)
  | kpc_get_thread_counters (tid : Z) (buf_count : Z)
  | kpep_db_create
  | kpep_config_create (d : Z)
  | kpep_config_force_counters (c : Z)
  | kpep_db_event (d : Z) (name : string)
  | kpep_config_add_event (c : Z) (ev : Z) (flag : Z)
  | kpep_config_kpc_classes (c : Z)
  | kpep_config_kpc_count (c : Z)
  | kpep_config_kpc_map (c : Z) (buf_size : Z)
  | kpep_config_kpc (c : Z) (buf_size : Z).

(** What a call gives back: its return value (an [int], or the pointer
    that [dlopen] and [dlsym] return), the scalar or pointer it stores
    through an out-parameter if it stores one, the words it writes to the
    start of a buffer, and the string it returns ([dlerror]).  A call uses
    the fields it has. *)
Record reply : Type := Reply {
  r_ret : Z;
  r_out : option Z;
  r_words : list Z;
  r_str : string
}.

Definition event : Type := call * reply.

(** The oracle: the answer to a call, given everything that happened
    before it (oldest first). *)
Definition oracle : Type := list event -> call -> reply.

(** The name of the function-pointer variable a framework call goes
    through; the loader and [sysctl] are linked directly. *)
Definition call_symbol (c : call) : option string :=
  match c with
  | dlopen _ | dlerror | dlclose _ | dlsym _ _ | sysctl_KERN_KDREADTR _ _ => None
  | kpc_force_all_ctrs_get => Some "kpc_force_all_ctrs_get"
  | kpc_force_all_ctrs_set _ => Some "kpc_force_all_ctrs_set"
  | kpc_set_config _ _ => Some "kpc_set_config"
  | kpc_set_counting _ => Some "kpc_set_counting"
  | kpc_set_thread_counting _ => Some "kpc_set_thread_counting"
  | kpc_get_thread_counters _ _ => Some "kpc_get_thread_counters"
  | kpep_db_create => Some "kpep_db_create"
  | kpep_config_create _ => Some "kpep_config_create"
  | kpep_config_force_counters _ => Some "kpep_config_force_counters"
  | kpep_db_event _ _ => Some "kpep_db_event"
  | kpep_config_add_event _ _ _ => Some "kpep_config_add_event"
  | kpep_config_kpc_classes _ => Some "kpep_config_kpc_classes"
  | kpep_config_kpc_count _ => Some "kpep_config_kpc_count"
  | kpep_config_kpc_map _ _ => Some "kpep_config_kpc_map"
  | kpep_config_kpc _ _ => Some "kpep_config_kpc"
  end.

(** ** Program state: the file-scope variables *)

(** The loader's variables.  [lib_impl] holds the function-pointer
    variables (the [static int] pointer [kpc_set_counting] and the like) by
    name; a name that is absent is a pointer that was never written, which for a
    static variable is [NULL]. *)
Record lib_state : Type := LibState {
  lib_inited : bool;
  lib_has_err : bool;
  lib_err_msg : string;
  lib_handle_kperf : Z;
  lib_handle_kperfdata : Z;
  lib_impl : gmap string Z
}.

(** The variables under "prepare buffer and config". *)
Record demo_state : Type := DemoState {
  classes : Z;
  reg_count : Z;
  regs : list Z;
  counter_map : list Z;
  counters_0 : list Z;
  counters_1 : list Z;
  cfg : Z;
  db : Z;
  ev_arr : list Z
}.

Record world : Type := World {
  w_lib : lib_state;
  w_demo : demo_state;
  w_log : list event
}.

Definition zeros (n : nat) : list Z := repeat 0 n.

(** The state at program start: statics are zero-initialised. *)
Definition lib_state0 : lib_state :=
  LibState false false "" NULL NULL ∅.

Definition demo_state0 : demo_state :=
  DemoState 0 0 (zeros KPC_MAX_COUNTERS) (zeros KPC_MAX_COUNTERS)
    (zeros KPC_MAX_COUNTERS) (zeros KPC_MAX_COUNTERS) NULL NULL (zeros 4).

Definition world0 : world := World lib_state0 demo_state0 [].

(** ** The monad: state, plus undefined behaviour *)

Inductive outcome (A : Type) : Type :=
  | Ok (a : A)
  | Undefined.
Arguments Ok {A} a.
Arguments Undefined {A}.

Definition M (A : Type) : Type := world -> outcome (A * world).

Definition ret {A} (a : A) : M A := fun w => Ok (a, w).

Definition bind {A B} (m : M A) (k : A -> M B) : M B :=
  fun w => match m w with
           | Ok (a, w') => k a w'
           | Undefined => Undefined
           end.

Definition undefined {A} : M A := fun _ => Undefined.

Notation "'let*' x ':=' m 'in' k" := (bind m (fun x => k))
  (at level 10, x pattern, m at level 100, k at level 200).
Notation "m ';;' k" := (bind m (fun _ => k))
  (at level 100, k at level 200, right associativity).

Definition get_lib : M lib_state := fun w => Ok (w_lib w, w).
Definition get_demo : M demo_state := fun w => Ok (w_demo w, w).
Definition modify_lib (f : lib_state -> lib_state) : M unit :=
  fun w => Ok (tt, World (f (w_lib w)) (w_demo w) (w_log w)).
Definition modify_demo (f : demo_state -> demo_state) : M unit :=
  fun w => Ok (tt, World (w_lib w) (f (w_demo w)) (w_log w)).

Definition fnptr (l : lib_state) (name : string) : Z :=
  default NULL (lib_impl l !! name).

(** Whether a call can be made: a framework call goes through its
    function pointer, which must have been bound. *)
Definition linked (l : lib_state) (c : call) : bool :=
  match call_symbol c with
  | None => true
  | Some name => negb (fnptr l name =? NULL)
  end.

(** The world after call [c] was answered with [r]. *)
Definition record (c : call) (r : reply) (w : world) : world :=
  World (w_lib w) (w_demo w) (w_log w ++ [(c, r)]).

Section Program.

Variable env : oracle.

(** A call to the outside; calling through a null function pointer is
    undefined. *)
Definition extern (c : call) : M reply :=
  fun w =>
    if linked (w_lib w) c
    then let r := env (w_log w) c in Ok (r, record c r w)
    else Undefined.

(** *** Arrays *)

(** What is in a buffer of 64-bit words after a callee wrote [ws] to its
    start: the callee never writes past the size it was given. *)
Definition blit (ws buf : list Z) : list Z :=
  take (length buf) (map wrap64 ws) ++ drop (length ws) buf.

(** [a[i]] for an unsigned index; reading outside the array is undefined. *)
Definition array_get (a : list Z) (i : Z) : M Z :=
  if i <? 0 then undefined
  else match a !! Z.to_nat i with
       | Some v => ret v
       | None => undefined
       end.

(** [a[i] = v]; writing outside the array is undefined. *)
Definition array_set (a : list Z) (i : nat) (v : Z) : M (list Z) :=
  if (i <? length a)%nat then ret (<[i := v]> a) else undefined.

(** ** load kperf/kperfdata dynamic library *)

Definition lib_symbols_kperf : list string :=
  [ "kpc_pmu_version"; "kpc_cpu_string"; "kpc_set_counting";
    "kpc_get_counting"; "kpc_set_thread_counting"; "kpc_get_thread_counting";
    "kpc_get_config_count"; "kpc_get_counter_count"; "kpc_set_config";
    "kpc_get_config"; "kpc_get_cpu_counters"; "kpc_get_thread_counters";
    "kpc_force_all_ctrs_set"; "kpc_force_all_ctrs_get";
    "kperf_action_count_set"; "kperf_action_count_get";
    "kperf_action_samplers_set"; "kperf_action_samplers_get";
    "kperf_action_filter_set_by_task"; "kperf_action_filter_set_by_pid";
    "kperf_timer_count_set"; "kperf_timer_count_get";
    "kperf_timer_period_set"; "kperf_timer_period_get";
    "kperf_timer_action_set"; "kperf_timer_action_get"; "kperf_sample_set";
    "kperf_sample_get"; "kperf_reset"; "kperf_timer_pet_set";
    "kperf_timer_pet_get"; "kperf_ns_to_ticks"; "kperf_ticks_to_ns";
    "kperf_tick_frequency" ].

Definition lib_symbols_kperfdata : list string :=
  [ "kpep_config_create"; "kpep_config_free"; "kpep_config_add_event";
    "kpep_config_remove_event"; "kpep_config_force_counters";
    "kpep_config_events_count"; "kpep_config_events"; "kpep_config_kpc";
    "kpep_config_kpc_count"; "kpep_config_kpc_classes"; "kpep_config_kpc_map";
    "kpep_db_create"; "kpep_db_free"; "kpep_db_name"; "kpep_db_aliases_count";
    "kpep_db_aliases"; "kpep_db_counters_count"; "kpep_db_events_count";
    "kpep_db_events"; "kpep_db_event"; "kpep_event_name"; "kpep_event_alias";
    "kpep_event_description" ].

Definition lib_path_kperf : string :=
  "/System/Library/PrivateFrameworks/kperf.framework/kperf".
Definition lib_path_kperfdata : string :=
  "/System/Library/PrivateFrameworks/kperfdata.framework/kperfdata".

Definition set_lib_inited (b : bool) (l : lib_state) : lib_state :=
  LibState b (lib_has_err l) (lib_err_msg l) (lib_handle_kperf l)
    (lib_handle_kperfdata l) (lib_impl l).
Definition set_lib_has_err (b : bool) (l : lib_state) : lib_state :=
  LibState (lib_inited l) b (lib_err_msg l) (lib_handle_kperf l)
    (lib_handle_kperfdata l) (lib_impl l).
Definition set_lib_err_msg (m : string) (l : lib_state) : lib_state :=
  LibState (lib_inited l) (lib_has_err l) m (lib_handle_kperf l)
    (lib_handle_kperfdata l) (lib_impl l).
Definition set_lib_handle_kperf (h : Z) (l : lib_state) : lib_state :=
  LibState (lib_inited l) (lib_has_err l) (lib_err_msg l) h
    (lib_handle_kperfdata l) (lib_impl l).
Definition set_lib_handle_kperfdata (h : Z) (l : lib_state) : lib_state :=
  LibState (lib_inited l) (lib_has_err l) (lib_err_msg l) (lib_handle_kperf l)
    h (lib_impl l).
(** [*symbol->impl = p] *)
Definition set_impl (name : string) (p : Z) (l : lib_state) : lib_state :=
  LibState (lib_inited l) (lib_has_err l) (lib_err_msg l) (lib_handle_kperf l)
    (lib_handle_kperfdata l) (<[name := p]> (lib_impl l)).

(** [snprintf(buf, size, ...)] keeps at most [size - 1] characters. *)
Definition snprintf (size : nat) (s : string) : string :=
  substring 0 (size - 1) s.

(** The two [for] loops of [lib_deinit]. *)
Fixpoint clear_symbols (symbols : list string) : M unit :=
  match symbols with
  | [] => ret tt
  | name :: rest => modify_lib (set_impl name NULL);; clear_symbols rest
  end.

Definition lib_deinit : M unit :=
  modify_lib (set_lib_inited false);;
  modify_lib (set_lib_has_err false);;
  let* l := get_lib in
  (if negb (lib_handle_kperf l =? NULL)
   then extern (dlclose (lib_handle_kperf l));; ret tt
   else ret tt);;
  (if negb (lib_handle_kperfdata l =? NULL)
   then extern (dlclose (lib_handle_kperfdata l));; ret tt
   else ret tt);;
  modify_lib (set_lib_handle_kperf NULL);;
  modify_lib (set_lib_handle_kperfdata NULL);;
  clear_symbols lib_symbols_kperf;;
  clear_symbols lib_symbols_kperfdata.

(** The macro [return_err()]; the value is what [lib_init] returns. *)
Definition return_err : M bool :=
  lib_deinit;;
  modify_lib (set_lib_inited true);;
  modify_lib (set_lib_has_err true);;
  ret false.

(** One of the two symbol loops of [lib_init].  The result is [false] when
    the loop left [lib_init] through [return_err()], [true] when it ran to
    its end. *)
Fixpoint load_symbols (handle : lib_state -> Z) (what : string)
    (symbols : list string) : M bool :=
  match symbols with
  | [] => ret true
  | name :: rest =>
      let* l := get_lib in
      let* r := extern (dlsym (handle l) name) in
      modify_lib (set_impl name (r_ret r));;
      if r_ret r =? NULL
      then modify_lib (set_lib_err_msg
             (snprintf 256 ("Failed to load " +:+ what +:+ " function: "
                            +:+ name +:+ ".")));;
           return_err
      else load_symbols handle what rest
  end.

Definition lib_init : M bool :=
  let* l := get_lib in
  if lib_inited l then ret (negb (lib_has_err l)) else
  let* r := extern (dlopen lib_path_kperf) in
  modify_lib (set_lib_handle_kperf (r_ret r));;
  if r_ret r =? NULL
  then let* e := extern dlerror in
       modify_lib (set_lib_err_msg
         (snprintf 256 ("Failed to load kperf.framework, message: "
                        +:+ r_str e +:+ ".")));;
       return_err
  else
  let* r := extern (dlopen lib_path_kperfdata) in
  modify_lib (set_lib_handle_kperfdata (r_ret r));;
  if r_ret r =? NULL
  then let* e := extern dlerror in
       modify_lib (set_lib_err_msg
         (snprintf 256 ("Failed to load kperfdata.framework, message: "
                        +:+ r_str e +:+ ".")));;
       return_err
  else
  let* loaded := load_symbols lib_handle_kperf "kperf" lib_symbols_kperf in
  if negb loaded then ret false else
  let* loaded :=
    load_symbols lib_handle_kperfdata "kperfdata" lib_symbols_kperfdata in
  if negb loaded then ret false else
  modify_lib (set_lib_inited true);;
  modify_lib (set_lib_has_err false);;
  ret true.

(** ** kdebug utils *)

(** [kdebug_trace_read(buf, len, count)].  [buf] is the address of the
    caller's buffer; [count] is [None] for a null pointer and otherwise the
    value stored at it.  The result is the return value and what is stored
    at [count] afterwards. *)
Definition kdebug_trace_read (buf : Z) (len : Z) (count : option Z)
    : M (Z * option Z) :=
  let count := match count with Some _ => Some 0 | None => None end in
  if (buf =? NULL) || (len =? 0) then ret (-1, count) else
  let* r := extern (sysctl_KERN_KDREADTR buf len) in
  let len := default len (r_out r) in
  if negb (r_ret r =? 0) then ret (r_ret r, count) else
  match count with
  | Some _ => ret (0, Some len)
  | None => undefined
  end.


(** ** Demo *)

(** [kpep_config_error_names] and [kpep_config_error_desc]. *)
Definition kpep_config_error_names : list string :=
  [ "none"; "invalid argument"; "out of memory"; "I/O"; "buffer too small";
    "current system unknown"; "database path invalid"; "database not found";
    "database architecture unsupported"; "database version unsupported";
    "database corrupt"; "event not found"; "conflicting events";
    "all counters must be forced"; "event unavailable"; "check errno" ].

Definition KPEP_CONFIG_ERROR_MAX : Z := 16.

Definition kpep_config_error_desc (code : Z) : string :=
  if (0 <=? code) && (code <? KPEP_CONFIG_ERROR_MAX)
  then default "unknown error" (kpep_config_error_names !! Z.to_nat code)
  else "unknown error".

(** [event_alias]: [names] is the array [names[EVENT_NAME_MAX]], a slot
    being [None] where the pointer is null. *)
Record event_alias : Type := EventAlias {
  alias : string;
  names : list (option string)
}.

(** An array initialiser: the names given, the rest of the slots null. *)
Definition names_init (l : list string) : list (option string) :=
  map Some l ++ repeat None (EVENT_NAME_MAX - length l).

Definition profile_events : list event_alias :=
  [ EventAlias "cycles"
      (names_init [ "FIXED_CYCLES"; "CPU_CLK_UNHALTED.THREAD";
                    "CPU_CLK_UNHALTED.CORE" ]);
    EventAlias "instructions"
      (names_init [ "FIXED_INSTRUCTIONS"; "INST_RETIRED.ANY" ]);
    EventAlias "branches"
      (names_init [ "INST_BRANCH"; "BR_INST_RETIRED.ALL_BRANCHES";
                    "INST_RETIRED.ANY" ]);
    EventAlias "branch-misses"
      (names_init [ "BRANCH_MISPRED_NONSPEC"; "BRANCH_MISPREDICT";
                    "BR_MISP_RETIRED.ALL_BRANCHES";
                    "BR_INST_RETIRED.MISPRED" ]) ].

Definition ev_count : nat := length profile_events.

(** The loop of [get_event] over the slots [names[j]], [j < EVENT_NAME_MAX]. *)
Fixpoint get_event_loop (d : Z) (slots : list (option string)) : M Z :=
  match slots with
  | [] => ret NULL
  | None :: _ => ret NULL
  | Some name :: rest =>
      let* r := extern (kpep_db_event d name) in
      let ev := default NULL (r_out r) in
      if r_ret r =? 0 then ret ev else get_event_loop d rest
  end.

Definition get_event (d : Z) (a : event_alias) : M Z :=
  get_event_loop d (take EVENT_NAME_MAX (names a)).

(** ** Demo 1: profile a function in current thread *)

Definition set_classes (v : Z) (d : demo_state) : demo_state :=
  DemoState v (reg_count d) (regs d) (counter_map d) (counters_0 d)
    (counters_1 d) (cfg d) (db d) (ev_arr d).
Definition set_reg_count (v : Z) (d : demo_state) : demo_state :=
  DemoState (classes d) v (regs d) (counter_map d) (counters_0 d)
    (counters_1 d) (cfg d) (db d) (ev_arr d).
Definition set_regs (v : list Z) (d : demo_state) : demo_state :=
  DemoState (classes d) (reg_count d) v (counter_map d) (counters_0 d)
    (counters_1 d) (cfg d) (db d) (ev_arr d).
Definition set_counter_map (v : list Z) (d : demo_state) : demo_state :=
  DemoState (classes d) (reg_count d) (regs d) v (counters_0 d)
    (counters_1 d) (cfg d) (db d) (ev_arr d).
Definition set_counters_0 (v : list Z) (d : demo_state) : demo_state :=
  DemoState (classes d) (reg_count d) (regs d) (counter_map d) v
    (counters_1 d) (cfg d) (db d) (ev_arr d).
Definition set_counters_1 (v : list Z) (d : demo_state) : demo_state :=
  DemoState (classes d) (reg_count d) (regs d) (counter_map d) (counters_0 d)
    v (cfg d) (db d) (ev_arr d).
Definition set_cfg (v : Z) (d : demo_state) : demo_state :=
  DemoState (classes d) (reg_count d) (regs d) (counter_map d) (counters_0 d)
    (counters_1 d) v (db d) (ev_arr d).
Definition set_db (v : Z) (d : demo_state) : demo_state :=
  DemoState (classes d) (reg_count d) (regs d) (counter_map d) (counters_0 d)
    (counters_1 d) (cfg d) v (ev_arr d).
Definition set_ev_arr (v : list Z) (d : demo_state) : demo_state :=
  DemoState (classes d) (reg_count d) (regs d) (counter_map d) (counters_0 d)
    (counters_1 d) (cfg d) (db d) v.

(** The "get events" loop from index [i] on.  The result is the string
    [performance_counters_init] returns from inside the loop, or [None] when
    the loop ran to its end. *)
Fixpoint get_events (i : nat) (aliases : list event_alias)
    : M (option string) :=
  match aliases with
  | [] => ret None
  | a :: rest =>
      let* d := get_demo in
      let* ev := get_event (db d) a in
      let* evs := array_set (ev_arr d) i ev in
      modify_demo (set_ev_arr evs);;
      if ev =? NULL then ret (Some (alias a)) else get_events (S i) rest
  end.

(** The "add event to config" loop over the indices [is]. *)
Fixpoint add_events (indices : list nat) : M (option string) :=
  match indices with
  | [] => ret None
  | i :: rest =>
      let* d := get_demo in
      let* ev := array_get (ev_arr d) (Z.of_nat i) in
      let* r := extern (kpep_config_add_event (cfg d) ev 0) in
      if negb (r_ret r =? 0)
      then ret (Some (kpep_config_error_desc (r_ret r)))
      else add_events rest
  end.

(** [sizeof(counter_map)] and [sizeof(regs)]: 32 words of 8 bytes. *)
Definition sizeof_counters : Z := Z.of_nat KPC_MAX_COUNTERS * 8.

Definition newline : string := String (Ascii.ascii_of_nat 10) "".

(** A step of a function that returns a string on failure: the result is
    the string returned from inside the step, or [None] when control
    reaches the end of the step.  [m1 ;;; m2] is [m1] followed by [m2]
    unless [m1] returned. *)
Definition and_then (m1 m2 : M (option string)) : M (option string) :=
  let* returned := m1 in
  match returned with
  | Some msg => ret (Some msg)
  | None => m2
  end.

Notation "m1 ';;;' m2" := (and_then m1 m2)
  (at level 100, m2 at level 200, right associativity).

(** The steps of [performance_counters_init], under the comments that head
    them in the source. *)

(** "load dylib" *)
Definition load_dylib : M (option string) :=
  let* loaded := lib_init in
  if negb loaded
  then let* l := get_lib in ret (Some (lib_err_msg l))
  else ret None.

(** "check permission" *)
Definition check_permission : M (option string) :=
  let* r := extern kpc_force_all_ctrs_get in
  if negb (r_ret r =? 0)
  then ret (Some ("Permission denied, xnu/kpc requires root privileges."
                  +:+ newline))
  else ret None.

(** "load pmc db" *)
Definition load_pmc_db : M (option string) :=
  modify_demo (set_db NULL);;
  let* r := extern kpep_db_create in
  modify_demo (set_db (default NULL (r_out r)));;
  if negb (r_ret r =? 0) then ret (Some "Error: cannot load pmc database")
  else ret None.

(** "create a config" *)
Definition create_config : M (option string) :=
  modify_demo (set_cfg NULL);;
  let* d := get_demo in
  let* r := extern (kpep_config_create (db d)) in
  modify_demo (set_cfg (default NULL (r_out r)));;
  if negb (r_ret r =? 0) then ret (Some (kpep_config_error_desc (r_ret r)))
  else
  let* d := get_demo in
  let* r := extern (kpep_config_force_counters (cfg d)) in
  if negb (r_ret r =? 0) then ret (Some (kpep_config_error_desc (r_ret r)))
  else ret None.

(** The four queries between "add event to config" and "set config to
    kernel", which fill [classes], [reg_count], [counter_map] and [regs]. *)
Definition query_config : M (option string) :=
  let* d := get_demo in
  let* r := extern (kpep_config_kpc_classes (cfg d)) in
  modify_demo
    (fun d => set_classes (default (classes d) (wrap32 <$> r_out r)) d);;
  if negb (r_ret r =? 0) then ret (Some (kpep_config_error_desc (r_ret r)))
  else
  let* r := extern (kpep_config_kpc_count (cfg d)) in
  modify_demo
    (fun d => set_reg_count (default (reg_count d) (wrap64 <$> r_out r)) d);;
  if negb (r_ret r =? 0) then ret (Some (kpep_config_error_desc (r_ret r)))
  else
  let* r := extern (kpep_config_kpc_map (cfg d) sizeof_counters) in
  modify_demo (fun d => set_counter_map (blit (r_words r) (counter_map d)) d);;
  if negb (r_ret r =? 0) then ret (Some (kpep_config_error_desc (r_ret r)))
  else
  let* r := extern (kpep_config_kpc (cfg d) sizeof_counters) in
  modify_demo (fun d => set_regs (blit (r_words r) (regs d)) d);;
  if negb (r_ret r =? 0) then ret (Some "Failed get kpc registers")
  else ret None.

(** "set config to kernel" *)
Definition set_config_to_kernel : M (option string) :=
  let* r := extern (kpc_force_all_ctrs_set 1) in
  if negb (r_ret r =? 0) then ret (Some "Failed force all ctrs")
  else
  let* d := get_demo in
  if negb (Z.land (classes d) KPC_CLASS_CONFIGURABLE_MASK =? 0)
     && negb (reg_count d =? 0)
  then let* r := extern (kpc_set_config (classes d) (regs d)) in
       if negb (r_ret r =? 0) then ret (Some "Failed set kpc config")
       else ret None
  else ret None.

(** The result is the returned string, [None] for the null pointer that
    [return 0] gives. *)
Definition performance_counters_init : M (option string) :=
  load_dylib;;;
  check_permission;;;
  load_pmc_db;;;
  create_config;;;
  get_events 0 profile_events;;;
  add_events (seq 0 ev_count);;;
  query_config;;;
  set_config_to_kernel.

Definition performance_counters_start : M (option string) :=
  let* d := get_demo in
  let* r := extern (kpc_set_counting (classes d)) in
  if negb (r_ret r =? 0) then ret (Some "Failed set counting") else
  let* r := extern (kpc_set_thread_counting (classes d)) in
  if negb (r_ret r =? 0) then ret (Some "Failed set thread counting") else
  let* r := extern (kpc_get_thread_counters 0 (Z.of_nat KPC_MAX_COUNTERS)) in
  modify_demo (fun d => set_counters_0 (blit (r_words r) (counters_0 d)) d);;
  if negb (r_ret r =? 0) then ret (Some "Failed get thread counters before")
  else ret None.

(** The loop [for (usize i = 0; i < 4; i++)] of [performance_counters_stop]
    over the indices given, on the caller's array [values]. *)
Fixpoint compute_values (indices : list nat) (values : list Z)
    : M (list Z) :=
  match indices with
  | [] => ret values
  | i :: rest =>
      let* d := get_demo in
      let* idx := array_get (counter_map d) (Z.of_nat i) in
      let* c1 := array_get (counters_1 d) idx in
      let* c0 := array_get (counters_0 d) idx in
      let* values := array_set values i (sub64 c1 c0) in
      compute_values rest values
  end.

(** [values] is the caller's array; the result is the returned string and
    the array afterwards. *)
Definition performance_counters_stop (values : list Z)
    : M (option string * list Z) :=
  let* r := extern (kpc_get_thread_counters 0 (Z.of_nat KPC_MAX_COUNTERS)) in
  modify_demo (fun d => set_counters_1 (blit (r_words r) (counters_1 d)) d);;
  if negb (r_ret r =? 0)
  then ret (Some "Failed get thread counters after", values)
  else
  extern (kpc_set_counting 0);;
  extern (kpc_set_thread_counting 0);;
  extern (kpc_force_all_ctrs_set 0);;
  let* values := compute_values (seq 0 4) values in
  ret (None, values).

End Program.

Notation "m1 ';;;' m2" := (and_then m1 m2)
  (at level 100, m2 at level 200, right associativity).

(** ** Demo 2: profile a select process

    The aggregation of the collected trace records in [main2], from
    "aggregate thread PMC data" on.  It makes no outside call except for
    memory; the records already read are its input. *)

Module Demo2.

(** [kd_buf], without the [cpuid] and [unused] members the code never
    reads. *)
Record kd_buf : Type := KdBuf {
  timestamp : Z;
  arg1 : Z;
  arg2 : Z;
  arg3 : Z;
  arg4 : Z;
  arg5 : Z;
  debugid : Z
}.

Record kpc_thread_data : Type := ThreadData {
  tid : Z;
  timestamp_0 : Z;
  timestamp_1 : Z;
  counters_0 : list Z;
  counters_1 : list Z
}.

(** The array [thread_data] with its capacity; [thread_count] is the
    number of elements in use, which are the ones listed. *)
Record table : Type := Table {
  thread_capacity : Z;
  thread_data : list kpc_thread_data
}.

Definition thread_count (t : table) : Z := Z.of_nat (length (thread_data t)).

(** [sizeof(kpc_thread_data)]: a [u32] padded to 8 bytes, two [u64] and
    twice 32 [u64]. *)
Definition sizeof_kpc_thread_data : Z := 8 + 8 + 8 + 2 * (32 * 8).

Definition obind {A B} (m : outcome A) (k : A -> outcome B) : outcome B :=
  match m with
  | Ok a => k a
  | Undefined => Undefined
  end.

Notation "'let?' x ':=' m 'in' k" := (obind m (fun x => k))
  (at level 10, x pattern, m at level 100, k at level 200).

Section Aggregate.

(** [KDBG_FUNC_MASK] and [DBG_FUNC_START] come from [<sys/kdebug.h>]. *)
Variables KDBG_FUNC_MASK DBG_FUNC_START : Z.

(** Whether [malloc] or [realloc] grants a request of the given size. *)
Variable alloc_ok : Z -> bool.

(** The number of counters, [counter_count] in [main2]. *)
Variable counter_count : Z.

(** [buf->debugid & KDBG_FUNC_MASK] *)
Definition func (buf : kd_buf) : Z := Z.land (debugid buf) KDBG_FUNC_MASK.

(** [(u32)buf->arg5] *)
Definition tid_of (buf : kd_buf) : Z := wrap32 (arg5 buf).

(** [counters[ci++] = v] on the local array [counters[KPC_MAX_COUNTERS]]:
    the list holds the [ci] values written so far; a write past the end of
    the array is undefined. *)
Definition push (counters : list Z) (v : Z) : outcome (list Z) :=
  if (length counters <? KPC_MAX_COUNTERS)%nat
  then Ok (counters ++ [v])
  else Undefined.

Definition ci (counters : list Z) : Z := Z.of_nat (length counters).

(** [if (ci < counter_count) counters[ci++] = v;] *)
Definition push_below (counters : list Z) (v : Z) : outcome (list Z) :=
  if ci counters <? counter_count then push counters v else Ok counters.

(** The inner loop over [buf2], from the record after [buf] on. *)
Fixpoint read_split (t : Z) (counters : list Z) (bufs : list kd_buf)
    : outcome (list Z) :=
  match bufs with
  | [] => Ok counters
  | buf2 :: rest =>
      if negb (tid_of buf2 =? t) then Ok counters else
      if func buf2 =? DBG_FUNC_START then Ok counters else
      let? counters := push_below counters (arg1 buf2) in
      let? counters := push_below counters (arg2 buf2) in
      let? counters := push_below counters (arg3 buf2) in
      let? counters := push_below counters (arg4 buf2) in
      if ci counters =? counter_count then Ok counters
      else read_split t counters rest
  end.

(** "read one counter log": the values of the sample that starts at
    [buf], or [None] where the code says [continue] ("not enough counters,
    maybe truncated"). *)
Definition read_counter_log (buf : kd_buf) (rest : list kd_buf)
    : outcome (option (list Z)) :=
  let counters := [arg1 buf; arg2 buf; arg3 buf; arg4 buf] in
  let? counters := if ci counters <? counter_count
                   then read_split (tid_of buf) counters rest
                   else Ok counters in
  if negb (ci counters =? counter_count) then Ok None
  else Ok (Some counters).

(** The search loop: the first element in use whose [tid] is [t]. *)
Fixpoint find_thread (t : Z) (data : list kpc_thread_data) : option nat :=
  match data with
  | [] => None
  | d :: rest =>
      if tid d =? t then Some 0%nat else S <$> find_thread t rest
  end.

(** [memcpy(dst, src, counter_count * sizeof(u64))] *)
Definition memcpy (dst src : list Z) : list Z :=
  take (Z.to_nat counter_count) src ++ drop (Z.to_nat counter_count) dst.

(** The final [if (data->timestamp_0 == 0) ... else ...]. *)
Definition store_sample (ts : Z) (counters : list Z) (d : kpc_thread_data)
    : kpc_thread_data :=
  if timestamp_0 d =? 0
  then ThreadData (tid d) ts (timestamp_1 d)
         (memcpy (counters_0 d) counters) (counters_1 d)
  else ThreadData (tid d) (timestamp_0 d) ts
         (counters_0 d) (memcpy (counters_1 d) counters).

(** [memset(data, 0, sizeof(kpc_thread_data)); data->tid = tid;] *)
Definition new_thread_data (t : Z) : kpc_thread_data :=
  ThreadData t 0 0 (zeros KPC_MAX_COUNTERS) (zeros KPC_MAX_COUNTERS).

(** "add to thread data"; [None] is the [return 1] after a failed
    [realloc]. *)
Definition add_thread_data (tbl : table) (t ts : Z) (counters : list Z)
    : option table :=
  match find_thread t (thread_data tbl) with
  | Some i =>
      Some (Table (thread_capacity tbl)
              (alter (store_sample ts counters) i (thread_data tbl)))
  | None =>
      let grown :=
        if thread_capacity tbl =? thread_count tbl
        then let capacity := wrap64 (thread_capacity tbl * 2) in
             if alloc_ok (wrap64 (capacity * sizeof_kpc_thread_data))
             then Some capacity else None
        else Some (thread_capacity tbl) in
      match grown with
      | None => None
      | Some capacity =>
          Some (Table capacity
                  (thread_data tbl
                   ++ [store_sample ts counters (new_thread_data t)]))
      end
  end.

(** The outer loop over [buf], from a given record on. *)
Fixpoint aggregate (bufs : list kd_buf) (tbl : table)
    : outcome (option table) :=
  match bufs with
  | [] => Ok (Some tbl)
  | buf :: rest =>
      if negb (func buf =? DBG_FUNC_START) then aggregate rest tbl else
      let t := tid_of buf in
      if t =? 0 then aggregate rest tbl else
      let? sample := read_counter_log buf rest in
      match sample with
      | None => aggregate rest tbl
      | Some counters =>
          match add_thread_data tbl t (timestamp buf) counters with
          | None => Ok None
          | Some tbl => aggregate rest tbl
          end
      end
  end.

(** From the first [malloc] of [thread_data] to the end of the loop. *)
Definition aggregate_thread_data (bufs : list kd_buf)
    : outcome (option table) :=
  let thread_capacity := 16 in
  if alloc_ok (thread_capacity * sizeof_kpc_thread_data)
  then aggregate bufs (Table thread_capacity [])
  else Ok None.

End Aggregate.

End Demo2.

(** ** Stand-ins for the outside world

    Concrete oracles, to run the program on.  [fake] answers from a
    description of a machine; the loader hands out non-null addresses, and
    the n-th read of the thread counters gets the n-th entry of
    [fk_reads]. *)

Module Fake.

Record machine : Type := Machine {
  fk_dlopen_fails_first : bool;   (* the first [dlopen] ever made fails *)
  fk_events : list string;        (* the event names in the database *)
  fk_classes : Z;
  fk_reg_count : Z;
  fk_map : list Z;
  fk_regs : list Z;
  fk_reads : list (Z * list Z);   (* return value and counters, per read *)
  fk_teardown_ret : Z             (* what the calls that switch off return *)
}.

Definition answer (v : Z) : reply := Reply v None [] "".

Definition is_dlopen (e : event) : bool :=
  match fst e with dlopen _ => true | _ => false end.

Definition is_read (e : event) : bool :=
  match fst e with kpc_get_thread_counters _ _ => true | _ => false end.

Fixpoint index_of (name : string) (l : list string) : option nat :=
  match l with
  | [] => None
  | x :: rest => if String.eqb x name then Some 0%nat
                 else S <$> index_of name rest
  end.

Definition fake (m : machine) : oracle := fun log c =>
  match c with
  | dlopen _ =>
      if fk_dlopen_fails_first m && negb (existsb is_dlopen log)
      then answer NULL else answer 4096
  | dlerror => Reply 0 None [] "image not found"
  | dlclose _ => answer 0
  | dlsym _ _ => answer 8192
  | sysctl_KERN_KDREADTR _ len => Reply 0 (Some 3) [] ""
  | kpc_force_all_ctrs_get => Reply 0 (Some 0) [] ""
  | kpc_force_all_ctrs_set v => answer (if v =? 0 then fk_teardown_ret m else 0)
  | kpc_set_config _ _ => answer 0
  | kpc_set_counting cls | kpc_set_thread_counting cls =>
      answer (if cls =? 0 then fk_teardown_ret m else 0)
  | kpc_get_thread_counters _ _ =>
      match fk_reads m !! length (List.filter is_read log) with
      | Some (v, words) => Reply v None words ""
      | None => answer 1
      end
  | kpep_db_create => Reply 0 (Some 100) [] ""
  | kpep_config_create _ => Reply 0 (Some 200) [] ""
  | kpep_config_force_counters _ => answer 0
  | kpep_db_event _ name =>
      match index_of name (fk_events m) with
      | Some i => Reply 0 (Some (1000 + Z.of_nat i)) [] ""
      | None => Reply 11 None [] ""
      end
  | kpep_config_add_event _ _ _ => answer 0
  | kpep_config_kpc_classes _ => Reply 0 (Some (fk_classes m)) [] ""
  | kpep_config_kpc_count _ => Reply 0 (Some (fk_reg_count m)) [] ""
  | kpep_config_kpc_map _ _ => Reply 0 None (fk_map m) ""
  | kpep_config_kpc _ _ => Reply 0 None (fk_regs m) ""
  end.

(** An Apple-silicon-like machine: two fixed and two configurable
    counters in use. *)
Definition apple : machine :=
  Machine false
    [ "FIXED_CYCLES"; "FIXED_INSTRUCTIONS"; "INST_BRANCH";
      "BRANCH_MISPRED_NONSPEC"; "BRANCH_MISPREDICT" ]
    3 4 [0; 1; 2; 3] [0; 0; 141; 203]
    [ (0, [10; 20; 30; 40]); (0, [15; 45; 31; 47]) ] 0.

(** An Intel-like machine, where only later candidates exist. *)
Definition intel : machine :=
  Machine false
    [ "CPU_CLK_UNHALTED.THREAD"; "CPU_CLK_UNHALTED.CORE"; "INST_RETIRED.ANY";
      "BR_INST_RETIRED.ALL_BRANCHES"; "BR_MISP_RETIRED.ALL_BRANCHES" ]
    3 4 [0; 1; 3; 4] [0; 0; 0; 196; 197]
    [ (0, [10; 20; 30; 40; 50]); (0, [15; 45; 31; 47; 58]) ] 0.

(** A machine whose database has no branch events. *)
Definition no_branches : machine :=
  Machine false [ "FIXED_CYCLES"; "FIXED_INSTRUCTIONS" ] 1 0 [0; 1] []
    [ (0, [10; 20]); (0, [15; 45]) ] 0.

(** A machine that uses the fixed counters only. *)
Definition fixed_only : machine :=
  Machine false
    [ "FIXED_CYCLES"; "FIXED_INSTRUCTIONS"; "INST_BRANCH";
      "BRANCH_MISPRED_NONSPEC" ]
    KPC_CLASS_FIXED_MASK 0 [0; 1] []
    [ (0, [10; 20]); (0, [15; 45]) ] 0.

(** [apple], but the second read of the counters fails. *)
Definition read_fails : machine :=
  Machine false (fk_events apple) 3 4 [0; 1; 2; 3] [0; 0; 141; 203]
    [ (0, [10; 20; 30; 40]); (1, []) ] 0.

(** [apple], but switching off fails every time. *)
Definition stuck : machine :=
  Machine false (fk_events apple) 3 4 [0; 1; 2; 3] [0; 0; 141; 203]
    [ (0, [10; 20; 30; 40]); (0, [15; 45; 31; 47]) ] 1.

(** [apple], but the first [dlopen] fails. *)
Definition flaky : machine :=
  Machine true (fk_events apple) 3 4 [0; 1; 2; 3] [0; 0; 141; 203]
    [ (0, [10; 20; 30; 40]); (0, [15; 45; 31; 47]) ] 0.

(** The world of the result of a run, or the start world if there is none. *)
Definition world_of {A} (o : outcome (A * world)) : world :=
  match o with Ok (_, w) => w | Undefined => world0 end.

Definition value_of {A} (o : outcome (A * world)) : option A :=
  match o with Ok (a, _) => Some a | Undefined => None end.

(** The world after [performance_counters_init] on machine [m], and after
    [performance_counters_start] then. *)
Definition configured (m : machine) : world :=
  world_of (performance_counters_init (fake m) world0).

Definition counting (m : machine) : world :=
  world_of (performance_counters_start (fake m) (configured m)).

(** The database of machine [m], as [fake m] answers lookups in it. *)
Definition catalog (m : machine) (name : string) : reply :=
  fake m [] (kpep_db_event 0 name).

(** The aliases of [profile_events], by position. *)
Definition cycles : event_alias := nth 0 profile_events (EventAlias "" []).
Definition instructions : event_alias :=
  nth 1 profile_events (EventAlias "" []).
Definition branches : event_alias := nth 2 profile_events (EventAlias "" []).
Definition branch_misses : event_alias :=
  nth 3 profile_events (EventAlias "" []).

(** Trace records as the kernel writes them for the thread counters
    ([KDBG_EVENTID(DBG_PERF, PERF_KPC, PERF_KPC_DATA_THREAD)] is
    0x25060020): one with the start flag, one with the end flag. *)
Definition KDBG_FUNC_MASK : Z := 3.
Definition DBG_FUNC_START : Z := 1.

Definition start_record (ts t a1 a2 a3 a4 : Z) : Demo2.kd_buf :=
  Demo2.KdBuf ts a1 a2 a3 a4 t 621150241.

Definition more_record (ts t a1 a2 a3 a4 : Z) : Demo2.kd_buf :=
  Demo2.KdBuf ts a1 a2 a3 a4 t 621150242.

(** Memory is never short. *)
Definition plenty (size : Z) : bool := true.

(** The table of a decode, as thread id, start and end timestamp and the
    first [n] counters of each snapshot; [None] when there is no table. *)
Definition summary (n : nat) (o : outcome (option Demo2.table))
    : option (list (Z * (Z * list Z) * (Z * list Z))) :=
  match o with
  | Ok (Some tbl) =>
      Some (map (fun d =>
                   (Demo2.tid d,
                    (Demo2.timestamp_0 d, take n (Demo2.counters_0 d)),
                    (Demo2.timestamp_1 d, take n (Demo2.counters_1 d))))
              (Demo2.thread_data tbl))
  | _ => None
  end.

(** [fake m], but the libraries have no symbol [missing]. *)
Definition without_symbol (missing : string) (m : machine) : oracle :=
  fun log c =>
    match c with
    | dlsym _ name =>
        if String.eqb name missing then answer NULL else fake m log c
    | _ => fake m log c
    end.

(** The macros of [<sys/kdebug.h>] for the fields of a debugid, and its
    class for kperf. *)
Definition KDBG_EXTRACT_CLASS (debugid : Z) : Z :=
  Z.shiftr (Z.land debugid 4278190080) 24.
Definition KDBG_EXTRACT_SUBCLASS (debugid : Z) : Z :=
  Z.shiftr (Z.land debugid 16711680) 16.
Definition KDBG_EXTRACT_CODE (debugid : Z) : Z :=
  Z.shiftr (Z.land debugid 65532) 2.
Definition DBG_PERF : Z := 37.

(** A record of another class. *)
Definition other_record (ts t : Z) : Demo2.kd_buf :=
  Demo2.KdBuf ts 0 0 0 0 t 16777217.

End Fake.

(** ** Vocabulary of the properties *)

Definition lib_symbols : list string :=
  lib_symbols_kperf ++ lib_symbols_kperfdata.

(** Nothing of a binding is left: both handles and every function pointer
    of the two tables are null. *)
Definition torn_down (l : lib_state) : Prop :=
  lib_handle_kperf l = NULL /\ lib_handle_kperfdata l = NULL
  /\ Forall (fun name => fnptr l name = NULL) lib_symbols.

(** Every function pointer of the two tables is set. *)
Definition bound (l : lib_state) : Prop :=
  Forall (fun name => fnptr l name <> NULL) lib_symbols.

(** The calls a run added to the log. *)
Definition calls_since (w w' : world) : list event :=
  drop (length (w_log w)) (w_log w').

(** What [clear_symbols] leaves in the loader's variables. *)
Definition cleared (symbols : list string) (l : lib_state) : lib_state :=
  fold_left (fun l name => set_impl name NULL l) symbols l.

(** A failed binding, as [return_err()] leaves it. *)
Definition failed (l : lib_state) : Prop :=
  lib_inited l = true /\ lib_has_err l = true /\ torn_down l.

(** What [lib_deinit] leaves in the loader's variables. *)
Definition deinit_state (l : lib_state) : lib_state :=
  cleared lib_symbols_kperfdata
    (cleared lib_symbols_kperf
       (set_lib_handle_kperfdata NULL
          (set_lib_handle_kperf NULL
             (set_lib_has_err false (set_lib_inited false l))))).

(** The arrays of the demo have the sizes they are declared with. *)
Definition sized (d : demo_state) : Prop :=
  length (regs d) = KPC_MAX_COUNTERS
  /\ length (counter_map d) = KPC_MAX_COUNTERS
  /\ length (counters_0 d) = KPC_MAX_COUNTERS
  /\ length (counters_1 d) = KPC_MAX_COUNTERS
  /\ length (ev_arr d) = ev_count.

(** [counters_1[idx] - counters_0[idx]] for [idx = counter_map[i]], where
    all three reads are inside their arrays. *)
Definition delta_at (d : demo_state) (i : nat) : option Z :=
  match counter_map d !! i with
  | Some idx =>
      if idx <? 0 then None
      else match counters_1 d !! Z.to_nat idx, counters_0 d !! Z.to_nat idx with
           | Some c1, Some c0 => Some (sub64 c1 c0)
           | _, _ => None
           end
  | None => None
  end.

(** The read of the thread counters that both [performance_counters_start]
    and [performance_counters_stop] make. *)
Definition read_counters : call :=
  kpc_get_thread_counters 0 (Z.of_nat KPC_MAX_COUNTERS).

(** [bound], as a test. *)
Definition boundb (l : lib_state) : bool :=
  forallb (fun name => negb (fnptr l name =? NULL)) lib_symbols.

(** What the loop of [performance_counters_stop] leaves in [values] when
    every read and write is inside its array. *)
Definition write_deltas (d : demo_state) (indices : list nat)
    (values : list Z) : list Z :=
  fold_left (fun v i => <[i := default 0 (delta_at d i)]> v) indices values.

(** Every array access of the loop of [performance_counters_stop] is
    inside its array: the arrays have their declared sizes, the caller's
    [values] has room for 4 results, and the first 4 entries of
    [counter_map] are indices below [KPC_MAX_COUNTERS]. *)
Definition in_bounds (d : demo_state) (values : list Z) : Prop :=
  sized d /\ (4 <= length values)%nat
  /\ Forall (fun idx => 0 <= idx < Z.of_nat KPC_MAX_COUNTERS)
       (take 4 (counter_map d)).

(** The function pointer an event went through, if any. *)
Definition symbol (e : event) : option string := call_symbol (fst e).

(** An event of the loader or of [sysctl], which are linked directly. *)
Definition direct (e : event) : Prop := symbol e = None.

(** All events of [l] went through one of the function pointers [syms]. *)
Definition within (syms : list string) (l : list event) : Prop :=
  Forall (fun e => exists s, symbol e = Some s /\ In s syms) l.

(** A run of [m] from [w] has defined behaviour, and its result [a], final
    world [w'] and the events [l] it added to the log satisfy [Q]. *)
Definition runs {A} (m : M A) (w : world)
    (Q : A -> world -> list event -> Prop) : Prop :=
  exists a w' l, m w = Ok (a, w') /\ w_log w' = w_log w ++ l /\ Q a w' l.

(** The loader's variables are in a state [lib_init] can leave them in:
    a recorded success means every function pointer is set. *)
Definition consistent (l : lib_state) : Prop :=
  lib_inited l = true -> lib_has_err l = false -> bound l.

(** The library is bound and the arrays of the demo have their sizes. *)
Definition ready (w : world) : Prop :=
  bound (w_lib w) /\ sized (w_demo w).

(** The candidate names of an alias: the names in the first
    [EVENT_NAME_MAX] slots, up to the first null. *)
Fixpoint until_null (slots : list (option string)) : list string :=
  match slots with
  | Some name :: rest => name :: until_null rest
  | _ => []
  end.

Definition candidates (a : event_alias) : list string :=
  until_null (take EVENT_NAME_MAX (names a)).

(** The lookups of the names [l] in database [d], answered by [cat]. *)
Definition lookups (cat : string -> reply) (d : Z) (l : list string)
    : list event :=
  map (fun name => (kpep_db_event d name, cat name)) l.

(** Name [name] is in the database, and what the lookup stores for it. *)
Definition present (cat : string -> reply) (name : string) : Prop :=
  r_ret (cat name) = 0.

Definition handle (cat : string -> reply) (name : string) : Z :=
  default NULL (r_out (cat name)).

(** Alias [a] has a candidate in the database, and the first such
    candidate has a handle that is not null. *)
Definition resolves (cat : string -> reply) (a : event_alias) : Prop :=
  exists pre name post,
    candidates a = pre ++ name :: post
    /\ Forall (fun n => ~ present cat n) pre
    /\ present cat name /\ handle cat name <> NULL.

(** An event that is no write of the registers and no forcing of the
    counters. *)
Definition setup (e : event) : Prop :=
  symbol e <> Some "kpc_set_config"
  /\ symbol e <> Some "kpc_force_all_ctrs_set".

(** A successful [kpep_config_force_counters]: the last step before the
    events are looked up. *)
Definition forced (e : event) : Prop :=
  symbol e = Some "kpep_config_force_counters" /\ r_ret (snd e) = 0.

(** The condition under which [performance_counters_init] writes the
    registers: [(classes & KPC_CLASS_CONFIGURABLE_MASK) && reg_count]. *)
Definition configurable (d : demo_state) : Prop :=
  Z.land (classes d) KPC_CLASS_CONFIGURABLE_MASK <> 0 /\ reg_count d <> 0.

(** What "set config to kernel" does: its result, final world and events. *)
Definition set_config_outcome (res : option string) (w' : world)
    (l : list event) : Prop :=
  exists r,
    (l = [(kpc_force_all_ctrs_set 1, r)] /\ r_ret r <> 0
     /\ res = Some "Failed force all ctrs")
    \/ (l = [(kpc_force_all_ctrs_set 1, r)] /\ r_ret r = 0
        /\ ~ configurable (w_demo w') /\ res = None)
    \/ (exists r',
          l = [(kpc_force_all_ctrs_set 1, r);
               (kpc_set_config (classes (w_demo w')) (regs (w_demo w')), r')]
          /\ r_ret r = 0 /\ configurable (w_demo w')
          /\ res = if r_ret r' =? 0 then None
                   else Some "Failed set kpc config").

(** What [performance_counters_init] does, seen from its last step: the
    events before that step are no register write and no forcing; then
    either an earlier step returned, or the last step ran. *)
Definition init_outcome (res : option string) (w' : world)
    (l : list event) : Prop :=
  exists l1 l2,
    l = l1 ++ l2 /\ Forall setup l1
    /\ ((res <> None /\ l2 = []) \/ set_config_outcome res w' l2).

(** A run that got as far as looking up the events, which is after a
    successful [kpep_config_force_counters], returned [name]. *)
Definition lookup_outcome (name : string) (res : option string)
    (w' : world) (l : list event) : Prop :=
  (exists e, In e l /\ forced e) -> res = Some name.

(** *** Vocabulary of the trace decode *)

(** The four argument words of a record. *)
Definition args (buf : Demo2.kd_buf) : list Z :=
  [Demo2.arg1 buf; Demo2.arg2 buf; Demo2.arg3 buf; Demo2.arg4 buf].

(** A complete sample: thread id, timestamp and counter values. *)
Record sample : Type := Sample {
  s_tid : Z;
  s_timestamp : Z;
  s_counters : list Z
}.

Section DecodeVocabulary.

Variables KDBG_FUNC_MASK DBG_FUNC_START : Z.
Variable counter_count : Z.

(** Record [buf] begins a sample: it has the start flag and a thread id
    that is not 0. *)
Definition begins (buf : Demo2.kd_buf) : Prop :=
  Demo2.func KDBG_FUNC_MASK buf = DBG_FUNC_START /\ Demo2.tid_of buf <> 0.

(** Record [buf] continues a sample of thread [t]: same thread id, and
    not the start flag. *)
Definition continues (t : Z) (buf : Demo2.kd_buf) : Prop :=
  Demo2.tid_of buf = t /\ Demo2.func KDBG_FUNC_MASK buf <> DBG_FUNC_START.

(** The records [rest] stop a sample of thread [t]: the stream ends, or
    its next record has another thread id or the start flag. *)
Definition stops (t : Z) (rest : list Demo2.kd_buf) : Prop :=
  match rest with
  | [] => True
  | buf :: _ => ~ continues t buf
  end.

(** The complete samples of a stream, in stream order, as the code reads
    them. *)
Fixpoint samples (bufs : list Demo2.kd_buf) : list sample :=
  match bufs with
  | [] => []
  | buf :: rest =>
      if negb (Demo2.func KDBG_FUNC_MASK buf =? DBG_FUNC_START)
      then samples rest
      else if Demo2.tid_of buf =? 0 then samples rest
      else match Demo2.read_counter_log KDBG_FUNC_MASK DBG_FUNC_START
                   counter_count buf rest with
           | Ok (Some counters) =>
               Sample (Demo2.tid_of buf) (Demo2.timestamp buf) counters
               :: samples rest
           | _ => samples rest
           end
  end.

(** The complete samples of thread [t]. *)
Definition samples_of (t : Z) (bufs : list Demo2.kd_buf) : list sample :=
  List.filter (fun s => s_tid s =? t) (samples bufs).

(** What one more sample of thread [t] makes of the thread's element
    [e], which is [None] before the first sample. *)
Definition stored (t : Z) (e : option Demo2.kpc_thread_data) (s : sample)
    : option Demo2.kpc_thread_data :=
  Some (Demo2.store_sample counter_count (s_timestamp s) (s_counters s)
          (default (Demo2.new_thread_data t) e)).

End DecodeVocabulary.

(** The element of [thread_data] for thread [t], if there is one. *)
Definition thread_entry (t : Z) (tbl : Demo2.table)
    : option Demo2.kpc_thread_data :=
  match Demo2.find_thread t (Demo2.thread_data tbl) with
  | Some i => Demo2.thread_data tbl !! i
  | None => None
  end.

(** *** Vocabulary of the further properties *)

(** The calls of [lib_deinit]: it closes the handles that are not null,
    [kperf]'s first. *)
Definition closes (h1 h2 : Z) : list call :=
  (if h1 =? NULL then [] else [dlclose h1])
  ++ (if h2 =? NULL then [] else [dlclose h2]).

(** The message [lib_init] leaves for a symbol it could not find. *)
Definition symbol_message (what name : string) : string :=
  snprintf 256 ("Failed to load " +:+ what +:+ " function: " +:+ name +:+ ".").


(** The step of [performance_counters_init] a call belongs to, numbered
    in the order of the source: 0 for the loader's calls, then one number
    for each framework function the initialisation calls.  Forcing the
    counters counts with the argument 1 only, which is what the
    initialisation passes; the calls that start, stop or read the counters
    and [sysctl] belong to no step. *)
Definition phase (c : call) : option nat :=
  match c with
  | dlopen _ | dlerror | dlclose _ | dlsym _ _ => Some 0%nat
  | kpc_force_all_ctrs_get => Some 1%nat
  | kpep_db_create => Some 2%nat
  | kpep_config_create _ => Some 3%nat
  | kpep_config_force_counters _ => Some 4%nat
  | kpep_db_event _ _ => Some 5%nat
  | kpep_config_add_event _ _ _ => Some 6%nat
  | kpep_config_kpc_classes _ => Some 7%nat
  | kpep_config_kpc_count _ => Some 8%nat
  | kpep_config_kpc_map _ _ => Some 9%nat
  | kpep_config_kpc _ _ => Some 10%nat
  | kpc_force_all_ctrs_set v => if v =? 1 then Some 11%nat else None
  | kpc_set_config _ _ => Some 12%nat
  | kpc_set_counting _ | kpc_set_thread_counting _
  | kpc_get_thread_counters _ _ | sysctl_KERN_KDREADTR _ _ => None
  end.

(** The steps that make more than one call: the loader, the lookups of
    the events and the loop that adds them to the configuration. *)
Definition repeated (p : nat) : bool :=
  ((p =? 0) || (p =? 5) || (p =? 6))%nat.

(** The events [l] go through the steps in order, after step [from]: each
    belongs to a step, no step comes before an earlier one, and only a
    [repeated] step has more than one call. *)
Fixpoint in_order (from : nat) (l : list event) : bool :=
  match l with
  | [] => true
  | e :: rest =>
      match phase (fst e) with
      | Some p =>
          ((from <? p) || ((from =? p) && repeated p))%nat && in_order p rest
      | None => false
      end
  end.

(** The events [l] belong to steps up to [b]. *)
Definition upto (b : nat) (l : list event) : bool :=
  forallb (fun e => match phase (fst e) with
                    | Some p => (p <=? b)%nat
                    | None => false
                    end) l.

Definition ordered (a b : nat) (l : list event) : Prop :=
  in_order a l = true /\ upto b l = true.


(** The loader's own calls. *)
Definition loader (c : call) : Prop := phase c = Some 0%nat.


(** ** Demo 2: the collection of the trace *)

Module Collect.

(** "debugid sub-classes and code from xnu source" *)
Definition PERF_KPC : Z := 6.
Definition PERF_KPC_DATA_THREAD : Z := 8.

Section Keep.

(** [KDBG_EXTRACT_CLASS], [KDBG_EXTRACT_SUBCLASS], [KDBG_EXTRACT_CODE] and
    [DBG_PERF] come from [<sys/kdebug.h>]. *)
Variables KDBG_EXTRACT_CLASS KDBG_EXTRACT_SUBCLASS KDBG_EXTRACT_CODE : Z -> Z.
Variable DBG_PERF : Z.

(** The three tests under "keep only thread PMC data": [false] where the
    code says [continue]. *)
Definition thread_pmc_data (buf : Demo2.kd_buf) : bool :=
  let debugid := Demo2.debugid buf in
  let cls := wrap32 (KDBG_EXTRACT_CLASS debugid) in
  let subcls := wrap32 (KDBG_EXTRACT_SUBCLASS debugid) in
  let code := wrap32 (KDBG_EXTRACT_CODE debugid) in
  if negb (cls =? DBG_PERF) then false
  else if negb (subcls =? PERF_KPC) then false
  else if negb (code =? PERF_KPC_DATA_THREAD) then false
  else true.

(** The loop
    [for (kd_buf *buf = buf_cur, *end = buf_cur + count; buf < end; buf++)]
    on the array [mem] at [buf_hdr]: [buf] and [buf_cur] are indices into
    it and [n] is [end - buf].  The result is the array and [buf_cur]
    after the loop; a read or a [memmove] outside the array is
    undefined. *)
Fixpoint keep_loop (n : nat) (buf : nat) (mem : list Demo2.kd_buf)
    (buf_cur : nat) : outcome (list Demo2.kd_buf * nat) :=
  match n with
  | O => Ok (mem, buf_cur)
  | S n =>
      match mem !! buf with
      | None => Undefined
      | Some b =>
          if thread_pmc_data b
          then if (buf_cur <? length mem)%nat
               then keep_loop n (S buf) (<[buf_cur := b]> mem) (S buf_cur)
               else Undefined
          else keep_loop n (S buf) mem buf_cur
      end
  end.

(** The loop after a read that stored [count] records at [buf_cur]. *)
Definition keep_thread_pmc_data (mem : list Demo2.kd_buf)
    (buf_cur count : nat) : outcome (list Demo2.kd_buf * nat) :=
  keep_loop count buf_cur mem buf_cur.

End Keep.

End Collect.


(** ** Demo 2: the report *)

Module Report.

Notation "'let?' x ':=' m 'in' k" := (Demo2.obind m (fun x => k))
  (at level 10, x pattern, m at level 100, k at level 200).

(** What the code prints for a thread: the arguments of its [printf]
    calls, which are the thread id, the ticks [timestamp_1 - timestamp_0]
    it converts to a time, and one value for each event of
    [profile_events]. *)
Record line : Type := Line {
  l_tid : Z;
  l_ticks : Z;
  l_values : list Z
}.

Section Print.

(** [counter_count] and [counter_map] of [main2]. *)
Variable counter_count : Z.
Variable counter_map : list Z.

(** [a[c] += v] on an array of [u64]; outside the array it is
    undefined. *)
Definition add_at (a : list Z) (c : nat) (v : Z) : outcome (list Z) :=
  match a !! c with
  | Some x => Ok (<[c := wrap64 (x + v)]> a)
  | None => Undefined
  end.

(** [counters_one[c] += data->counters_1[c] - data->counters_0[c]] for the
    indices [cs]. *)
Fixpoint delta_loop (cs : list nat) (data : Demo2.kpc_thread_data)
    (counters_one : list Z) : outcome (list Z) :=
  match cs with
  | [] => Ok counters_one
  | c :: rest =>
      match Demo2.counters_1 data !! c, Demo2.counters_0 data !! c with
      | Some c1, Some c0 =>
          let? counters_one := add_at counters_one c (sub64 c1 c0) in
          delta_loop rest data counters_one
      | _, _ => Undefined
      end
  end.

(** [counters_sum[c] += counters_one[c]] for the indices [cs]. *)
Fixpoint sum_loop (cs : list nat) (counters_one counters_sum : list Z)
    : outcome (list Z) :=
  match cs with
  | [] => Ok counters_sum
  | c :: rest =>
      match counters_one !! c with
      | Some v =>
          let? counters_sum := add_at counters_sum c v in
          sum_loop rest counters_one counters_sum
      | None => Undefined
      end
  end.

(** The values printed by a loop over the events:
    [counters[counter_map[i]]] for the events [i] listed. *)
Fixpoint event_values (events : list nat) (counters : list Z)
    : outcome (list Z) :=
  match events with
  | [] => Ok []
  | i :: rest =>
      match counter_map !! i with
      | None => Undefined
      | Some idx =>
          if idx <? 0 then Undefined
          else match counters !! Z.to_nat idx with
               | None => Undefined
               | Some val =>
                   let? vals := event_values rest counters in
                   Ok (val :: vals)
               end
      end
  end.

(** The indices of [for (usize c = 0; c < counter_count; c++)]. *)
Definition counter_indices : list nat := seq 0 (Z.to_nat counter_count).

(** The loop over [thread_data], from a given element on; the result is
    the lines printed and [counters_sum] afterwards. *)
Fixpoint report_loop (threads : list Demo2.kpc_thread_data)
    (counters_sum : list Z) : outcome (list line * list Z) :=
  match threads with
  | [] => Ok ([], counters_sum)
  | data :: rest =>
      if (Demo2.timestamp_0 data =? 0) || (Demo2.timestamp_1 data =? 0)
      then report_loop rest counters_sum
      else
        let? counters_one :=
          delta_loop counter_indices data (zeros KPC_MAX_COUNTERS) in
        let? values := event_values (seq 0 ev_count) counters_one in
        let? counters_sum :=
          sum_loop counter_indices counters_one counters_sum in
        match report_loop rest counters_sum with
        | Ok (lines, counters_sum) =>
            Ok (Line (Demo2.tid data)
                  (sub64 (Demo2.timestamp_1 data) (Demo2.timestamp_0 data))
                  values :: lines,
                counters_sum)
        | Undefined => Undefined
        end
  end.

(** From [u64 counters_sum[KPC_MAX_COUNTERS] = {0}] to the end: the lines
    of the threads, and the values printed under "all threads". *)
Definition report (tbl : Demo2.table) : outcome (list line * list Z) :=
  match report_loop (Demo2.thread_data tbl) (zeros KPC_MAX_COUNTERS) with
  | Ok (lines, counters_sum) =>
      let? totals := event_values (seq 0 ev_count) counters_sum in
      Ok (lines, totals)
  | Undefined => Undefined
  end.

End Print.

End Report.

(** *** Vocabulary of the report *)

Definition total (l : list Z) : Z := fold_right Z.add 0 l.

(** A thread with both snapshots, which is what the report prints. *)
Definition complete (d : Demo2.kpc_thread_data) : bool :=
  negb (Demo2.timestamp_0 d =? 0) && negb (Demo2.timestamp_1 d =? 0).

(** The count of counter [c] for a thread between its two snapshots; the
    counters from [counter_count] on are not read. *)
Definition delta_of (counter_count : Z) (d : Demo2.kpc_thread_data)
    (c : nat) : Z :=
  if Z.of_nat c <? counter_count
  then sub64 (default 0 (Demo2.counters_1 d !! c))
         (default 0 (Demo2.counters_0 d !! c))
  else 0.

(** The counter that event [i] is mapped to. *)
Definition mapped (counter_map : list Z) (i : nat) : nat :=
  Z.to_nat (default 0 (counter_map !! i)).

(** The values of event [i] in the lines printed. *)
Definition column (i : nat) (lines : list Report.line) : list Z :=
  map (fun l => default 0 (Report.l_values l !! i)) lines.


(** The two snapshots of a thread have the size they are declared with. *)
Definition snapshots_sized (d : Demo2.kpc_thread_data) : Prop :=
  length (Demo2.counters_0 d) = KPC_MAX_COUNTERS
  /\ length (Demo2.counters_1 d) = KPC_MAX_COUNTERS.

(** The line of a thread with both snapshots: its id, the ticks between
    its snapshots and, for each event, the count of the counter the event
    is mapped to. *)
Definition line_of (counter_count : Z) (counter_map : list Z)
    (d : Demo2.kpc_thread_data) : Report.line :=
  Report.Line (Demo2.tid d)
    (sub64 (Demo2.timestamp_1 d) (Demo2.timestamp_0 d))
    (map (fun i => delta_of counter_count d (mapped counter_map i))
       (seq 0 ev_count)).


(** The count of counter [c] between two samples of a thread. *)
Definition sample_delta (counter_count : Z) (first latest : sample)
    (c : nat) : Z :=
  if Z.of_nat c <? counter_count
  then sub64 (default 0 (s_counters latest !! c))
         (default 0 (s_counters first !! c))
  else 0.


(** Thread [t] is among [ts]. *)
Definition seen (ts : list Z) (t : Z) : bool := existsb (Z.eqb t) ts.

(** The thread ids [ts] in the order in which each is first met, after
    the ids [acc] that were met before. *)
Definition first_seen (acc ts : list Z) : list Z :=
  fold_left (fun acc t => if seen acc t then acc else acc ++ [t]) ts acc.


(** The calls whose return value [performance_counters_init] tests: its
    framework calls other than the lookups of the events, whose failure
    only moves on to the next candidate name. *)
Definition checked (c : call) : bool :=
  match c with
  | kpc_force_all_ctrs_get | kpep_db_create | kpep_config_create _
  | kpep_config_force_counters _ | kpep_config_add_event _ _ _
  | kpep_config_kpc_classes _ | kpep_config_kpc_count _
  | kpep_config_kpc_map _ _ | kpep_config_kpc _ _
  | kpc_force_all_ctrs_set _ | kpc_set_config _ _ => true
  | _ => false
  end.

(** A tested call that returned 0, or a call that is not tested. *)
Definition passed (e : event) : Prop :=
  checked (fst e) = true -> r_ret (snd e) = 0.

(** The events [l] of a run that returned [res]: every tested call
    returned 0, but for the last call of a run that returned an error. *)
Definition stops_at_failure (res : option string) (l : list event) : Prop :=
  Forall passed (match res with None => l | Some _ => removelast l end).

(** *** Vocabulary of the runs that get through *)

(** [lib_init] returns [true] from [w]. *)
Definition loads (env : oracle) (w : world) : Prop :=
  exists w1, lib_init env w = Ok (true, w1).

(** The calls of [performance_counters_init] before the lookups of the
    events. *)
Definition prepares (c : call) : bool :=
  match c with
  | kpc_force_all_ctrs_get | kpep_db_create | kpep_config_create _
  | kpep_config_force_counters _ => true
  | _ => false
  end.

(** Its calls after the lookups, up to the forcing of the counters. *)
Definition configures (c : call) : bool :=
  match c with
  | kpep_config_add_event _ _ _ | kpep_config_kpc_classes _
  | kpep_config_kpc_count _ | kpep_config_kpc_map _ _
  | kpep_config_kpc _ _ => true
  | kpc_force_all_ctrs_set v => v =? 1
  | _ => false
  end.

(** An outside world in which each call of [P] returns 0 whenever it is
    made. *)
Definition succeed (P : call -> bool) (env : oracle) : Prop :=
  forall log c, P c = true -> r_ret (env log c) = 0.

(** A [dlsym] that found its symbol. *)
Definition found (e : event) : Prop := r_ret (snd e) <> NULL.

(** * Properties *)

(** ** Running the monad *)

Lemma bind_run {A B} (m : M A) (k : A -> M B) w a w1 :
  m w = Ok (a, w1) -> bind m k w = k a w1.
Proof. intros H. unfold bind. now rewrite H. Qed.

Lemma bind_inv {A B} (m : M A) (k : A -> M B) w b w' :
  bind m k w = Ok (b, w') ->
  exists a w1, m w = Ok (a, w1) /\ k a w1 = Ok (b, w').
Proof.
  unfold bind. destruct (m w) as [[a w1]|]; [|discriminate].
  intros H. now exists a, w1.
Qed.

Lemma extern_run env c w :
  linked (w_lib w) c = true ->
  extern env c w = Ok (env (w_log w) c, record c (env (w_log w) c) w).
Proof. intros H. unfold extern. now rewrite H. Qed.

Lemma extern_inv env c w r w' :
  extern env c w = Ok (r, w') ->
  linked (w_lib w) c = true /\ r = env (w_log w) c /\ w' = record c r w.
Proof.
  unfold extern. destruct (linked (w_lib w) c); [|discriminate].
  intros [= <- <-]. auto.
Qed.

(** The equations a run is unfolded with, one per primitive. *)

Lemma bind_ret {A B} (a : A) (k : A -> M B) w : bind (ret a) k w = k a w.
Proof. reflexivity. Qed.

Lemma bind_get_lib {B} (k : lib_state -> M B) w :
  bind get_lib k w = k (w_lib w) w.
Proof. reflexivity. Qed.

Lemma bind_get_demo {B} (k : demo_state -> M B) w :
  bind get_demo k w = k (w_demo w) w.
Proof. reflexivity. Qed.

Lemma bind_modify_lib {B} f (k : unit -> M B) w :
  bind (modify_lib f) k w = k tt (World (f (w_lib w)) (w_demo w) (w_log w)).
Proof. reflexivity. Qed.

Lemma bind_modify_demo {B} f (k : unit -> M B) w :
  bind (modify_demo f) k w = k tt (World (w_lib w) (f (w_demo w)) (w_log w)).
Proof. reflexivity. Qed.

Lemma bind_extern {B} env c (k : reply -> M B) w :
  linked (w_lib w) c = true ->
  bind (extern env c) k w
  = k (env (w_log w) c) (record c (env (w_log w) c) w).
Proof. intros H. unfold bind. now rewrite extern_run. Qed.

Lemma bind_bind {A B C} (m : M A) (f : A -> M B) (g : B -> M C) w :
  bind (bind m f) g w = bind m (fun a => bind (f a) g) w.
Proof. unfold bind. now destruct (m w) as [[a w1]|]. Qed.

Lemma bind_undefined {A B} (k : A -> M B) w : bind undefined k w = Undefined.
Proof. reflexivity. Qed.

#[local] Arguments bind : simpl never.
#[local] Arguments extern : simpl never.

Create Rewrite HintDb run.
#[local] Hint Rewrite @bind_ret @bind_get_lib @bind_get_demo @bind_modify_lib
  @bind_modify_demo @bind_undefined : run.

(** Unfold the primitives at the head of a run. *)
Ltac run_pure :=
  repeat (autorewrite with run; cbn [w_lib w_demo w_log record]).

(** ** kdebug_trace_read *)

(** C10.  Called with a null buffer or a zero length, [kdebug_trace_read]
    returns -1 and leaves the world as it was, so no kernel read was made
    (the log would show it); and where [count] is not null, what it points
    to is 0 on return. *)
Theorem kdebug_trace_read_rejects env buf len count w :
  buf = NULL \/ len = 0 ->
  kdebug_trace_read env buf len count w
  = Ok ((-1, match count with Some _ => Some 0 | None => None end), w).
Proof.
  intros H. unfold kdebug_trace_read.
  assert ((buf =? NULL) || (len =? 0) = true) as ->; [|reflexivity].
  destruct H as [-> | ->]; [reflexivity|].
  now rewrite Z.eqb_refl, orb_true_r.
Qed.

Lemma kdebug_trace_read_rejects_witness :
  kdebug_trace_read (Fake.fake Fake.apple) NULL 64 (Some 7) world0
  = Ok ((-1, Some 0), world0)
  /\ kdebug_trace_read (Fake.fake Fake.apple) 4096 0 None world0
     = Ok ((-1, None), world0).
Proof.
  split.
  - apply (kdebug_trace_read_rejects _ NULL 64 (Some 7)). left. reflexivity.
  - apply (kdebug_trace_read_rejects _ 4096 0 None). right. reflexivity.
Defined.

(** With a buffer and a length the kernel is read, and the count is the
    length the kernel stored back. *)
Example kdebug_trace_read_reads :
  kdebug_trace_read (Fake.fake Fake.apple) 4096 64 (Some 7) world0
  = Ok ((0, Some 3),
        record (sysctl_KERN_KDREADTR 4096 64) (Reply 0 (Some 3) [] "") world0).
Proof. reflexivity. Qed.

(** ** lib_deinit and lib_init *)

Lemma fnptr_set_impl name p l n :
  fnptr (set_impl name p l) n = if String.eqb name n then p else fnptr l n.
Proof.
  unfold fnptr, set_impl. simpl.
  destruct (String.eqb_spec name n) as [->|Hne].
  - now rewrite lookup_insert_eq.
  - now rewrite lookup_insert_ne.
Qed.

Lemma clear_symbols_run symbols w :
  clear_symbols symbols w
  = Ok (tt, World (cleared symbols (w_lib w)) (w_demo w) (w_log w)).
Proof.
  revert w. induction symbols as [|name rest IH]; intros w.
  - now destruct w.
  - simpl. unfold bind, modify_lib. now rewrite IH.
Qed.

Lemma cleared_fields symbols l :
  lib_inited (cleared symbols l) = lib_inited l
  /\ lib_has_err (cleared symbols l) = lib_has_err l
  /\ lib_err_msg (cleared symbols l) = lib_err_msg l
  /\ lib_handle_kperf (cleared symbols l) = lib_handle_kperf l
  /\ lib_handle_kperfdata (cleared symbols l) = lib_handle_kperfdata l.
Proof.
  revert l. induction symbols as [|name rest IH]; intros l; [easy|].
  simpl. destruct (IH (set_impl name NULL l)) as (-> & -> & -> & -> & ->).
  easy.
Qed.

Lemma fnptr_cleared symbols l n :
  fnptr (cleared symbols l) n = NULL
  \/ (~ In n symbols /\ fnptr (cleared symbols l) n = fnptr l n).
Proof.
  revert l. induction symbols as [|name rest IH]; intros l; [right; easy|].
  simpl. destruct (IH (set_impl name NULL l)) as [H | [Hn H]]; [now left|].
  rewrite H, fnptr_set_impl.
  destruct (String.eqb_spec name n) as [->|Hne]; [now left|].
  right. split; [|reflexivity]. now intros [?|?].
Qed.

Lemma fnptr_cleared_in symbols l n :
  In n symbols -> fnptr (cleared symbols l) n = NULL.
Proof. intros Hin. destruct (fnptr_cleared symbols l n) as [?|[? ?]]; easy. Qed.

Lemma fnptr_cleared_null symbols l n :
  fnptr l n = NULL -> fnptr (cleared symbols l) n = NULL.
Proof.
  intros H. destruct (fnptr_cleared symbols l n) as [?|[? ?]]; congruence.
Qed.

#[local] Arguments clear_symbols : simpl never.

Lemma deinit_state_fields l :
  lib_inited (deinit_state l) = false
  /\ lib_has_err (deinit_state l) = false
  /\ lib_err_msg (deinit_state l) = lib_err_msg l
  /\ torn_down (deinit_state l).
Proof.
  unfold deinit_state.
  set (l0 := set_lib_handle_kperfdata _ _).
  destruct (cleared_fields lib_symbols_kperfdata (cleared lib_symbols_kperf l0))
    as (E1 & E2 & E3 & E4 & E5).
  destruct (cleared_fields lib_symbols_kperf l0) as (F1 & F2 & F3 & F4 & F5).
  unfold torn_down. rewrite E1, E2, E3, E4, E5, F1, F2, F3, F4, F5.
  repeat (split; [reflexivity|]).
  apply List.Forall_forall. intros n Hn. apply in_app_or in Hn.
  destruct Hn as [Hn|Hn].
  - apply fnptr_cleared_null, fnptr_cleared_in, Hn.
  - apply fnptr_cleared_in, Hn.
Qed.

Lemma lib_deinit_run env w :
  exists l, lib_deinit env w
            = Ok (tt, World (deinit_state (w_lib w)) (w_demo w) (w_log w ++ l))
            /\ Forall direct l.
Proof.
  unfold lib_deinit. run_pure.
  cbn [lib_handle_kperf lib_handle_kperfdata set_lib_has_err set_lib_inited].
  destruct (negb (lib_handle_kperf (w_lib w) =? NULL)),
           (negb (lib_handle_kperfdata (w_lib w) =? NULL));
    repeat first [ rewrite bind_bind
                 | rewrite bind_extern by reflexivity
                 | progress run_pure ];
    rewrite (bind_run _ _ _ _ _ (clear_symbols_run _ _));
    rewrite clear_symbols_run; cbn [w_lib w_demo w_log];
    rewrite <- ?app_assoc.
  - eexists. split; [reflexivity|]. repeat constructor.
  - eexists. split; [reflexivity|]. repeat constructor.
  - eexists. split; [reflexivity|]. repeat constructor.
  - exists []. rewrite app_nil_r. split; [reflexivity|]. constructor.
Qed.

Lemma return_err_run env w :
  exists w', return_err env w = Ok (false, w')
    /\ failed (w_lib w')
    /\ lib_err_msg (w_lib w') = lib_err_msg (w_lib w)
    /\ w_demo w' = w_demo w
    /\ exists l, w_log w' = w_log w ++ l /\ Forall direct l.
Proof.
  unfold return_err. destruct (lib_deinit_run env w) as (l & H & Hl).
  rewrite (bind_run _ _ _ _ _ H). clear H.
  destruct (deinit_state_fields (w_lib w)) as (_ & _ & E & T).
  revert E T. generalize (deinit_state (w_lib w)). intros D E T.
  run_pure. unfold ret.
  eexists. split; [reflexivity|]. cbn [w_lib w_demo w_log].
  split; [|split; [exact E|split; [reflexivity|eauto]]].
  split; [reflexivity|]. split; [reflexivity|]. exact T.
Qed.

#[local] Arguments lib_deinit : simpl never.
#[local] Arguments return_err : simpl never.
#[local] Arguments snprintf : simpl never.

Lemma load_symbols_run env handle what symbols w :
  exists b w', load_symbols env handle what symbols w = Ok (b, w')
    /\ w_demo w' = w_demo w
    /\ (b = false -> failed (w_lib w'))
    /\ (b = true ->
          lib_inited (w_lib w') = lib_inited (w_lib w)
          /\ lib_has_err (w_lib w') = lib_has_err (w_lib w)
          /\ lib_handle_kperf (w_lib w') = lib_handle_kperf (w_lib w)
          /\ lib_handle_kperfdata (w_lib w') = lib_handle_kperfdata (w_lib w)
          /\ (forall n, fnptr (w_lib w) n <> NULL -> fnptr (w_lib w') n <> NULL)
          /\ Forall (fun n => fnptr (w_lib w') n <> NULL) symbols)
    /\ exists l, w_log w' = w_log w ++ l /\ Forall direct l.
Proof.
  revert w. induction symbols as [|name rest IH]; intros w.
  - exists true, w. cbn [load_symbols]. unfold ret.
    split; [reflexivity|]. split; [reflexivity|]. split; [discriminate|].
    split; [intros _; repeat split; auto|].
    exists []. now rewrite app_nil_r.
  - cbn [load_symbols]. rewrite bind_get_lib.
    rewrite bind_extern by reflexivity. run_pure.
    set (r := env (w_log w) (dlsym (handle (w_lib w)) name)).
    destruct (r_ret r =? NULL) eqn:Hr.
    + run_pure.
      match goal with |- context [return_err env ?w0] =>
        destruct (return_err_run env w0)
          as (w' & -> & Hf & _ & Hd & l & Hl & Hdir) end.
      exists false, w'. split; [reflexivity|]. split; [exact Hd|].
      split; [intros _; exact Hf|]. split; [discriminate|].
      cbn [w_log] in Hl. rewrite <- app_assoc in Hl.
      eexists. split; [exact Hl|]. constructor; [reflexivity|exact Hdir].
    + match goal with |- context [load_symbols env handle what rest ?w0] =>
        destruct (IH w0) as (b & w' & -> & Hd & Hf & Ht & l & Hl & Hdir) end.
      apply Z.eqb_neq in Hr.
      exists b, w'. split; [reflexivity|]. split; [exact Hd|].
      split; [exact Hf|]. split.
      * intros ->.
        destruct (Ht eq_refl) as (E1 & E2 & E3 & E4 & Hkeep & Hall).
        cbn [w_lib] in *.
        split; [exact E1|]. split; [exact E2|]. split; [exact E3|].
        split; [exact E4|]. split.
        -- intros n Hn. apply Hkeep. rewrite fnptr_set_impl.
           now destruct (String.eqb name n).
        -- constructor; [|exact Hall]. apply Hkeep.
           now rewrite fnptr_set_impl, String.eqb_refl.
      * cbn [w_log] in Hl. rewrite <- app_assoc in Hl.
        eexists. split; [exact Hl|]. constructor; [reflexivity|exact Hdir].
Qed.

#[local] Arguments load_symbols : simpl never.

Lemma lib_init_cached env w :
  lib_inited (w_lib w) = true ->
  lib_init env w = Ok (negb (lib_has_err (w_lib w)), w).
Proof. intros H. unfold lib_init. rewrite bind_get_lib, H. reflexivity. Qed.

Lemma lib_init_run env w :
  lib_inited (w_lib w) = false ->
  exists b w', lib_init env w = Ok (b, w')
    /\ w_demo w' = w_demo w
    /\ lib_inited (w_lib w') = true
    /\ lib_has_err (w_lib w') = negb b
    /\ (b = false -> torn_down (w_lib w'))
    /\ (b = true -> bound (w_lib w'))
    /\ exists l, w_log w' = w_log w ++ l /\ Forall direct l.
Proof.
  intros Hfresh.
  assert (Hfail : forall l0 l,
            Forall direct l ->
            exists b w',
              return_err env (World l0 (w_demo w) (w_log w ++ l)) = Ok (b, w')
              /\ w_demo w' = w_demo w
              /\ lib_inited (w_lib w') = true
              /\ lib_has_err (w_lib w') = negb b
              /\ (b = false -> torn_down (w_lib w'))
              /\ (b = true -> bound (w_lib w'))
              /\ exists l, w_log w' = w_log w ++ l /\ Forall direct l).
  { intros l0 l Hdir.
    destruct (return_err_run env (World l0 (w_demo w) (w_log w ++ l)))
      as (w' & -> & (I & E & T) & _ & D & l' & Hl' & Hdir').
    exists false, w'. split; [reflexivity|]. split; [exact D|].
    split; [exact I|]. split; [exact E|]. split; [intros _; exact T|].
    split; [discriminate|]. cbn [w_log] in Hl'. rewrite <- app_assoc in Hl'.
    eexists. split; [exact Hl'|]. now apply Forall_app. }
  unfold lib_init. rewrite bind_get_lib, Hfresh.
  rewrite bind_extern by reflexivity. run_pure.
  set (r1 := env (w_log w) (dlopen lib_path_kperf)).
  destruct (r_ret r1 =? NULL).
  { rewrite bind_extern by reflexivity. run_pure. rewrite <- app_assoc.
    apply Hfail. repeat constructor. }
  rewrite bind_extern by reflexivity. run_pure.
  set (r2 := env _ (dlopen lib_path_kperfdata)).
  destruct (r_ret r2 =? NULL).
  { rewrite bind_extern by reflexivity. run_pure. rewrite <- !app_assoc.
    apply Hfail. repeat constructor. }
  match goal with |- context [bind (load_symbols env ?h ?s ?l) ?k ?w0] =>
    destruct (load_symbols_run env h s l w0)
      as (b1 & w1 & H1 & D1 & F1 & T1 & l1 & Hl1 & Hdir1);
    rewrite (bind_run _ k w0 _ _ H1); clear H1 end.
  cbn [w_demo w_log] in D1, Hl1. rewrite <- !app_assoc in Hl1.
  destruct b1; cbn [negb].
  2:{ exists false, w1. destruct (F1 eq_refl) as (I & E & T).
      split; [reflexivity|]. split; [exact D1|]. split; [exact I|].
      split; [exact E|]. split; [intros _; exact T|]. split; [discriminate|].
      eexists. split; [exact Hl1|]. repeat constructor. exact Hdir1. }
  destruct (T1 eq_refl) as (_ & _ & _ & _ & _ & B1). clear F1 T1.
  match goal with |- context [bind (load_symbols env ?h ?s ?l) ?k ?w0] =>
    destruct (load_symbols_run env h s l w0)
      as (b2 & w2 & H2 & D2 & F2 & T2 & l2 & Hl2 & Hdir2);
    rewrite (bind_run _ k w0 _ _ H2); clear H2 end.
  rewrite Hl1, <- app_assoc in Hl2.
  assert (Hdir : Forall direct
            ([(dlopen lib_path_kperf, r1)]
             ++ [(dlopen lib_path_kperfdata, r2)] ++ l1 ++ l2)).
  { repeat constructor; apply Forall_app; auto. }
  destruct b2; cbn [negb].
  2:{ exists false, w2. destruct (F2 eq_refl) as (I & E & T).
      split; [reflexivity|]. split; [congruence|]. split; [exact I|].
      split; [exact E|]. split; [intros _; exact T|]. split; [discriminate|].
      eexists. split; [exact Hl2|]. exact Hdir. }
  destruct (T2 eq_refl) as (_ & _ & _ & _ & K2 & B2). clear F2 T2.
  run_pure. unfold ret.
  eexists true, _. split; [reflexivity|]. cbn [w_lib w_demo w_log].
  split; [congruence|]. split; [reflexivity|]. split; [reflexivity|].
  split; [discriminate|]. split.
  - intros _. unfold bound, lib_symbols. apply Forall_app. split.
    + eapply Forall_impl; [exact B1|]. intros n Hn. apply (K2 n Hn).
    + exact B2.
  - eexists. split; [exact Hl2|]. exact Hdir.
Qed.

(** C4, as the code has it.  A call that finds [lib_inited] set returns
    the recorded result and touches nothing: no library is loaded again.  A
    call that finds it clear ends with the result recorded; after a
    successful one every function pointer is set; after a failed one both
    handles and all function pointers are null, and every later call, in
    whatever state the outside world then is, returns [false] again without
    a single call to the loader. *)
Theorem lib_init_records_its_result env w :
  (lib_inited (w_lib w) = true ->
   lib_init env w = Ok (negb (lib_has_err (w_lib w)), w))
  /\ (lib_inited (w_lib w) = false ->
      exists b w', lib_init env w = Ok (b, w')
        /\ (b = true ->
            bound (w_lib w')
            /\ forall env', lib_init env' w' = Ok (true, w'))
        /\ (b = false ->
            torn_down (w_lib w')
            /\ forall env', lib_init env' w' = Ok (false, w'))).
Proof.
  split; [apply lib_init_cached|].
  intros Hfresh.
  destruct (lib_init_run env w Hfresh)
    as (b & w' & H & _ & I & E & T & B & _).
  exists b, w'. split; [exact H|].
  split; intros ->; (split; [auto|]); intros env';
    rewrite (lib_init_cached env' w' I), E; reflexivity.
Qed.

Lemma lib_init_records_its_result_witness :
  exists b w', lib_init (Fake.fake Fake.flaky) world0 = Ok (b, w')
    /\ (b = true ->
        bound (w_lib w')
        /\ forall env', lib_init env' w' = Ok (true, w'))
    /\ (b = false ->
        torn_down (w_lib w')
        /\ forall env', lib_init env' w' = Ok (false, w')).
Proof.
  apply (lib_init_records_its_result (Fake.fake Fake.flaky) world0).
  reflexivity.
Defined.

(** C4, counterexample.  The first [dlopen] fails, and would succeed from
    then on.  The second call of [lib_init] still returns [false] and makes
    no call at all: nothing is retried.  Started from cleared variables at
    that point, the load succeeds. *)
Lemma lib_init_failure_is_not_retried :
  Fake.value_of (lib_init (Fake.fake Fake.flaky) world0) = Some false
  /\ Fake.value_of
       (lib_init (Fake.fake Fake.flaky)
          (Fake.world_of (lib_init (Fake.fake Fake.flaky) world0)))
     = Some false
  /\ calls_since
       (Fake.world_of (lib_init (Fake.fake Fake.flaky) world0))
       (Fake.world_of
          (lib_init (Fake.fake Fake.flaky)
             (Fake.world_of (lib_init (Fake.fake Fake.flaky) world0))))
     = []
  /\ Fake.value_of
       (lib_init (Fake.fake Fake.flaky)
          (World lib_state0 demo_state0
             (w_log (Fake.world_of (lib_init (Fake.fake Fake.flaky) world0)))))
     = Some true.
Proof. repeat split; vm_compute; reflexivity. Qed.

(** ** Demo 1 *)

Lemma bound_linked l c : bound l -> linked l c = true.
Proof.
  intros Hb. unfold linked.
  destruct (call_symbol c) as [name|] eqn:Hc; [|reflexivity].
  assert (In name lib_symbols) as Hin.
  { apply list_elem_of_In.
    destruct c; simpl in Hc; try discriminate; injection Hc as <-;
      apply (bool_decide_unpack _); vm_compute; exact I. }
  unfold bound in Hb. rewrite List.Forall_forall in Hb.
  apply Hb in Hin. apply negb_true_iff. now apply Z.eqb_neq.
Qed.

Lemma extern_bound env c w :
  bound (w_lib w) ->
  extern env c w = Ok (env (w_log w) c, record c (env (w_log w) c) w).
Proof. intros Hb. apply extern_run, bound_linked, Hb. Qed.

(** A framework call, once the library is bound. *)
Lemma bind_extern_bound {B} env c (k : reply -> M B) w :
  bound (w_lib w) ->
  bind (extern env c) k w
  = k (env (w_log w) c) (record c (env (w_log w) c) w).
Proof. intros Hb. apply bind_extern, bound_linked, Hb. Qed.

(** Unfold a run whose calls all go through bound pointers. *)
Ltac run :=
  repeat (run_pure;
          try (rewrite bind_extern_bound by (cbn [w_lib]; assumption))).

(** The whole of [performance_counters_start], call by call. *)
Lemma start_run env w :
  bound (w_lib w) ->
  let cls := classes (w_demo w) in
  let r1 := env (w_log w) (kpc_set_counting cls) in
  let w1 := record (kpc_set_counting cls) r1 w in
  let r2 := env (w_log w1) (kpc_set_thread_counting cls) in
  let w2 := record (kpc_set_thread_counting cls) r2 w1 in
  let r3 := env (w_log w2) read_counters in
  let w3 := World (w_lib w)
              (set_counters_0 (blit (r_words r3) (counters_0 (w_demo w)))
                 (w_demo w))
              (w_log w2 ++ [(read_counters, r3)]) in
  performance_counters_start env w
  = if negb (r_ret r1 =? 0) then Ok (Some "Failed set counting", w1)
    else if negb (r_ret r2 =? 0)
         then Ok (Some "Failed set thread counting", w2)
         else if negb (r_ret r3 =? 0)
              then Ok (Some "Failed get thread counters before", w3)
              else Ok (None, w3).
Proof.
  intros Hb. cbv zeta. unfold performance_counters_start.
  change (kpc_get_thread_counters 0 (Z.of_nat KPC_MAX_COUNTERS))
    with read_counters.
  run. destruct (negb (r_ret _ =? 0)); [reflexivity|].
  run. destruct (negb (r_ret _ =? 0)); [reflexivity|].
  run. destruct (negb (r_ret _ =? 0)); reflexivity.
Qed.

Lemma boundb_bound l : boundb l = true -> bound l.
Proof.
  unfold boundb, bound. rewrite forallb_forall, List.Forall_forall.
  intros H n Hn. apply H in Hn. apply negb_true_iff in Hn.
  now apply Z.eqb_neq.
Qed.

(** C5.  [performance_counters_start] first enables counting for the class
    mask [classes] globally, then for the thread, and reads the "before"
    counters third, only when both enabling calls returned 0: its calls are
    one of the three sequences below, and a read occurs in the last only. *)
Theorem start_reads_after_both_enables env w :
  bound (w_lib w) ->
  exists res w', performance_counters_start env w = Ok (res, w')
    /\ ((exists r1,
           w_log w' = w_log w ++ [(kpc_set_counting (classes (w_demo w)), r1)]
           /\ r_ret r1 <> 0 /\ res = Some "Failed set counting")
        \/ (exists r1 r2,
           w_log w' = w_log w
                      ++ [(kpc_set_counting (classes (w_demo w)), r1);
                          (kpc_set_thread_counting (classes (w_demo w)), r2)]
           /\ r_ret r1 = 0 /\ r_ret r2 <> 0
           /\ res = Some "Failed set thread counting")
        \/ (exists r1 r2 r3,
           w_log w' = w_log w
                      ++ [(kpc_set_counting (classes (w_demo w)), r1);
                          (kpc_set_thread_counting (classes (w_demo w)), r2);
                          (read_counters, r3)]
           /\ r_ret r1 = 0 /\ r_ret r2 = 0
           /\ counters_0 (w_demo w')
              = blit (r_words r3) (counters_0 (w_demo w))
           /\ res = if r_ret r3 =? 0 then None
                    else Some "Failed get thread counters before")).
Proof.
  intros Hb. rewrite (start_run env w Hb).
  set (cls := classes (w_demo w)).
  set (r1 := env (w_log w) (kpc_set_counting cls)).
  destruct (Z.eqb_spec (r_ret r1) 0) as [H1|H1]; simpl.
  2:{ eexists _, _. split; [reflexivity|]. left. now exists r1. }
  set (r2 := env _ (kpc_set_thread_counting cls)).
  destruct (Z.eqb_spec (r_ret r2) 0) as [H2|H2]; simpl.
  2:{ eexists _, _. split; [reflexivity|]. right. left. exists r1, r2.
      simpl. rewrite <- app_assoc. auto. }
  set (r3 := env _ read_counters).
  exists (if r_ret r3 =? 0 then None
          else Some "Failed get thread counters before").
  eexists. split; [destruct (r_ret r3 =? 0); reflexivity|].
  right. right. exists r1, r2, r3. simpl. rewrite <- !app_assoc. auto.
Qed.

Lemma start_reads_after_both_enables_witness :
  exists res w',
    performance_counters_start (Fake.fake Fake.apple)
      (Fake.configured Fake.apple) = Ok (res, w')
    /\ ((exists r1,
           w_log w' = w_log (Fake.configured Fake.apple)
                      ++ [(kpc_set_counting 3, r1)]
           /\ r_ret r1 <> 0 /\ res = Some "Failed set counting")
        \/ (exists r1 r2,
           w_log w' = w_log (Fake.configured Fake.apple)
                      ++ [(kpc_set_counting 3, r1);
                          (kpc_set_thread_counting 3, r2)]
           /\ r_ret r1 = 0 /\ r_ret r2 <> 0
           /\ res = Some "Failed set thread counting")
        \/ (exists r1 r2 r3,
           w_log w' = w_log (Fake.configured Fake.apple)
                      ++ [(kpc_set_counting 3, r1);
                          (kpc_set_thread_counting 3, r2);
                          (read_counters, r3)]
           /\ r_ret r1 = 0 /\ r_ret r2 = 0
           /\ counters_0 (w_demo w')
              = blit (r_words r3)
                  (counters_0 (w_demo (Fake.configured Fake.apple)))
           /\ res = if r_ret r3 =? 0 then None
                    else Some "Failed get thread counters before")).
Proof.
  apply (start_reads_after_both_enables (Fake.fake Fake.apple)
           (Fake.configured Fake.apple)).
  apply boundb_bound. vm_compute. reflexivity.
Defined.

(** On the Apple-like machine the run is the third sequence, and the
    "before" counters are what the kernel gave. *)
Example start_on_apple :
  Fake.value_of (performance_counters_start (Fake.fake Fake.apple)
                   (Fake.configured Fake.apple)) = Some None
  /\ map fst (calls_since (Fake.configured Fake.apple)
                (Fake.counting Fake.apple))
     = [kpc_set_counting 3; kpc_set_thread_counting 3; read_counters]
  /\ take 4 (counters_0 (w_demo (Fake.counting Fake.apple)))
     = [10; 20; 30; 40].
Proof. vm_compute. auto. Qed.


Lemma array_get_run a i v w :
  0 <= i -> a !! Z.to_nat i = Some v -> array_get a i w = Ok (v, w).
Proof.
  intros Hi Hv. unfold array_get.
  destruct (Z.ltb_spec i 0); [lia|]. now rewrite Hv.
Qed.

Lemma array_set_run a i v w :
  (i < length a)%nat -> array_set a i v w = Ok (<[i := v]> a, w).
Proof.
  intros Hi. unfold array_set.
  destruct (Nat.ltb_spec i (length a)); [reflexivity|lia].
Qed.

Lemma delta_at_Some d i v :
  delta_at d i = Some v ->
  exists idx c1 c0,
    counter_map d !! i = Some idx /\ 0 <= idx
    /\ counters_1 d !! Z.to_nat idx = Some c1
    /\ counters_0 d !! Z.to_nat idx = Some c0
    /\ v = sub64 c1 c0.
Proof.
  unfold delta_at.
  destruct (counter_map d !! i) as [idx|] eqn:Hm; [|discriminate].
  destruct (Z.ltb_spec idx 0); [discriminate|].
  destruct (counters_1 d !! Z.to_nat idx) as [c1|] eqn:H1; [|discriminate].
  destruct (counters_0 d !! Z.to_nat idx) as [c0|] eqn:H0; [|discriminate].
  intros [= <-]. exists idx, c1, c0. repeat split; auto.
Qed.

Lemma length_write_deltas d indices values :
  length (write_deltas d indices values) = length values.
Proof.
  revert values. induction indices as [|i rest IH]; intros values; [easy|].
  change (write_deltas d (i :: rest) values)
    with (write_deltas d rest (<[i := default 0 (delta_at d i)]> values)).
  now rewrite IH, length_insert.
Qed.

Lemma compute_values_run indices values w :
  Forall (fun i => (i < length values)%nat
                   /\ is_Some (delta_at (w_demo w) i)) indices ->
  compute_values indices values w
  = Ok (write_deltas (w_demo w) indices values, w).
Proof.
  revert values. induction indices as [|i rest IH]; intros values Hall.
  - reflexivity.
  - inversion Hall as [|? ? [Hi [v Hv]] Hrest]; subst.
    destruct (delta_at_Some _ _ _ Hv)
      as (idx & c1 & c0 & Hm & H0 & H1 & H2 & ->).
    cbn [compute_values]. rewrite bind_get_demo.
    assert (Hm' : counter_map (w_demo w) !! Z.to_nat (Z.of_nat i) = Some idx)
      by now rewrite Nat2Z.id.
    rewrite (bind_run _ _ _ _ _ (array_get_run _ (Z.of_nat i) idx w
               (Nat2Z.is_nonneg i) Hm')).
    rewrite (bind_run _ _ _ _ _ (array_get_run _ idx c1 w H0 H1)).
    rewrite (bind_run _ _ _ _ _ (array_get_run _ idx c0 w H0 H2)).
    rewrite (bind_run _ _ _ _ _ (array_set_run values i _ w Hi)).
    rewrite IH.
    + unfold write_deltas. cbn [fold_left]. now rewrite Hv.
    + eapply Forall_impl; [exact Hrest|]. cbv beta. intros j [Hj Hd].
      split; [now rewrite length_insert|exact Hd].
Qed.

(** The whole of [performance_counters_stop], call by call. *)
Lemma stop_run env w values :
  bound (w_lib w) ->
  let r := env (w_log w) read_counters in
  let w1 := World (w_lib w)
              (set_counters_1 (blit (r_words r) (counters_1 (w_demo w)))
                 (w_demo w))
              (w_log w ++ [(read_counters, r)]) in
  let r1 := env (w_log w1) (kpc_set_counting 0) in
  let w2 := record (kpc_set_counting 0) r1 w1 in
  let r2 := env (w_log w2) (kpc_set_thread_counting 0) in
  let w3 := record (kpc_set_thread_counting 0) r2 w2 in
  let r3 := env (w_log w3) (kpc_force_all_ctrs_set 0) in
  let w4 := record (kpc_force_all_ctrs_set 0) r3 w3 in
  performance_counters_stop env values w
  = if negb (r_ret r =? 0)
    then Ok ((Some "Failed get thread counters after", values), w1)
    else match compute_values (seq 0 4) values w4 with
         | Ok (values', w5) => Ok ((None, values'), w5)
         | Undefined => Undefined
         end.
Proof.
  intros Hb. cbv zeta. unfold performance_counters_stop.
  change (kpc_get_thread_counters 0 (Z.of_nat KPC_MAX_COUNTERS))
    with read_counters.
  run. destruct (negb (r_ret _ =? 0)); [reflexivity|].
  run. unfold bind, ret. reflexivity.
Qed.


Lemma length_blit ws buf : length (blit ws buf) = length buf.
Proof.
  unfold blit. rewrite length_app, length_take, length_drop, length_map. lia.
Qed.

Lemma in_bounds_map d values i :
  in_bounds d values -> (i < 4)%nat ->
  exists idx, counter_map d !! i = Some idx
              /\ 0 <= idx /\ (Z.to_nat idx < KPC_MAX_COUNTERS)%nat.
Proof.
  intros ((_ & Hm & _) & _ & Hall) Hi.
  destruct (lookup_lt_is_Some_2 (counter_map d) i) as [idx Hidx].
  { rewrite Hm. unfold KPC_MAX_COUNTERS. lia. }
  exists idx. split; [exact Hidx|].
  rewrite Forall_lookup in Hall.
  specialize (Hall i idx). rewrite lookup_take_lt in Hall by exact Hi.
  specialize (Hall Hidx). lia.
Qed.

Lemma in_bounds_delta d values ws i :
  in_bounds d values -> (i < 4)%nat ->
  exists idx a b,
    counter_map d !! i = Some idx
    /\ blit ws (counters_1 d) !! Z.to_nat idx = Some a
    /\ counters_0 d !! Z.to_nat idx = Some b
    /\ delta_at (set_counters_1 (blit ws (counters_1 d)) d) i
       = Some (sub64 a b).
Proof.
  intros Hin Hi.
  destruct (in_bounds_map d values i Hin Hi) as (idx & Hidx & H0 & Hlt).
  destruct Hin as ((_ & _ & H0len & H1len & _) & _ & _).
  destruct (lookup_lt_is_Some_2 (blit ws (counters_1 d)) (Z.to_nat idx))
    as [a Ha]; [rewrite length_blit; lia|].
  destruct (lookup_lt_is_Some_2 (counters_0 d) (Z.to_nat idx))
    as [b Hb]; [lia|].
  exists idx, a, b. repeat split; auto.
  unfold delta_at. simpl. rewrite Hidx.
  destruct (Z.ltb_spec idx 0); [lia|]. now rewrite Ha, Hb.
Qed.

(** [performance_counters_stop] after a read that succeeded. *)
Lemma stop_run_good env w values :
  bound (w_lib w) -> in_bounds (w_demo w) values ->
  r_ret (env (w_log w) read_counters) = 0 ->
  let r := env (w_log w) read_counters in
  let after := set_counters_1 (blit (r_words r) (counters_1 (w_demo w)))
                 (w_demo w) in
  exists r1 r2 r3,
    performance_counters_stop env values w
    = Ok ((None, write_deltas after (seq 0 4) values),
          World (w_lib w) after
            (w_log w ++ [(read_counters, r); (kpc_set_counting 0, r1);
                         (kpc_set_thread_counting 0, r2);
                         (kpc_force_all_ctrs_set 0, r3)])).
Proof.
  intros Hb Hin Hr. cbv zeta. rewrite (stop_run env w values Hb).
  rewrite Hr. simpl negb. cbv iota.
  rewrite compute_values_run.
  - eexists _, _, _. unfold record. simpl. rewrite <- !app_assoc. reflexivity.
  - simpl w_demo. apply List.Forall_forall. intros i Hi.
    apply in_seq in Hi.
    destruct (in_bounds_delta _ values
                (r_words (env (w_log w) read_counters)) i Hin)
      as (idx & a & b & _ & _ & _ & ->); [lia|].
    destruct Hin as (_ & Hlen & _). split; [lia|eauto].
Qed.

(** C1, as the code has it.  When the read of the "after" counters fails,
    [performance_counters_stop] returns that error at once: the read is the
    only call it makes, nothing is switched off or released, and [values]
    is untouched.  When the read succeeds, the three calls that switch off
    and release are made, and whatever they return the result is success
    (the null string). *)
Theorem stop_tears_down_after_a_good_read env w values :
  bound (w_lib w) -> in_bounds (w_demo w) values ->
  exists res w', performance_counters_stop env values w = Ok (res, w')
    /\ ((r_ret (env (w_log w) read_counters) <> 0
         /\ res = (Some "Failed get thread counters after", values)
         /\ w_log w'
            = w_log w ++ [(read_counters, env (w_log w) read_counters)])
        \/ (r_ret (env (w_log w) read_counters) = 0
            /\ fst res = None
            /\ exists r1 r2 r3,
                 w_log w'
                 = w_log w ++ [(read_counters, env (w_log w) read_counters);
                               (kpc_set_counting 0, r1);
                               (kpc_set_thread_counting 0, r2);
                               (kpc_force_all_ctrs_set 0, r3)])).
Proof.
  intros Hb Hin.
  destruct (Z.eq_dec (r_ret (env (w_log w) read_counters)) 0) as [Hr|Hr].
  - destruct (stop_run_good env w values Hb Hin Hr) as (r1 & r2 & r3 & H).
    eexists _, _. split; [exact H|]. right. simpl. eauto 6.
  - rewrite (stop_run env w values Hb).
    apply Z.eqb_neq in Hr. rewrite Hr. simpl.
    eexists _, _. split; [reflexivity|]. left. simpl.
    apply Z.eqb_neq in Hr. auto.
Qed.

Lemma stop_tears_down_after_a_good_read_witness :
  bound (w_lib (Fake.counting Fake.stuck))
  /\ in_bounds (w_demo (Fake.counting Fake.stuck)) [0; 0; 0; 0]
  /\ exists res w',
       performance_counters_stop (Fake.fake Fake.stuck) [0; 0; 0; 0]
         (Fake.counting Fake.stuck) = Ok (res, w').
Proof.
  assert (Hb : bound (w_lib (Fake.counting Fake.stuck))).
  { apply boundb_bound. vm_compute. reflexivity. }
  assert (Hin : in_bounds (w_demo (Fake.counting Fake.stuck)) [0; 0; 0; 0]).
  { split; [vm_compute; auto 6|]. split; [simpl; lia|].
    vm_compute. repeat constructor; discriminate. }
  split; [exact Hb|]. split; [exact Hin|].
  destruct (stop_tears_down_after_a_good_read (Fake.fake Fake.stuck)
              (Fake.counting Fake.stuck) [0; 0; 0; 0] Hb Hin)
    as (res & w' & H & _).
  exists res, w'. exact H.
Defined.

(** C1, counterexample.  The second read of the counters fails: the stop
    returns the read error having made that one call; none of the three
    calls that switch off and release was made. *)
Lemma stop_skips_teardown_when_the_read_fails :
  Fake.value_of
    (performance_counters_stop (Fake.fake Fake.read_fails) [0; 0; 0; 0]
       (Fake.counting Fake.read_fails))
  = Some (Some "Failed get thread counters after", [0; 0; 0; 0])
  /\ map fst
       (calls_since (Fake.counting Fake.read_fails)
          (Fake.world_of
             (performance_counters_stop (Fake.fake Fake.read_fails)
                [0; 0; 0; 0] (Fake.counting Fake.read_fails))))
     = [read_counters].
Proof. vm_compute. auto. Qed.

(** Switching off may fail every time; the stop still reports success. *)
Example stop_ignores_teardown_failures :
  Fake.value_of
    (performance_counters_stop (Fake.fake Fake.stuck) [0; 0; 0; 0]
       (Fake.counting Fake.stuck))
  = Some (None, [5; 25; 1; 7])
  /\ map (fun e => r_ret (snd e))
       (calls_since (Fake.counting Fake.stuck)
          (Fake.world_of
             (performance_counters_stop (Fake.fake Fake.stuck) [0; 0; 0; 0]
                (Fake.counting Fake.stuck))))
     = [0; 1; 1; 1].
Proof. vm_compute. auto. Qed.

Lemma calls_since_app w w' l :
  w_log w' = w_log w ++ l -> calls_since w w' = l.
Proof. intros H. unfold calls_since. rewrite H. apply drop_app_length. Qed.

(** C2, as the code has it.  After a successful read the stop makes
    exactly three more calls, in this order: [kpc_set_counting(0)], which
    disables counting globally, then [kpc_set_thread_counting(0)], then
    [kpc_force_all_ctrs_set(0)], which releases the forced counters. *)
Theorem stop_disables_global_then_thread_then_releases env w values :
  bound (w_lib w) -> in_bounds (w_demo w) values ->
  r_ret (env (w_log w) read_counters) = 0 ->
  exists res w', performance_counters_stop env values w = Ok (res, w')
    /\ map fst (calls_since w w')
       = [read_counters; kpc_set_counting 0; kpc_set_thread_counting 0;
          kpc_force_all_ctrs_set 0].
Proof.
  intros Hb Hin Hr.
  destruct (stop_run_good env w values Hb Hin Hr) as (r1 & r2 & r3 & H).
  eexists _, _. split; [exact H|].
  erewrite calls_since_app; [|reflexivity]. reflexivity.
Qed.

Lemma stop_disables_global_then_thread_then_releases_witness :
  bound (w_lib (Fake.counting Fake.apple))
  /\ in_bounds (w_demo (Fake.counting Fake.apple)) [0; 0; 0; 0]
  /\ r_ret (Fake.fake Fake.apple (w_log (Fake.counting Fake.apple))
              read_counters) = 0
  /\ exists res w',
       performance_counters_stop (Fake.fake Fake.apple) [0; 0; 0; 0]
         (Fake.counting Fake.apple) = Ok (res, w')
       /\ map fst (calls_since (Fake.counting Fake.apple) w')
          = [read_counters; kpc_set_counting 0; kpc_set_thread_counting 0;
             kpc_force_all_ctrs_set 0].
Proof.
  assert (Hb : bound (w_lib (Fake.counting Fake.apple))).
  { apply boundb_bound. vm_compute. reflexivity. }
  assert (Hin : in_bounds (w_demo (Fake.counting Fake.apple)) [0; 0; 0; 0]).
  { split; [vm_compute; auto 6|]. split; [simpl; lia|].
    vm_compute. repeat constructor; discriminate. }
  assert (Hr : r_ret (Fake.fake Fake.apple (w_log (Fake.counting Fake.apple))
                        read_counters) = 0).
  { vm_compute. reflexivity. }
  split; [exact Hb|]. split; [exact Hin|]. split; [exact Hr|].
  exact (stop_disables_global_then_thread_then_releases (Fake.fake Fake.apple)
           (Fake.counting Fake.apple) [0; 0; 0; 0] Hb Hin Hr).
Defined.

(** C2, counterexample.  On the Apple-like machine the calls of the stop
    are the read, then the global switch, then the thread switch, then the
    release; not the thread switch before the global one. *)
Lemma stop_does_not_disable_thread_counting_first :
  map fst
    (calls_since (Fake.counting Fake.apple)
       (Fake.world_of
          (performance_counters_stop (Fake.fake Fake.apple) [0; 0; 0; 0]
             (Fake.counting Fake.apple))))
  = [read_counters; kpc_set_counting 0; kpc_set_thread_counting 0;
     kpc_force_all_ctrs_set 0]
  /\ map fst
       (calls_since (Fake.counting Fake.apple)
          (Fake.world_of
             (performance_counters_stop (Fake.fake Fake.apple) [0; 0; 0; 0]
                (Fake.counting Fake.apple))))
     <> [read_counters; kpc_set_thread_counting 0; kpc_set_counting 0;
         kpc_force_all_ctrs_set 0].
Proof. split; vm_compute; [reflexivity|discriminate]. Qed.

Lemma lookup_write_deltas d indices values i :
  (i < length values)%nat ->
  write_deltas d indices values !! i
  = if bool_decide (i ∈ indices) then Some (default 0 (delta_at d i))
    else values !! i.
Proof.
  revert values. induction indices as [|j rest IH]; intros values Hi.
  - reflexivity.
  - change (write_deltas d (j :: rest) values)
      with (write_deltas d rest (<[j := default 0 (delta_at d j)]> values)).
    rewrite IH by now rewrite length_insert.
    destruct (decide (i = j)) as [->|Hne].
    + rewrite (bool_decide_eq_true_2 (j ∈ j :: rest)) by constructor.
      rewrite list_lookup_insert_eq by exact Hi.
      now destruct (bool_decide (j ∈ rest)).
    + rewrite list_lookup_insert_ne by congruence.
      destruct (decide (i ∈ rest)) as [Hin|Hout].
      * rewrite !bool_decide_eq_true_2; auto. now constructor.
      * rewrite !bool_decide_eq_false_2; auto.
        intros Hin. apply elem_of_cons in Hin. tauto.
Qed.

Lemma sub64_exact a b :
  0 <= b <= a -> a < 2 ^ 64 -> sub64 a b = a - b.
Proof. intros ? ?. unfold sub64, wrap64. apply Z.mod_small. lia. Qed.

(** C6.  After a successful read, for each of the first 4 events [i] the
    stop stores in [values[i]] the difference, in 64-bit arithmetic, of the
    "after" and the "before" counter at register [counter_map[i]]; where the
    counter did not go backwards that is the plain difference.  The rest of
    [values] is untouched. *)
Theorem stop_values_are_counter_deltas env w values :
  bound (w_lib w) -> in_bounds (w_demo w) values ->
  r_ret (env (w_log w) read_counters) = 0 ->
  exists values' w',
    performance_counters_stop env values w = Ok ((None, values'), w')
    /\ counters_0 (w_demo w') = counters_0 (w_demo w)
    /\ counters_1 (w_demo w')
       = blit (r_words (env (w_log w) read_counters)) (counters_1 (w_demo w))
    /\ length values' = length values
    /\ (forall i, (i < 4)%nat ->
        exists idx after before,
          counter_map (w_demo w) !! i = Some idx
          /\ counters_1 (w_demo w') !! Z.to_nat idx = Some after
          /\ counters_0 (w_demo w') !! Z.to_nat idx = Some before
          /\ values' !! i = Some (sub64 after before)
          /\ (0 <= before <= after -> after < 2 ^ 64 ->
              values' !! i = Some (after - before)))
    /\ (forall i, (4 <= i)%nat -> values' !! i = values !! i).
Proof.
  intros Hb Hin Hr.
  destruct (stop_run_good env w values Hb Hin Hr) as (r1 & r2 & r3 & H).
  eexists _, _. split; [exact H|]. cbn [w_demo counters_0 counters_1
                                       set_counters_1].
  split; [reflexivity|]. split; [reflexivity|].
  split; [apply length_write_deltas|]. split.
  - intros i Hi.
    destruct (in_bounds_delta _ values
                (r_words (env (w_log w) read_counters)) i Hin Hi)
      as (idx & a & b & Hidx & Ha & Hb' & Hd).
    exists idx, a, b. split; [exact Hidx|]. split; [exact Ha|].
    split; [exact Hb'|].
    assert (Hv : write_deltas
                   (set_counters_1
                      (blit (r_words (env (w_log w) read_counters))
                         (counters_1 (w_demo w))) (w_demo w))
                   (seq 0 4) values !! i = Some (sub64 a b)).
    { rewrite lookup_write_deltas by (destruct Hin as (_ & ? & _); lia).
      rewrite bool_decide_eq_true_2, Hd; [reflexivity|].
      apply list_elem_of_In, in_seq. lia. }
    split; [exact Hv|]. intros Hab Ha64. now rewrite Hv, sub64_exact.
  - intros i Hi.
    destruct (decide (i < length values)%nat) as [Hlt|Hge].
    + rewrite lookup_write_deltas by exact Hlt.
      rewrite bool_decide_eq_false_2; [reflexivity|].
      intros Hin'. apply list_elem_of_In, in_seq in Hin'. lia.
    + rewrite !lookup_ge_None_2; [reflexivity|lia|].
      rewrite length_write_deltas. lia.
Qed.

Lemma stop_values_are_counter_deltas_witness :
  bound (w_lib (Fake.counting Fake.fixed_only))
  /\ in_bounds (w_demo (Fake.counting Fake.fixed_only)) [0; 0; 0; 0]
  /\ r_ret (Fake.fake Fake.fixed_only
              (w_log (Fake.counting Fake.fixed_only)) read_counters) = 0
  /\ exists values' w',
       performance_counters_stop (Fake.fake Fake.fixed_only) [0; 0; 0; 0]
         (Fake.counting Fake.fixed_only) = Ok ((None, values'), w').
Proof.
  assert (Hb : bound (w_lib (Fake.counting Fake.fixed_only))).
  { apply boundb_bound. vm_compute. reflexivity. }
  assert (Hin : in_bounds (w_demo (Fake.counting Fake.fixed_only))
                  [0; 0; 0; 0]).
  { split; [vm_compute; auto 6|]. split; [simpl; lia|].
    vm_compute. repeat constructor; discriminate. }
  assert (Hr : r_ret (Fake.fake Fake.fixed_only
                        (w_log (Fake.counting Fake.fixed_only))
                        read_counters) = 0).
  { vm_compute. reflexivity. }
  split; [exact Hb|]. split; [exact Hin|]. split; [exact Hr|].
  destruct (stop_values_are_counter_deltas (Fake.fake Fake.fixed_only)
              (Fake.counting Fake.fixed_only) [0; 0; 0; 0] Hb Hin Hr)
    as (values' & w' & H & _).
  exists values', w'. exact H.
Defined.

(** The numbers of the specification: before [10, 20], after [15, 45],
    map [0, 1] give the deltas [5, 25] for the first two events; the code
    computes 4 values whatever the number of events, and the unset entries
    of the map are 0. *)
Example stop_deltas_5_25 :
  take 2 (counters_0 (w_demo (Fake.counting Fake.fixed_only))) = [10; 20]
  /\ take 2 (counter_map (w_demo (Fake.counting Fake.fixed_only))) = [0; 1]
  /\ Fake.value_of
       (performance_counters_stop (Fake.fake Fake.fixed_only) [0; 0; 0; 0]
          (Fake.counting Fake.fixed_only))
     = Some (None, [5; 25; 5; 5])
  /\ take 2 (counters_1
               (w_demo
                  (Fake.world_of
                     (performance_counters_stop (Fake.fake Fake.fixed_only)
                        [0; 0; 0; 0] (Fake.counting Fake.fixed_only)))))
     = [15; 45].
Proof. vm_compute. auto. Qed.

(** A counter that went backwards gives the difference modulo 2^64. *)
Example sub64_wraps : sub64 10 20 = 2 ^ 64 - 10.
Proof. reflexivity. Qed.

(** ** Specifications of runs *)

Lemma runs_ret {A} (a : A) w (Q : A -> world -> list event -> Prop) :
  Q a w [] -> runs (ret a) w Q.
Proof. intros H. exists a, w, []. now rewrite app_nil_r. Qed.

Lemma runs_bind {A B} (m : M A) (k : A -> M B) w Q1
    (Q : B -> world -> list event -> Prop) :
  runs m w Q1 ->
  (forall a w1 l1, Q1 a w1 l1 ->
     runs (k a) w1 (fun b w2 l2 => Q b w2 (l1 ++ l2))) ->
  runs (bind m k) w Q.
Proof.
  intros (a & w1 & l1 & Hm & Hl1 & H1) Hk.
  destruct (Hk a w1 l1 H1) as (b & w2 & l2 & Hk' & Hl2 & H2).
  exists b, w2, (l1 ++ l2). rewrite (bind_run _ _ _ _ _ Hm).
  split; [exact Hk'|]. split; [|exact H2].
  now rewrite Hl2, Hl1, app_assoc.
Qed.

Lemma runs_weaken {A} (m : M A) w (Q Q' : A -> world -> list event -> Prop) :
  runs m w Q -> (forall a w' l, Q a w' l -> Q' a w' l) -> runs m w Q'.
Proof.
  intros (a & w' & l & Hm & Hl & H) HQ. exists a, w', l. auto.
Qed.

Lemma runs_both {A} (m : M A) w (Q1 Q2 : A -> world -> list event -> Prop) :
  runs m w Q1 -> runs m w Q2 ->
  runs m w (fun a w' l => Q1 a w' l /\ Q2 a w' l).
Proof.
  intros (a & w' & l & H & Hl & HQ1) (a2 & w2 & l2 & H2 & Hl2 & HQ2).
  rewrite H in H2. injection H2 as <- <-.
  rewrite Hl in Hl2. apply app_inv_head in Hl2. subst l2.
  exists a, w', l. auto.
Qed.

Lemma runs_and_then m1 m2 w Q1
    (Q : option string -> world -> list event -> Prop) :
  runs m1 w Q1 ->
  (forall msg w1 l1, Q1 (Some msg) w1 l1 -> Q (Some msg) w1 l1) ->
  (forall w1 l1, Q1 None w1 l1 ->
     runs m2 w1 (fun res w2 l2 => Q res w2 (l1 ++ l2))) ->
  runs (m1 ;;; m2) w Q.
Proof.
  intros H1 Hfail Hnext. unfold and_then.
  apply (runs_bind _ _ _ Q1); [exact H1|].
  intros [msg|] w1 l1 HQ1.
  - apply runs_ret. rewrite app_nil_r. now apply Hfail.
  - now apply Hnext.
Qed.

(** The result of a run whose steps were unfolded. *)
Lemma runs_result {A} (a : A) w w' l
    (Q : A -> world -> list event -> Prop) :
  w_log w' = w_log w ++ l -> Q a w' l ->
  exists a0 w0 l0, Ok (a, w') = Ok (a0, w0)
                   /\ w_log w0 = w_log w ++ l0 /\ Q a0 w0 l0.
Proof. intros Hl HQ. now exists a, w', l. Qed.

Lemma within_setup syms l :
  within syms l ->
  ~ In "kpc_set_config" syms -> ~ In "kpc_force_all_ctrs_set" syms ->
  Forall setup l.
Proof.
  intros Hw H1 H2. eapply Forall_impl; [exact Hw|].
  intros e (s & Hs & Hin). unfold setup. rewrite Hs.
  split; intros [= ->]; tauto.
Qed.

Lemma within_unforced syms l :
  within syms l -> ~ In "kpep_config_force_counters" syms ->
  Forall (fun e => ~ forced e) l.
Proof.
  intros Hw H1. eapply Forall_impl; [exact Hw|].
  intros e (s & Hs & Hin) [Hf _]. rewrite Hs in Hf. injection Hf as ->. tauto.
Qed.

Lemma direct_setup l : Forall direct l -> Forall setup l.
Proof.
  intros H. eapply Forall_impl; [exact H|]. intros e He. unfold setup.
  rewrite He. split; discriminate.
Qed.

Lemma direct_unforced l : Forall direct l -> Forall (fun e => ~ forced e) l.
Proof.
  intros H. eapply Forall_impl; [exact H|]. intros e He [Hf _].
  rewrite He in Hf. discriminate.
Qed.

(** Each event listed went through one of the pointers listed. *)
Ltac solve_within :=
  unfold within;
  repeat (apply List.Forall_cons;
          [eexists; split; [reflexivity | simpl; tauto] | ]);
  apply List.Forall_nil.

(** The sizes of the arrays after the assignments of a step. *)
Ltac solve_sized :=
  match goal with
  | Hs : sized _ |- sized _ =>
      unfold sized in *;
      cbv beta;
      cbn [w_demo regs counter_map counters_0 counters_1 ev_arr set_classes
           set_reg_count set_regs set_counter_map set_counters_0
           set_counters_1 set_cfg set_db set_ev_arr] in *;
      rewrite ?length_blit, ?length_insert; exact Hs
  end.

(** The run ended in world [w] itself. *)
Ltac exists_w w :=
  eexists _, w, []; split; [reflexivity|];
  split; [now rewrite app_nil_r|];
  split; [assumption|]; split; [constructor|].

(** Close the specification of a step that was unfolded by [run]. *)
Ltac finish_step :=
  unfold ret;
  eapply runs_result;
  [ unfold record; cbn [w_log]; rewrite <- ?app_assoc; reflexivity
  | unfold record ].

Lemma load_dylib_runs env w :
  consistent (w_lib w) -> sized (w_demo w) ->
  runs (load_dylib env) w
    (fun res w' l =>
       sized (w_demo w') /\ Forall direct l
       /\ (res = None -> bound (w_lib w'))).
Proof.
  intros Hc Hs. unfold runs, load_dylib.
  destruct (lib_inited (w_lib w)) eqn:Hi.
  - rewrite (bind_run _ _ _ _ _ (lib_init_cached env w Hi)).
    destruct (lib_has_err (w_lib w)) eqn:He; cbn [negb]; run_pure;
      unfold ret; exists_w w.
    + discriminate.
    + intros _. now apply Hc.
  - destruct (lib_init_run env w Hi)
      as (b & w' & H & D & _ & _ & _ & B & l & Hl & Hdir).
    rewrite (bind_run _ _ _ _ _ H).
    destruct b; cbn [negb]; run_pure; unfold ret;
      (eexists _, w', l; split; [reflexivity|]; split; [exact Hl|];
       split; [now rewrite D|]; split; [exact Hdir|]).
    + intros _. now apply B.
    + discriminate.
Qed.

Lemma check_permission_runs env w :
  ready w ->
  runs (check_permission env) w
    (fun res w' l => ready w' /\ within ["kpc_force_all_ctrs_get"] l).
Proof.
  intros [Hb Hs]. unfold runs, check_permission. run.
  destruct (negb _); finish_step; (split; [split; assumption|solve_within]).
Qed.

Lemma load_pmc_db_runs env w :
  ready w ->
  runs (load_pmc_db env) w
    (fun res w' l => ready w' /\ within ["kpep_db_create"] l).
Proof.
  intros [Hb Hs]. unfold runs, load_pmc_db. run.
  destruct (negb _); finish_step;
    (split; [split; [assumption|solve_sized]|solve_within]).
Qed.

Lemma create_config_runs env w :
  ready w ->
  runs (create_config env) w
    (fun res w' l =>
       ready w'
       /\ within ["kpep_config_create"; "kpep_config_force_counters"] l
       /\ (res <> None -> Forall (fun e => ~ forced e) l)).
Proof.
  intros [Hb Hs]. unfold runs, create_config. run.
  destruct (negb _).
  { finish_step. split; [split; [assumption|solve_sized]|].
    split; [solve_within|]. intros _. repeat constructor.
    intros [[=] _]. }
  run.
  match goal with |- context [r_ret ?r =? 0] =>
    destruct (Z.eqb_spec (r_ret r) 0) as [H0|H0] end;
    cbn [negb]; finish_step;
    (split; [split; [assumption|solve_sized]|]; split; [solve_within|]).
  - intros H. now contradiction H.
  - intros _. repeat constructor.
    + intros [[=] _].
    + intros [_ Hr]. cbn [snd] in Hr. contradiction.
Qed.

Lemma query_config_runs env w :
  ready w ->
  runs (query_config env) w
    (fun res w' l =>
       ready w'
       /\ within ["kpep_config_kpc_classes"; "kpep_config_kpc_count";
                  "kpep_config_kpc_map"; "kpep_config_kpc"] l).
Proof.
  intros [Hb Hs]. unfold runs, query_config. run.
  destruct (negb _);
    [finish_step; (split; [split; [assumption|solve_sized]|solve_within])|].
  run. destruct (negb _);
    [finish_step; (split; [split; [assumption|solve_sized]|solve_within])|].
  run. destruct (negb _);
    [finish_step; (split; [split; [assumption|solve_sized]|solve_within])|].
  run. destruct (negb _);
    finish_step; (split; [split; [assumption|solve_sized]|solve_within]).
Qed.

Lemma set_config_to_kernel_runs env w :
  ready w -> runs (set_config_to_kernel env) w set_config_outcome.
Proof.
  intros [Hb Hs]. unfold runs, set_config_to_kernel. run.
  set (r := env (w_log w) (kpc_force_all_ctrs_set 1)).
  destruct (Z.eqb_spec (r_ret r) 0) as [Hr|Hr]; cbn [negb].
  2:{ finish_step. exists r. left. auto. }
  run.
  destruct (Z.eqb_spec (Z.land (classes (w_demo w))
                          KPC_CLASS_CONFIGURABLE_MASK) 0) as [Hc|Hc];
    cbn [negb andb].
  { finish_step. exists r. right. left. repeat split; auto.
    intros [Hc' _]. cbn [w_demo] in Hc'. contradiction. }
  destruct (Z.eqb_spec (reg_count (w_demo w)) 0) as [Hn|Hn]; cbn [negb].
  { finish_step. exists r. right. left. repeat split; auto.
    intros [_ Hn']. cbn [w_demo] in Hn'. contradiction. }
  run. set (r' := env _ (kpc_set_config _ _)).
  destruct (Z.eqb_spec (r_ret r') 0) as [Hr'|Hr']; cbn [negb]; finish_step;
    exists r; right; right; exists r'; cbn [w_demo];
    (split; [reflexivity|]); (split; [exact Hr|]); (split; [split; assumption|]).
  - now rewrite Hr', Z.eqb_refl.
  - apply Z.eqb_neq in Hr'. now rewrite Hr'.
Qed.

(** ** get_event *)

Lemma get_event_loop_runs env d slots w :
  bound (w_lib w) ->
  runs (get_event_loop env d slots) w
    (fun ev w' l =>
       w_lib w' = w_lib w /\ w_demo w' = w_demo w
       /\ within ["kpep_db_event"] l).
Proof.
  intros Hb. revert w Hb. induction slots as [|[name|] rest IH]; intros w Hb.
  - apply runs_ret. repeat split. constructor.
  - cbn [get_event_loop]. unfold runs. run.
    destruct (r_ret _ =? 0).
    + finish_step. repeat split. solve_within.
    + match goal with |- context [get_event_loop env d rest ?w1] =>
        destruct (IH w1 Hb) as (ev & w' & l & -> & Hl & E1 & E2 & Hw) end.
      unfold record in *. cbn [w_log w_lib w_demo] in *.
      eexists ev, w', (_ :: l). split; [reflexivity|].
      rewrite <- app_assoc in Hl. split; [exact Hl|].
      split; [exact E1|]. split; [exact E2|].
      apply List.Forall_cons; [|exact Hw].
      eexists. split; [reflexivity|]. simpl. tauto.
  - apply runs_ret. repeat split. constructor.
Qed.

Lemma get_event_runs env d a w :
  bound (w_lib w) ->
  runs (get_event env d a) w
    (fun ev w' l =>
       w_lib w' = w_lib w /\ w_demo w' = w_demo w
       /\ within ["kpep_db_event"] l).
Proof. apply get_event_loop_runs. Qed.

Section Catalog.

(** A database that answers a lookup by the name alone. *)
Variable env : oracle.
Variable cat : string -> reply.
Hypothesis env_cat : forall log d name, env log (kpep_db_event d name) = cat name.

Lemma get_event_loop_hit d pre name post : forall slots w,
  bound (w_lib w) ->
  until_null slots = pre ++ name :: post ->
  Forall (fun n => ~ present cat n) pre -> present cat name ->
  get_event_loop env d slots w
  = Ok (handle cat name,
        World (w_lib w) (w_demo w)
          (w_log w ++ lookups cat d (pre ++ [name]))).
Proof.
  induction pre as [|p pre IH]; intros slots w Hb Hs Hpre Hname.
  - destruct slots as [|[n|] rest]; try discriminate.
    injection Hs as -> _. cbn [get_event_loop]. run. rewrite env_cat.
    unfold present in Hname. rewrite Hname. reflexivity.
  - destruct slots as [|[n|] rest]; try discriminate.
    injection Hs as -> Hrest. inversion Hpre as [|? ? Hp Hpre']; subst.
    cbn [get_event_loop]. run. rewrite env_cat.
    unfold present in Hp. apply Z.eqb_neq in Hp. rewrite Hp.
    erewrite IH; [|exact Hb|exact Hrest|exact Hpre'|exact Hname].
    unfold record. cbn [w_lib w_demo w_log lookups map app].
    rewrite <- app_assoc. reflexivity.
Qed.

Lemma get_event_loop_miss d : forall slots w,
  bound (w_lib w) ->
  Forall (fun n => ~ present cat n) (until_null slots) ->
  get_event_loop env d slots w
  = Ok (NULL,
        World (w_lib w) (w_demo w)
          (w_log w ++ lookups cat d (until_null slots))).
Proof.
  induction slots as [|[n|] rest IH]; intros w Hb Hall.
  - cbn. rewrite app_nil_r. now destruct w.
  - cbn [until_null] in Hall. inversion Hall as [|? ? Hn Hall']; subst.
    cbn [get_event_loop]. run. rewrite env_cat.
    unfold present in Hn. apply Z.eqb_neq in Hn. rewrite Hn.
    erewrite IH; [|exact Hb|exact Hall'].
    unfold record. cbn [w_lib w_demo w_log until_null lookups map].
    rewrite <- app_assoc. reflexivity.
  - cbn. rewrite app_nil_r. now destruct w.
Qed.

End Catalog.

Lemma get_events_runs env aliases : forall i w,
  ready w -> (i + length aliases <= ev_count)%nat ->
  runs (get_events env i aliases) w
    (fun res w' l => ready w' /\ within ["kpep_db_event"] l).
Proof.
  induction aliases as [|a rest IH]; intros i w [Hb Hs] Hi.
  - apply runs_ret. split; [split; assumption|constructor].
  - cbn [get_events]. unfold runs. rewrite bind_get_demo.
    destruct (get_event_runs env (db (w_demo w)) a w Hb)
      as (ev & w1 & l1 & Hev & Hl1 & E1 & E2 & Hw1).
    rewrite (bind_run _ _ _ _ _ Hev).
    assert (Hlen : (i < length (ev_arr (w_demo w)))%nat).
    { destruct Hs as (_ & _ & _ & _ & ->). cbn [length] in Hi. lia. }
    rewrite (bind_run _ _ _ _ _ (array_set_run _ i ev w1 Hlen)).
    run_pure.
    assert (Hr : ready (World (w_lib w1)
                          (set_ev_arr (<[i:=ev]> (ev_arr (w_demo w)))
                             (w_demo w1)) (w_log w1))).
    { split; cbn [w_lib w_demo]; [now rewrite E1|].
      rewrite E2. solve_sized. }
    destruct (ev =? NULL).
    + unfold ret. eexists _, _, l1. split; [reflexivity|].
      split; [exact Hl1|]. split; [exact Hr|exact Hw1].
    + destruct (IH (S i) _ Hr) as (res & w2 & l2 & -> & Hl2 & Hr2 & Hw2).
      { cbn [length] in Hi. lia. }
      exists res, w2, (l1 ++ l2). split; [reflexivity|].
      cbn [w_log] in Hl2. rewrite Hl2, Hl1, app_assoc.
      split; [reflexivity|]. split; [exact Hr2|]. now apply Forall_app.
Qed.

Lemma add_events_runs env indices : forall w,
  ready w -> Forall (fun i => (i < ev_count)%nat) indices ->
  runs (add_events env indices) w
    (fun res w' l => ready w' /\ within ["kpep_config_add_event"] l).
Proof.
  induction indices as [|i rest IH]; intros w [Hb Hs] Hall.
  - apply runs_ret. split; [split; assumption|constructor].
  - inversion Hall as [|? ? Hi Hrest]; subst.
    cbn [add_events]. unfold runs. rewrite bind_get_demo.
    destruct (lookup_lt_is_Some_2 (ev_arr (w_demo w)) i) as [ev Hev].
    { destruct Hs as (_ & _ & _ & _ & ->). exact Hi. }
    assert (Hev' : ev_arr (w_demo w) !! Z.to_nat (Z.of_nat i) = Some ev)
      by now rewrite Nat2Z.id.
    rewrite (bind_run _ _ _ _ _
               (array_get_run _ (Z.of_nat i) ev w (Nat2Z.is_nonneg i) Hev')).
    run. destruct (negb _).
    + finish_step. split; [split; assumption|solve_within].
    + match goal with |- context [add_events env rest ?w1] =>
        destruct (IH w1) as (res & w2 & l2 & -> & Hl2 & Hr2 & Hw2) end;
        [split; assumption|exact Hrest|].
      unfold record in Hl2. cbn [w_log] in Hl2. rewrite <- app_assoc in Hl2.
      eexists res, w2, (_ :: l2). split; [reflexivity|].
      split; [exact Hl2|]. split; [exact Hr2|].
      apply List.Forall_cons; [|exact Hw2].
      eexists. split; [reflexivity|]. simpl. tauto.
Qed.

(** ** performance_counters_init *)

Lemma init_outcome_prefix l0 res w' l :
  Forall setup l0 -> init_outcome res w' l -> init_outcome res w' (l0 ++ l).
Proof.
  intros H0 (l1 & l2 & -> & H1 & H2).
  exists (l0 ++ l1), l2. rewrite app_assoc. split; [reflexivity|].
  split; [now apply Forall_app|exact H2].
Qed.

Lemma init_outcome_returned msg w' l :
  Forall setup l -> init_outcome (Some msg) w' l.
Proof.
  intros H. exists l, []. rewrite app_nil_r. split; [reflexivity|].
  split; [exact H|]. left. split; [discriminate|reflexivity].
Qed.

(** One step of the chain: a step that makes setup calls only, followed
    by the rest. *)
Lemma init_step (m1 m2 : M (option string)) w :
  runs m1 w (fun res w' l => ready w' /\ Forall setup l) ->
  (forall w1, ready w1 -> runs m2 w1 init_outcome) ->
  runs (m1 ;;; m2) w init_outcome.
Proof.
  intros H1 H2. eapply runs_and_then; [exact H1| |].
  - intros msg w1 l1 [_ Hl]. now apply init_outcome_returned.
  - intros w1 l1 [Hr Hl]. eapply runs_weaken; [apply H2, Hr|].
    intros res w2 l2. now apply init_outcome_prefix.
Qed.

Lemma init_runs env w :
  consistent (w_lib w) -> sized (w_demo w) ->
  runs (performance_counters_init env) w init_outcome.
Proof.
  intros Hc Hs. unfold performance_counters_init.
  eapply runs_and_then; [apply load_dylib_runs; assumption| |].
  { intros msg w1 l1 (_ & Hd & _).
    now apply init_outcome_returned, direct_setup. }
  intros w1 l1 (Hs1 & Hd1 & Hb1).
  eapply runs_weaken;
    [|intros res w2 l2; apply init_outcome_prefix, direct_setup, Hd1].
  assert (Hr1 : ready w1) by (split; auto). clear - Hr1. revert w1 Hr1.
  intros w Hr. apply init_step.
  { eapply runs_weaken; [apply check_permission_runs, Hr|].
    intros res w' l [H1 H2]. split; [exact H1|].
    eapply within_setup; [exact H2|simpl; intuition discriminate..]. }
  clear w Hr. intros w Hr. apply init_step.
  { eapply runs_weaken; [apply load_pmc_db_runs, Hr|].
    intros res w' l [H1 H2]. split; [exact H1|].
    eapply within_setup; [exact H2|simpl; intuition discriminate..]. }
  clear w Hr. intros w Hr. apply init_step.
  { eapply runs_weaken; [apply create_config_runs, Hr|].
    intros res w' l (H1 & H2 & _). split; [exact H1|].
    eapply within_setup; [exact H2|simpl; intuition discriminate..]. }
  clear w Hr. intros w Hr. apply init_step.
  { eapply runs_weaken; [apply get_events_runs; [exact Hr|reflexivity]|].
    intros res w' l [H1 H2]. split; [exact H1|].
    eapply within_setup; [exact H2|simpl; intuition discriminate..]. }
  clear w Hr. intros w Hr. apply init_step.
  { eapply runs_weaken; [apply add_events_runs; [exact Hr|]|].
    - apply List.Forall_forall. intros i Hi. apply in_seq in Hi. lia.
    - intros res w' l [H1 H2]. split; [exact H1|].
      eapply within_setup; [exact H2|simpl; intuition discriminate..]. }
  clear w Hr. intros w Hr. apply init_step.
  { eapply runs_weaken; [apply query_config_runs, Hr|].
    intros res w' l [H1 H2]. split; [exact H1|].
    eapply within_setup; [exact H2|simpl; intuition discriminate..]. }
  clear w Hr. intros w Hr.
  eapply runs_weaken; [apply set_config_to_kernel_runs, Hr|].
  intros res w' l H. exists [], l. split; [reflexivity|].
  split; [constructor|]. now right.
Qed.

Lemma setup_not_config c config r : ~ setup (kpc_set_config c config, r).
Proof. intros [H _]. now apply H. Qed.

Lemma setup_not_force v r : ~ setup (kpc_force_all_ctrs_set v, r).
Proof. intros [_ H]. now apply H. Qed.


(** With the Fixed class alone and no register the initialisation
    succeeds without a register write; with configurable counters the
    write is its last call. *)
Example init_on_fixed_only :
  Fake.value_of (performance_counters_init (Fake.fake Fake.fixed_only) world0)
  = Some None
  /\ classes (w_demo (Fake.configured Fake.fixed_only)) = KPC_CLASS_FIXED_MASK
  /\ reg_count (w_demo (Fake.configured Fake.fixed_only)) = 0
  /\ last (map fst (w_log (Fake.configured Fake.fixed_only)))
     = Some (kpc_force_all_ctrs_set 1)
  /\ match last (map fst (w_log (Fake.configured Fake.apple))) with
     | Some (kpc_set_config c config) =>
         c = 3 /\ take 4 config = [0; 0; 141; 203]
     | _ => False
     end.
Proof. vm_compute. auto 7. Qed.

(** ** Event resolution *)

Lemma lookup_outcome_prefix name l0 res w' l :
  Forall (fun e => ~ forced e) l0 ->
  lookup_outcome name res w' l -> lookup_outcome name res w' (l0 ++ l).
Proof.
  intros H0 H (e & Hin & He). apply H. exists e. split; [|exact He].
  apply in_app_or in Hin. destruct Hin as [Hin|Hin]; [|exact Hin].
  rewrite List.Forall_forall in H0. now apply H0 in Hin.
Qed.

Lemma lookup_outcome_unforced name res w' l :
  Forall (fun e => ~ forced e) l -> lookup_outcome name res w' l.
Proof.
  intros H (e & Hin & He). rewrite List.Forall_forall in H.
  now apply H in Hin.
Qed.

Section Resolution.

Variable env : oracle.
Variable cat : string -> reply.
Hypothesis env_cat : forall log d name, env log (kpep_db_event d name) = cat name.

Lemma get_events_missing a after before : forall i w,
  ready w -> (i + length (before ++ a :: after) <= ev_count)%nat ->
  Forall (resolves cat) before ->
  Forall (fun n => ~ present cat n) (candidates a) ->
  runs (get_events env i (before ++ a :: after)) w
    (fun res _ _ => res = Some (alias a)).
Proof.
  induction before as [|b before IH]; intros i w [Hb Hs] Hi Hres Hmiss;
    assert (Hlen : (i < length (ev_arr (w_demo w)))%nat)
      by (destruct Hs as (_ & _ & _ & _ & ->); cbn [app length] in Hi; lia).
  - cbn [app get_events]. unfold runs. rewrite bind_get_demo.
    unfold get_event.
    rewrite (bind_run _ _ _ _ _
               (get_event_loop_miss env cat env_cat _ _ w Hb Hmiss)).
    rewrite (bind_run _ _ _ _ _ (array_set_run _ i NULL _ Hlen)).
    run_pure. rewrite Z.eqb_refl. finish_step. reflexivity.
  - inversion Hres as [|? ? (pre & name & post & Hc & Hpre & Hn & Hh) Hres'];
      subst.
    cbn [app get_events]. unfold runs. rewrite bind_get_demo.
    unfold get_event.
    rewrite (bind_run _ _ _ _ _
               (get_event_loop_hit env cat env_cat _ pre name post _ w
                  Hb Hc Hpre Hn)).
    rewrite (bind_run _ _ _ _ _
               (array_set_run _ i (handle cat name) _ Hlen)).
    run_pure. apply Z.eqb_neq in Hh. rewrite Hh.
    match goal with |- context [get_events env (S i) _ ?w1] =>
      destruct (IH (S i) w1) as (res & w2 & l2 & -> & Hl2 & ->) end.
    + split; cbn [w_lib w_demo]; [exact Hb|solve_sized].
    + cbn [app length] in Hi. lia.
    + exact Hres'.
    + exact Hmiss.
    + cbn [w_log] in Hl2. rewrite <- app_assoc in Hl2.
      eexists _, w2, _. split; [reflexivity|]. split; [exact Hl2|reflexivity].
Qed.

(** One step of the chain before the lookups. *)
Lemma lookup_step name (m1 m2 : M (option string)) w :
  runs m1 w (fun res w' l => ready w' /\ Forall (fun e => ~ forced e) l) ->
  (forall w1, ready w1 -> runs m2 w1 (lookup_outcome name)) ->
  runs (m1 ;;; m2) w (lookup_outcome name).
Proof.
  intros H1 H2. eapply runs_and_then; [exact H1| |].
  - intros msg w1 l1 [_ Hl]. now apply lookup_outcome_unforced.
  - intros w1 l1 [Hr Hl]. eapply runs_weaken; [apply H2, Hr|].
    intros res w2 l2. now apply lookup_outcome_prefix.
Qed.

Lemma init_lookup_runs before a after w :
  consistent (w_lib w) -> sized (w_demo w) ->
  profile_events = before ++ a :: after ->
  Forall (resolves cat) before ->
  Forall (fun n => ~ present cat n) (candidates a) ->
  runs (performance_counters_init env) w (lookup_outcome (alias a)).
Proof.
  intros Hc Hs Hsplit Hres Hmiss. unfold performance_counters_init.
  eapply runs_and_then; [apply load_dylib_runs; assumption| |].
  { intros msg w1 l1 (_ & Hd & _).
    now apply lookup_outcome_unforced, direct_unforced. }
  intros w1 l1 (Hs1 & Hd1 & Hb1).
  eapply runs_weaken;
    [|intros res w2 l2; apply lookup_outcome_prefix, direct_unforced, Hd1].
  assert (Hr1 : ready w1) by (split; auto).
  clear - Hr1 Hsplit Hres Hmiss env_cat. revert w1 Hr1.
  intros w Hr. apply lookup_step.
  { eapply runs_weaken; [apply check_permission_runs, Hr|].
    intros res w' l [H1 H2]. split; [exact H1|].
    eapply within_unforced; [exact H2|simpl; intuition discriminate]. }
  clear w Hr. intros w Hr. apply lookup_step.
  { eapply runs_weaken; [apply load_pmc_db_runs, Hr|].
    intros res w' l [H1 H2]. split; [exact H1|].
    eapply within_unforced; [exact H2|simpl; intuition discriminate]. }
  clear w Hr. intros w Hr.
  eapply runs_and_then; [apply create_config_runs, Hr| |].
  { intros msg w1 l1 (_ & _ & Hu).
    apply lookup_outcome_unforced, Hu. discriminate. }
  intros w1 l1 (Hr1 & _ & _).
  eapply runs_and_then.
  - rewrite Hsplit. apply get_events_missing; [exact Hr1| |exact Hres|exact Hmiss].
    rewrite <- Hsplit. reflexivity.
  - intros msg w2 l2 [= ->] _. reflexivity.
  - intros w2 l2 [=].
Qed.


End Resolution.


(** On the Intel-like machine the database has the second and the third
    candidate of "cycles"; the second is returned and the third is never
    looked up.  Without branch events the initialisation returns the
    display name "branches". *)
Example get_event_on_intel :
  Fake.value_of
    (get_event (Fake.fake Fake.intel) 100 Fake.cycles
       (Fake.configured Fake.intel)) = Some 1000
  /\ map fst
       (calls_since (Fake.configured Fake.intel)
          (Fake.world_of
             (get_event (Fake.fake Fake.intel) 100 Fake.cycles
                (Fake.configured Fake.intel))))
     = [kpep_db_event 100 "FIXED_CYCLES";
        kpep_db_event 100 "CPU_CLK_UNHALTED.THREAD"]
  /\ Fake.value_of
       (performance_counters_init (Fake.fake Fake.no_branches) world0)
     = Some (Some "branches").
Proof. vm_compute. auto. Qed.

(** ** Demo 2: the trace decode *)

Section Decode.

Variables KDBG_FUNC_MASK DBG_FUNC_START : Z.
Variable alloc_ok : Z -> bool.
Variable counter_count : Z.

Abbreviation push_below := (Demo2.push_below counter_count).
Abbreviation read_split :=
  (Demo2.read_split KDBG_FUNC_MASK DBG_FUNC_START counter_count).
Abbreviation read_counter_log :=
  (Demo2.read_counter_log KDBG_FUNC_MASK DBG_FUNC_START counter_count).
Abbreviation aggregate :=
  (Demo2.aggregate KDBG_FUNC_MASK DBG_FUNC_START alloc_ok counter_count).
Abbreviation begins := (begins KDBG_FUNC_MASK DBG_FUNC_START).
Abbreviation continues := (continues KDBG_FUNC_MASK DBG_FUNC_START).
Abbreviation stops := (stops KDBG_FUNC_MASK DBG_FUNC_START).

(** The number of counters fits the array [counters[KPC_MAX_COUNTERS]],
    and there are the four of a start record at least. *)
Hypothesis count_range : 4 <= counter_count <= Z.of_nat KPC_MAX_COUNTERS.

Lemma push_below_run counters v :
  Z.of_nat (length counters) <= counter_count ->
  push_below counters v
  = Ok (take (Z.to_nat counter_count) (counters ++ [v])).
Proof.
  intros Hlen. unfold Demo2.push_below, Demo2.ci, Demo2.push.
  destruct (Z.ltb_spec (Z.of_nat (length counters)) counter_count) as [Hlt|Hge].
  - destruct (Nat.ltb_spec (length counters) KPC_MAX_COUNTERS) as [_|Hbig];
      [|lia].
    rewrite take_ge; [reflexivity|]. rewrite length_app. cbn [length]. lia.
  - rewrite take_app_le by lia. rewrite take_ge by lia. reflexivity.
Qed.

Lemma length_take_count (l : list Z) :
  Z.of_nat (length (take (Z.to_nat counter_count) l)) <= counter_count.
Proof. rewrite length_take. lia. Qed.

(** The four conditional stores of one continuation record. *)
Lemma push_args counters buf2 :
  Z.of_nat (length counters) <= counter_count ->
  Demo2.obind (push_below counters (Demo2.arg1 buf2)) (fun c1 =>
  Demo2.obind (push_below c1 (Demo2.arg2 buf2)) (fun c2 =>
  Demo2.obind (push_below c2 (Demo2.arg3 buf2)) (fun c3 =>
  push_below c3 (Demo2.arg4 buf2))))
  = Ok (take (Z.to_nat counter_count) (counters ++ args buf2)).
Proof.
  intros Hlen.
  rewrite push_below_run by exact Hlen. cbn [Demo2.obind].
  rewrite push_below_run by apply length_take_count. cbn [Demo2.obind].
  rewrite push_below_run by apply length_take_count. cbn [Demo2.obind].
  rewrite push_below_run by apply length_take_count. f_equal.
  set (n := Z.to_nat counter_count). unfold args.
  assert (Htake : forall l k : list Z,
            take n (take n l ++ k) = take n (l ++ k)).
  { intros l k. destruct (Nat.le_gt_cases n (length l)) as [Hle|Hgt].
    - rewrite take_app_le by (rewrite length_take; lia).
      rewrite take_take, Nat.min_id. now rewrite take_app_le.
    - now rewrite (take_ge l) by lia. }
  rewrite Htake, <- app_assoc, Htake, <- app_assoc, Htake, <- app_assoc.
  reflexivity.
Qed.

(** One round of the inner loop on a continuation record. *)
Lemma read_split_step t counters buf2 rest :
  continues t buf2 ->
  Z.of_nat (length counters) <= counter_count ->
  read_split t counters (buf2 :: rest)
  = if Z.of_nat (length counters) + 4 <? counter_count
    then read_split t (counters ++ args buf2) rest
    else Ok (take (Z.to_nat counter_count) (counters ++ args buf2)).
Proof.
  intros [Ht Hf] Hlen. cbn [Demo2.read_split].
  apply Z.eqb_eq in Ht. rewrite Ht. cbn [negb].
  apply Z.eqb_neq in Hf. rewrite Hf.
  change (Demo2.obind (push_below counters (Demo2.arg1 buf2)) ?k)
    with (Demo2.obind (push_below counters (Demo2.arg1 buf2)) k).
  pose proof (push_args counters buf2 Hlen) as Hpush.
  unfold Demo2.obind in *.
  destruct (push_below counters (Demo2.arg1 buf2)) as [c1|]; [|discriminate].
  destruct (push_below c1 (Demo2.arg2 buf2)) as [c2|]; [|discriminate].
  destruct (push_below c2 (Demo2.arg3 buf2)) as [c3|]; [|discriminate].
  rewrite Hpush. unfold Demo2.ci. rewrite length_take, length_app.
  change (length (args buf2)) with 4%nat.
  destruct (Z.ltb_spec (Z.of_nat (length counters) + 4) counter_count)
    as [Hlt|Hge].
  - destruct (Z.eqb_spec
                (Z.of_nat (Z.to_nat counter_count `min` (length counters + 4)))
                counter_count) as [Heq|_]; [lia|].
    rewrite take_ge; [reflexivity|]. rewrite length_app.
    change (length (args buf2)) with 4%nat. lia.
  - destruct (Z.eqb_spec
                (Z.of_nat (Z.to_nat counter_count `min` (length counters + 4)))
                counter_count) as [_|Hne]; [reflexivity|lia].
Qed.

Lemma read_split_complete t rest : forall conts counters,
  Forall (continues t) conts ->
  Z.of_nat (length counters) < counter_count ->
  counter_count <= Z.of_nat (length counters) + 4 * Z.of_nat (length conts) ->
  read_split t counters (conts ++ rest)
  = Ok (take (Z.to_nat counter_count)
          (counters ++ flat_map args conts)).
Proof.
  induction conts as [|c cs IH]; intros counters Hall Hlt Hge.
  - cbn [length] in Hge. lia.
  - inversion Hall as [|? ? Hc Hcs]; subst.
    cbn [app flat_map]. rewrite read_split_step by (auto; lia).
    destruct (Z.ltb_spec (Z.of_nat (length counters) + 4) counter_count)
      as [Hlt'|Hge'].
    + rewrite IH; [now rewrite <- app_assoc|exact Hcs| |].
      * rewrite length_app. change (length (args c)) with 4%nat. lia.
      * rewrite length_app. change (length (args c)) with 4%nat.
        cbn [length] in Hge. lia.
    + rewrite app_assoc. rewrite (take_app_le _ (flat_map args cs)).
      * reflexivity.
      * rewrite length_app. change (length (args c)) with 4%nat. lia.
Qed.

Lemma read_split_truncated t rest : forall conts counters,
  Forall (continues t) conts ->
  Z.of_nat (length counters) + 4 * Z.of_nat (length conts) < counter_count ->
  stops t rest ->
  read_split t counters (conts ++ rest)
  = Ok (counters ++ flat_map args conts).
Proof.
  induction conts as [|c cs IH]; intros counters Hall Hlt Hstop.
  - cbn [app flat_map]. rewrite app_nil_r.
    destruct rest as [|b rest']; [reflexivity|].
    cbn [Demo2.read_split]. cbn [stops] in Hstop. unfold continues in Hstop.
    destruct (Z.eqb_spec (Demo2.tid_of b) t) as [Ht|Ht]; [|reflexivity].
    cbn [negb].
    destruct (Z.eqb_spec (Demo2.func KDBG_FUNC_MASK b) DBG_FUNC_START)
      as [Hf|Hf]; [reflexivity|].
    contradiction Hstop. now split.
  - inversion Hall as [|? ? Hc Hcs]; subst.
    cbn [length] in Hlt.
    cbn [app flat_map]. rewrite read_split_step by (auto; lia).
    destruct (Z.ltb_spec (Z.of_nat (length counters) + 4) counter_count)
      as [Hlt'|Hge']; [|lia].
    rewrite IH; [now rewrite <- app_assoc|exact Hcs| |exact Hstop].
    rewrite length_app. change (length (args c)) with 4%nat. lia.
Qed.

Lemma length_flat_args (conts : list Demo2.kd_buf) :
  length (flat_map args conts) = (4 * length conts)%nat.
Proof.
  induction conts as [|c cs IH]; [reflexivity|].
  cbn [flat_map length]. rewrite length_app, IH.
  change (length (args c)) with 4%nat. lia.
Qed.

Lemma read_counter_log_four buf rest :
  counter_count = 4 -> read_counter_log buf rest = Ok (Some (args buf)).
Proof.
  intros H4. unfold Demo2.read_counter_log, Demo2.ci. cbn [length].
  rewrite H4. reflexivity.
Qed.

Lemma read_counter_log_complete buf conts rest :
  4 < counter_count ->
  Forall (continues (Demo2.tid_of buf)) conts ->
  counter_count <= 4 + 4 * Z.of_nat (length conts) ->
  read_counter_log buf (conts ++ rest)
  = Ok (Some (take (Z.to_nat counter_count)
                (args buf ++ flat_map args conts))).
Proof.
  intros H4 Hall Hge. unfold Demo2.read_counter_log, Demo2.ci.
  change [Demo2.arg1 buf; Demo2.arg2 buf; Demo2.arg3 buf; Demo2.arg4 buf]
    with (args buf).
  change (Z.of_nat (length (args buf))) with 4.
  destruct (Z.ltb_spec 4 counter_count) as [_|]; [|lia].
  rewrite read_split_complete;
    [|exact Hall|change (Z.of_nat (length (args buf))) with 4; lia..].
  cbn [Demo2.obind]. rewrite length_take, length_app.
  change (length (args buf)) with 4%nat.
  rewrite length_flat_args.
  destruct (Z.eqb_spec
              (Z.of_nat (Z.to_nat counter_count
                         `min` (4 + 4 * length conts)))
              counter_count) as [_|Hne]; [reflexivity|lia].
Qed.

Lemma read_counter_log_truncated buf conts rest :
  Forall (continues (Demo2.tid_of buf)) conts ->
  4 + 4 * Z.of_nat (length conts) < counter_count ->
  stops (Demo2.tid_of buf) rest ->
  read_counter_log buf (conts ++ rest) = Ok None.
Proof.
  intros Hall Hlt Hstop. unfold Demo2.read_counter_log, Demo2.ci.
  change [Demo2.arg1 buf; Demo2.arg2 buf; Demo2.arg3 buf; Demo2.arg4 buf]
    with (args buf).
  change (Z.of_nat (length (args buf))) with 4.
  destruct (Z.ltb_spec 4 counter_count) as [_|]; [|lia].
  rewrite read_split_truncated;
    [|exact Hall|change (Z.of_nat (length (args buf))) with 4; lia
     |exact Hstop].
  cbn [Demo2.obind]. rewrite length_app, length_flat_args.
  change (length (args buf)) with 4%nat.
  destruct (Z.eqb_spec (Z.of_nat (4 + 4 * length conts)) counter_count)
    as [Heq|_]; [lia|reflexivity].
Qed.

Lemma aggregate_skips buf rest tbl :
  ~ begins buf -> aggregate (buf :: rest) tbl = aggregate rest tbl.
Proof.
  intros Hn. cbn [Demo2.aggregate]. unfold begins in Hn.
  destruct (Z.eqb_spec (Demo2.func KDBG_FUNC_MASK buf) DBG_FUNC_START)
    as [Hf|Hf]; [|reflexivity].
  cbn [negb].
  destruct (Z.eqb_spec (Demo2.tid_of buf) 0) as [Ht|Ht]; [reflexivity|].
  contradiction Hn. now split.
Qed.

End Decode.


(** The streams of the specification: with 5 counters, a start record
    [1, 2, 3, 4] of thread 7 and its continuation [5, 0, 0, 0] give the one
    sample [1, 2, 3, 4, 5]; when the next record is of another thread the
    sample is dropped and the table stays empty. *)
Example decode_of_the_split_sample :
  Fake.summary 5
    (Demo2.aggregate_thread_data Fake.KDBG_FUNC_MASK Fake.DBG_FUNC_START
       Fake.plenty 5
       [Fake.start_record 100 7 1 2 3 4; Fake.more_record 101 7 5 0 0 0])
  = Some [(7, (100, [1; 2; 3; 4; 5]), (0, [0; 0; 0; 0; 0]))]
  /\ Fake.summary 5
       (Demo2.aggregate_thread_data Fake.KDBG_FUNC_MASK Fake.DBG_FUNC_START
          Fake.plenty 5
          [Fake.start_record 100 7 1 2 3 4; Fake.more_record 101 8 5 0 0 0])
     = Some [].
Proof. vm_compute. auto. Qed.

(** ** Demo 2: the thread data *)

Lemma find_thread_Some t data i :
  Demo2.find_thread t data = Some i ->
  exists d, data !! i = Some d /\ Demo2.tid d = t.
Proof.
  revert i. induction data as [|d rest IH]; intros i; [discriminate|].
  cbn [Demo2.find_thread].
  destruct (Z.eqb_spec (Demo2.tid d) t) as [Ht|Ht].
  - intros [= <-]. now exists d.
  - destruct (Demo2.find_thread t rest) as [j|]; [|discriminate].
    intros [= <-]. now apply IH.
Qed.

Lemma find_thread_None t data :
  Demo2.find_thread t data = None <->
  Forall (fun d => Demo2.tid d <> t) data.
Proof.
  induction data as [|d rest IH]; [now split; [constructor|]|].
  cbn [Demo2.find_thread].
  destruct (Z.eqb_spec (Demo2.tid d) t) as [Ht|Ht].
  - split; [discriminate|]. intros H. inversion H; subst. contradiction.
  - destruct (Demo2.find_thread t rest) as [j|].
    + split; [discriminate|]. intros H. inversion H as [|? ? _ Hr]; subst.
      now apply IH in Hr.
    + split; [|reflexivity]. intros _. constructor; [exact Ht|].
      now apply IH.
Qed.

(** The search reads the thread ids only. *)
Lemma find_thread_tids t data data' :
  map Demo2.tid data = map Demo2.tid data' ->
  Demo2.find_thread t data = Demo2.find_thread t data'.
Proof.
  revert data'. induction data as [|d rest IH]; intros [|d' rest'] H;
    try discriminate; [reflexivity|].
  injection H as Hd Hrest. cbn [Demo2.find_thread]. rewrite Hd.
  now rewrite (IH rest' Hrest).
Qed.

Lemma find_thread_app t data d :
  Demo2.find_thread t (data ++ [d])
  = match Demo2.find_thread t data with
    | Some i => Some i
    | None => if Demo2.tid d =? t then Some (length data) else None
    end.
Proof.
  induction data as [|e rest IH].
  - cbn. now destruct (Demo2.tid d =? t).
  - cbn [app Demo2.find_thread length]. rewrite IH.
    destruct (Demo2.tid e =? t); [reflexivity|].
    destruct (Demo2.find_thread t rest); [reflexivity|].
    now destruct (Demo2.tid d =? t).
Qed.

Lemma tid_store_sample n ts counters d :
  Demo2.tid (Demo2.store_sample n ts counters d) = Demo2.tid d.
Proof. unfold Demo2.store_sample. now destruct (Demo2.timestamp_0 d =? 0). Qed.

Lemma tids_alter (f : Demo2.kpc_thread_data -> Demo2.kpc_thread_data) data :
  (forall d, Demo2.tid (f d) = Demo2.tid d) ->
  forall i, map Demo2.tid (alter f i data) = map Demo2.tid data.
Proof.
  intros Hf. induction data as [|d rest IH]; intros [|i]; try reflexivity.
  - cbn. now rewrite Hf.
  - cbn. f_equal. apply IH.
Qed.

Section Accumulate.

Variables KDBG_FUNC_MASK DBG_FUNC_START : Z.
Variable alloc_ok : Z -> bool.
Variable counter_count : Z.

Abbreviation read_counter_log :=
  (Demo2.read_counter_log KDBG_FUNC_MASK DBG_FUNC_START counter_count).
Abbreviation aggregate :=
  (Demo2.aggregate KDBG_FUNC_MASK DBG_FUNC_START alloc_ok counter_count).
Abbreviation add_thread_data := (Demo2.add_thread_data alloc_ok counter_count).
Abbreviation store_sample := (Demo2.store_sample counter_count).
Abbreviation samples := (samples KDBG_FUNC_MASK DBG_FUNC_START counter_count).
Abbreviation samples_of :=
  (samples_of KDBG_FUNC_MASK DBG_FUNC_START counter_count).
Abbreviation stored := (stored counter_count).

Lemma add_thread_data_entry tbl t' ts counters tbl' t :
  add_thread_data tbl t' ts counters = Some tbl' ->
  thread_entry t tbl'
  = if t' =? t then stored t (thread_entry t tbl) (Sample t' ts counters)
    else thread_entry t tbl.
Proof.
  unfold Demo2.add_thread_data, thread_entry, stored.
  cbn [s_timestamp s_counters].
  destruct (Demo2.find_thread t' (Demo2.thread_data tbl)) as [i|] eqn:Hfind.
  - intros [= <-]. cbn [Demo2.thread_data].
    destruct (find_thread_Some _ _ _ Hfind) as (d & Hd & Htid).
    rewrite (find_thread_tids t _ (Demo2.thread_data tbl)).
    2:{ apply tids_alter. intros d0. apply tid_store_sample. }
    destruct (Z.eqb_spec t' t) as [->|Hne].
    + rewrite Hfind, list_lookup_alter_eq, Hd. reflexivity.
    + destruct (Demo2.find_thread t (Demo2.thread_data tbl)) as [j|] eqn:Hj;
        [|reflexivity].
      destruct (find_thread_Some _ _ _ Hj) as (d' & Hd' & Htid').
      rewrite list_lookup_alter_ne; [reflexivity|].
      intros <-. congruence.
  - destruct (if Demo2.thread_capacity tbl =? Demo2.thread_count tbl
              then _ else _) as [capacity|]; [|discriminate].
    intros [= <-]. cbn [Demo2.thread_data]. rewrite find_thread_app.
    rewrite tid_store_sample. cbn [Demo2.tid Demo2.new_thread_data].
    destruct (Z.eqb_spec t' t) as [->|Hne].
    + rewrite Hfind. rewrite lookup_app_r by lia.
      now rewrite Nat.sub_diag.
    + destruct (Demo2.find_thread t (Demo2.thread_data tbl)) as [j|] eqn:Hj;
        [|reflexivity].
      destruct (find_thread_Some _ _ _ Hj) as (d' & Hd' & _).
      rewrite lookup_app_l; [reflexivity|]. eapply lookup_lt_Some, Hd'.
Qed.

Lemma add_thread_data_tids tbl t' ts counters tbl' :
  add_thread_data tbl t' ts counters = Some tbl' ->
  NoDup (map Demo2.tid (Demo2.thread_data tbl)) ->
  NoDup (map Demo2.tid (Demo2.thread_data tbl')).
Proof.
  unfold Demo2.add_thread_data.
  destruct (Demo2.find_thread t' (Demo2.thread_data tbl)) as [i|] eqn:Hfind.
  - intros [= <-] Hnd. cbn [Demo2.thread_data].
    rewrite tids_alter; [exact Hnd|]. intros d. apply tid_store_sample.
  - destruct (if Demo2.thread_capacity tbl =? Demo2.thread_count tbl
              then _ else _) as [capacity|]; [|discriminate].
    intros [= <-] Hnd. cbn [Demo2.thread_data].
    rewrite map_app. cbn [map]. rewrite tid_store_sample.
    cbn [Demo2.tid Demo2.new_thread_data].
    apply NoDup_app. split; [exact Hnd|]. split; [|apply NoDup_singleton].
    intros x Hx Hx'. apply list_elem_of_singleton in Hx'. subst x.
    apply find_thread_None in Hfind.
    apply list_elem_of_fmap in Hx. destruct Hx as (d & Hd & Hin).
    rewrite Forall_forall in Hfind. apply Hfind in Hin. congruence.
Qed.

(** The table after the loop, thread by thread: the element of thread [t]
    is what the complete samples of [t], in stream order, make of the
    element there was. *)
Lemma aggregate_entries t : forall bufs tbl tbl',
  aggregate bufs tbl = Ok (Some tbl') ->
  thread_entry t tbl'
  = fold_left (stored t) (samples_of t bufs) (thread_entry t tbl)
  /\ (NoDup (map Demo2.tid (Demo2.thread_data tbl)) ->
      NoDup (map Demo2.tid (Demo2.thread_data tbl'))).
Proof.
  induction bufs as [|buf rest IH]; intros tbl tbl'.
  - intros [= <-]. split; [reflexivity|auto].
  - unfold samples_of. cbn [Demo2.aggregate samples].
    destruct (negb (Demo2.func KDBG_FUNC_MASK buf =? DBG_FUNC_START));
      [apply IH|].
    destruct (Demo2.tid_of buf =? 0); [apply IH|].
    destruct (read_counter_log buf rest) as [[counters|]|];
      cbn [Demo2.obind]; [| apply IH | discriminate].
    destruct (add_thread_data tbl (Demo2.tid_of buf) (Demo2.timestamp buf)
                counters) as [tbl1|] eqn:Hadd; [|discriminate].
    intros Hagg. destruct (IH tbl1 tbl' Hagg) as [Hentry Hnd].
    split.
    + rewrite Hentry, (add_thread_data_entry _ _ _ _ _ t Hadd).
      cbn [List.filter s_tid].
      now destruct (Demo2.tid_of buf =? t).
    + intros H. apply Hnd. eapply add_thread_data_tids; eauto.
Qed.

Lemma read_counter_log_length buf rest counters :
  read_counter_log buf rest = Ok (Some counters) ->
  length counters = Z.to_nat counter_count.
Proof.
  unfold Demo2.read_counter_log.
  destruct (if Demo2.ci _ <? counter_count then _ else _) as [c|];
    cbn [Demo2.obind]; [|discriminate].
  unfold Demo2.ci.
  destruct (Z.eqb_spec (Z.of_nat (length c)) counter_count) as [Heq|];
    cbn [negb]; [|discriminate].
  intros [= <-]. lia.
Qed.

Lemma samples_length bufs :
  Forall (fun s => length (s_counters s) = Z.to_nat counter_count)
    (samples bufs).
Proof.
  induction bufs as [|buf rest IH]; [constructor|].
  cbn [samples].
  destruct (negb (Demo2.func KDBG_FUNC_MASK buf =? DBG_FUNC_START));
    [exact IH|].
  destruct (Demo2.tid_of buf =? 0); [exact IH|].
  destruct (read_counter_log buf rest) as [[counters|]|] eqn:Hread;
    try exact IH.
  constructor; [|exact IH]. cbn [s_counters].
  eapply read_counter_log_length, Hread.
Qed.

Lemma take_memcpy dst counters :
  length counters = Z.to_nat counter_count ->
  take (Z.to_nat counter_count) (Demo2.memcpy counter_count dst counters)
  = counters.
Proof.
  intros Hlen. unfold Demo2.memcpy.
  rewrite take_app_le by (rewrite length_take; lia).
  rewrite take_take, Nat.min_id. apply take_ge. lia.
Qed.

Lemma stored_later t d s :
  Demo2.timestamp_0 d <> 0 ->
  stored t (Some d) s
  = Some (Demo2.ThreadData (Demo2.tid d) (Demo2.timestamp_0 d)
            (s_timestamp s) (Demo2.counters_0 d)
            (Demo2.memcpy counter_count (Demo2.counters_1 d) (s_counters s))).
Proof.
  intros Hts. unfold stored, Demo2.store_sample. cbn [from_option id].
  apply Z.eqb_neq in Hts. now rewrite Hts.
Qed.

(** The second and later samples of a thread leave the start snapshot and
    put the latest of them in the end snapshot. *)
Lemma fold_later t : forall later d,
  Demo2.timestamp_0 d <> 0 ->
  Forall (fun s => length (s_counters s) = Z.to_nat counter_count) later ->
  exists d',
    fold_left (stored t) later (Some d) = Some d'
    /\ Demo2.tid d' = Demo2.tid d
    /\ Demo2.timestamp_0 d' = Demo2.timestamp_0 d
    /\ Demo2.counters_0 d' = Demo2.counters_0 d
    /\ match last later with
       | None => d' = d
       | Some latest =>
           Demo2.timestamp_1 d' = s_timestamp latest
           /\ take (Z.to_nat counter_count) (Demo2.counters_1 d')
              = s_counters latest
       end.
Proof.
  induction later as [|s rest IH]; intros d Hts Hall.
  - exists d. repeat split.
  - inversion Hall as [|? ? Hs Hrest]; subst.
    cbn [fold_left]. rewrite (stored_later t d s Hts).
    match goal with |- context [fold_left _ rest (Some ?d1)] =>
      destruct (IH d1) as (d' & Hfold & Htid & Ht0 & Hc0 & Hlast);
        [exact Hts|exact Hrest|] end.
    cbn [Demo2.tid Demo2.timestamp_0 Demo2.counters_0] in Htid, Ht0, Hc0.
    exists d'. split; [exact Hfold|]. split; [exact Htid|].
    split; [exact Ht0|]. split; [exact Hc0|].
    rewrite last_cons. destruct (last rest) as [latest|]; [exact Hlast|].
    subst d'. cbn [Demo2.timestamp_1 Demo2.counters_1].
    split; [reflexivity|]. now apply take_memcpy.
Qed.

(** With room for the counters and memory to be had, the loop runs to
    its end. *)
Lemma push_below_defined counters v :
  counter_count <= Z.of_nat KPC_MAX_COUNTERS ->
  exists c, Demo2.push_below counter_count counters v = Ok c.
Proof.
  intros Hfit. unfold Demo2.push_below, Demo2.push, Demo2.ci.
  destruct (Z.ltb_spec (Z.of_nat (length counters)) counter_count);
    [|eauto].
  destruct (Nat.ltb_spec (length counters) KPC_MAX_COUNTERS); [eauto|lia].
Qed.

Lemma read_split_defined t bufs : forall counters,
  counter_count <= Z.of_nat KPC_MAX_COUNTERS ->
  exists c, Demo2.read_split KDBG_FUNC_MASK DBG_FUNC_START counter_count
              t counters bufs = Ok c.
Proof.
  induction bufs as [|buf2 rest IH]; intros counters Hfit; [cbn; eauto|].
  cbn [Demo2.read_split].
  destruct (negb (Demo2.tid_of buf2 =? t)); [eauto|].
  destruct (Demo2.func KDBG_FUNC_MASK buf2 =? DBG_FUNC_START); [eauto|].
  destruct (push_below_defined counters (Demo2.arg1 buf2) Hfit) as [c1 ->].
  cbn [Demo2.obind].
  destruct (push_below_defined c1 (Demo2.arg2 buf2) Hfit) as [c2 ->].
  cbn [Demo2.obind].
  destruct (push_below_defined c2 (Demo2.arg3 buf2) Hfit) as [c3 ->].
  cbn [Demo2.obind].
  destruct (push_below_defined c3 (Demo2.arg4 buf2) Hfit) as [c4 ->].
  cbn [Demo2.obind].
  destruct (Demo2.ci c4 =? counter_count); [eauto|]. now apply IH.
Qed.

Lemma aggregate_defined bufs : forall tbl,
  counter_count <= Z.of_nat KPC_MAX_COUNTERS ->
  (forall size, alloc_ok size = true) ->
  exists tbl', aggregate bufs tbl = Ok (Some tbl').
Proof.
  induction bufs as [|buf rest IH]; intros tbl Hfit Halloc; [cbn; eauto|].
  cbn [Demo2.aggregate].
  destruct (negb (Demo2.func KDBG_FUNC_MASK buf =? DBG_FUNC_START));
    [now apply IH|].
  destruct (Demo2.tid_of buf =? 0); [now apply IH|].
  unfold Demo2.read_counter_log.
  assert (Hsplit : exists c,
            (if Demo2.ci [Demo2.arg1 buf; Demo2.arg2 buf; Demo2.arg3 buf;
                          Demo2.arg4 buf] <? counter_count
             then Demo2.read_split KDBG_FUNC_MASK DBG_FUNC_START
                    counter_count (Demo2.tid_of buf)
                    [Demo2.arg1 buf; Demo2.arg2 buf; Demo2.arg3 buf;
                     Demo2.arg4 buf] rest
             else Ok [Demo2.arg1 buf; Demo2.arg2 buf; Demo2.arg3 buf;
                      Demo2.arg4 buf]) = Ok c).
  { destruct (_ <? counter_count); [|eauto]. now apply read_split_defined. }
  destruct Hsplit as [c ->]. cbn [Demo2.obind].
  destruct (negb (Demo2.ci c =? counter_count)); cbn [Demo2.obind];
    [now apply IH|].
  unfold Demo2.add_thread_data.
  destruct (Demo2.find_thread _ _); [now apply IH|].
  rewrite Halloc.
  destruct (Demo2.thread_capacity tbl =? Demo2.thread_count tbl);
    now apply IH.
Qed.

Lemma samples_of_length t bufs :
  Forall (fun s => length (s_counters s) = Z.to_nat counter_count)
    (samples_of t bufs).
Proof.
  unfold samples_of. apply List.Forall_forall. intros s Hin.
  apply filter_In in Hin. destruct Hin as [Hin _].
  pose proof (samples_length bufs) as Hall.
  rewrite List.Forall_forall in Hall. now apply Hall.
Qed.

(** C9, as the code has it.  With room for the counters and memory to be
    had the decode ends with a table.  In a table it ends with, no two
    elements have the same thread id; a thread without a complete sample
    has no element; and a thread whose first complete sample has a
    timestamp other than 0 has one element, whose start snapshot is that
    first sample and whose end snapshot is the latest of the later samples:
    the second when there are two, the last when there are more, and empty
    (timestamp 0) when there is none. *)
Theorem samples_fill_start_then_end bufs :
  (counter_count <= Z.of_nat KPC_MAX_COUNTERS ->
   (forall size, alloc_ok size = true) ->
   exists tbl,
     Demo2.aggregate_thread_data KDBG_FUNC_MASK DBG_FUNC_START alloc_ok
       counter_count bufs = Ok (Some tbl))
  /\ forall tbl,
       Demo2.aggregate_thread_data KDBG_FUNC_MASK DBG_FUNC_START alloc_ok
         counter_count bufs = Ok (Some tbl) ->
       NoDup (map Demo2.tid (Demo2.thread_data tbl))
       /\ forall t,
            match samples_of t bufs with
            | [] => thread_entry t tbl = None
            | first :: later =>
                s_timestamp first <> 0 ->
                exists d,
                  thread_entry t tbl = Some d /\ Demo2.tid d = t
                  /\ Demo2.timestamp_0 d = s_timestamp first
                  /\ take (Z.to_nat counter_count) (Demo2.counters_0 d)
                     = s_counters first
                  /\ match last later with
                     | None =>
                         Demo2.timestamp_1 d = 0
                         /\ Demo2.counters_1 d = zeros KPC_MAX_COUNTERS
                     | Some latest =>
                         Demo2.timestamp_1 d = s_timestamp latest
                         /\ take (Z.to_nat counter_count) (Demo2.counters_1 d)
                            = s_counters latest
                     end
            end.
Proof.
  unfold Demo2.aggregate_thread_data. split.
  - intros Hfit Halloc. rewrite Halloc. now apply aggregate_defined.
  - intros tbl. destruct (alloc_ok _); [|discriminate]. intros Hagg.
    split.
    { apply (proj2 (aggregate_entries 0 _ _ _ Hagg)). constructor. }
    intros t. destruct (aggregate_entries t _ _ _ Hagg) as [Hentry _].
    change (thread_entry t (Demo2.Table 16 [])) with
      (@None Demo2.kpc_thread_data) in Hentry.
    pose proof (samples_of_length t bufs) as Hlen.
    destruct (samples_of t bufs) as [|first later]; [exact Hentry|].
    intros Hts. inversion Hlen as [|? ? Hfirst Hlater]; subst.
    cbn [fold_left] in Hentry.
    set (d1 := Demo2.ThreadData t (s_timestamp first) 0
                 (Demo2.memcpy counter_count (zeros KPC_MAX_COUNTERS)
                    (s_counters first))
                 (zeros KPC_MAX_COUNTERS)).
    assert (Hd1 : stored t None first = Some d1) by reflexivity.
    rewrite Hd1 in Hentry.
    destruct (fold_later t later d1 Hts Hlater)
      as (d & Hfold & Htid & Ht0 & Hc0 & Hlast).
    exists d. rewrite Hentry. split; [exact Hfold|].
    split; [exact Htid|]. split; [exact Ht0|].
    split; [rewrite Hc0; now apply take_memcpy|].
    destruct (last later) as [latest|]; [exact Hlast|].
    subst d. split; reflexivity.
Qed.

End Accumulate.

Lemma samples_fill_start_then_end_witness :
  exists tbl,
    Demo2.aggregate_thread_data Fake.KDBG_FUNC_MASK Fake.DBG_FUNC_START
      Fake.plenty 4
      [Fake.start_record 100 7 1 2 3 4; Fake.start_record 105 8 21 22 23 24;
       Fake.start_record 110 7 5 6 7 8; Fake.start_record 120 7 9 10 11 12]
    = Ok (Some tbl)
    /\ exists d,
         thread_entry 7 tbl = Some d /\ Demo2.tid d = 7
         /\ Demo2.timestamp_0 d = 100
         /\ take (Z.to_nat 4) (Demo2.counters_0 d) = [1; 2; 3; 4]
         /\ Demo2.timestamp_1 d = 120
         /\ take (Z.to_nat 4) (Demo2.counters_1 d) = [9; 10; 11; 12].
Proof.
  destruct (samples_fill_start_then_end Fake.KDBG_FUNC_MASK
              Fake.DBG_FUNC_START Fake.plenty 4
              [Fake.start_record 100 7 1 2 3 4;
               Fake.start_record 105 8 21 22 23 24;
               Fake.start_record 110 7 5 6 7 8;
               Fake.start_record 120 7 9 10 11 12]) as [Htotal Htable].
  destruct Htotal as [tbl Htbl];
    [vm_compute; discriminate|reflexivity|].
  exists tbl. split; [exact Htbl|].
  destruct (Htable tbl Htbl) as [_ Hthreads]. specialize (Hthreads 7).
  change (samples_of Fake.KDBG_FUNC_MASK Fake.DBG_FUNC_START 4 7 _)
    with [Sample 7 100 [1; 2; 3; 4]; Sample 7 110 [5; 6; 7; 8];
          Sample 7 120 [9; 10; 11; 12]] in Hthreads.
  destruct Hthreads as (d & Hd & Htid & Ht0 & Hc0 & Ht1 & Hc1);
    [discriminate|].
  exists d. auto 7.
Defined.

(** C9, counterexample.  Thread 7 has two complete samples, the first
    with timestamp 0.  Its element ends with the second sample in the start
    snapshot and nothing in the end snapshot: the first sample was
    overwritten. *)
Lemma a_zero_timestamp_start_is_overwritten :
  Fake.summary 4
    (Demo2.aggregate_thread_data Fake.KDBG_FUNC_MASK Fake.DBG_FUNC_START
       Fake.plenty 4
       [Fake.start_record 0 7 1 2 3 4; Fake.start_record 110 7 5 6 7 8])
  = Some [(7, (110, [5; 6; 7; 8]), (0, [0; 0; 0; 0]))].
Proof. vm_compute. reflexivity. Qed.

(** Three samples of one thread: the start snapshot keeps the first, the
    end snapshot has the third, the second is gone. *)
Example three_samples_keep_first_and_last :
  Fake.summary 4
    (Demo2.aggregate_thread_data Fake.KDBG_FUNC_MASK Fake.DBG_FUNC_START
       Fake.plenty 4
       [Fake.start_record 100 7 1 2 3 4; Fake.start_record 110 7 5 6 7 8;
        Fake.start_record 120 7 9 10 11 12])
  = Some [(7, (100, [1; 2; 3; 4]), (120, [9; 10; 11; 12]))].
Proof. vm_compute. reflexivity. Qed.

(** * Runs that get through the steps *)

Lemma runs_value {A} (m : M A) w (Q : A -> world -> list event -> Prop) a w1 :
  runs m w Q -> m w = Ok (a, w1) ->
  exists l, w_log w1 = w_log w ++ l /\ Q a w1 l.
Proof.
  intros (a' & w' & l & H & Hl & HQ) Hv. rewrite Hv in H.
  injection H as <- <-. eauto.
Qed.

Lemma loads_value env w :
  Fake.value_of (lib_init env w) = Some true -> loads env w.
Proof.
  unfold loads. destruct (lib_init env w) as [[b w1]|]; [|discriminate].
  intros [= ->]. eauto.
Qed.

(** A step that returns nothing, followed by the rest: what holds of the
    last calls of the rest holds of the last calls of both. *)
Lemma passes_then (m1 m2 : M (option string)) w
    (Q : option string -> world -> list event -> Prop) :
  runs m1 w (fun res w' _ => res = None /\ ready w') ->
  (forall w1, ready w1 ->
     runs m2 w1 (fun res w' l => exists pre suf, l = pre ++ suf /\ Q res w' suf)) ->
  runs (m1 ;;; m2) w
    (fun res w' l => exists pre suf, l = pre ++ suf /\ Q res w' suf).
Proof.
  intros H1 H2. eapply runs_and_then; [exact H1| |].
  - intros msg w1 l1 [[=] _].
  - intros w1 l1 [_ Hr]. eapply runs_weaken; [apply H2, Hr|].
    intros res w2 l2 (pre & suf & -> & HQ).
    exists (l1 ++ pre), suf. now rewrite app_assoc.
Qed.

(** Use that the calls of [H] return 0. *)
Ltac pass_with H :=
  repeat match goal with
         | |- context [r_ret (?env ?log ?c) =? 0] =>
             rewrite (H log c eq_refl)
         end;
  cbn [Z.eqb negb].

(** A step whose calls return 0 returns nothing; [Hruns] is what is known
    of the step, with the state it leaves. *)
Ltac step_passes Hruns H :=
  match goal with
  | Hr : ready ?w |- _ =>
      let Hv := fresh "Hv" in
      destruct (Hruns Hr) as (res & w' & l & Hv & Hl & Hr' & _);
      exists res, w', l; split; [exact Hv|]; split; [exact Hl|];
      split; [|exact Hr'];
      destruct Hr as [Hb Hs]; revert Hv;
      unfold check_permission, load_pmc_db, create_config, query_config;
      repeat (run; pass_with H); unfold ret;
      intros [= <- _]; reflexivity
  end.

Section Passing.

Variable env : oracle.

Lemma load_dylib_passes w :
  loads env w -> consistent (w_lib w) -> sized (w_demo w) ->
  runs (load_dylib env) w (fun res w' _ => res = None /\ ready w').
Proof.
  intros [w1 Hload] Hc Hs.
  assert (Hv : load_dylib env w = Ok (None, w1)).
  { unfold load_dylib. rewrite (bind_run _ _ _ _ _ Hload). reflexivity. }
  destruct (runs_value _ _ _ _ _ (load_dylib_runs env w Hc Hs) Hv)
    as (l & Hl & Hs1 & _ & Hb).
  exists None, w1, l. split; [exact Hv|]. split; [exact Hl|].
  split; [reflexivity|]. split; [now apply Hb|exact Hs1].
Qed.

Hypothesis prepared : succeed prepares env.

Lemma check_permission_passes w :
  ready w ->
  runs (check_permission env) w (fun res w' _ => res = None /\ ready w').
Proof.
  intros Hr. unfold runs.
  step_passes (check_permission_runs env w) prepared.
Qed.

Lemma load_pmc_db_passes w :
  ready w ->
  runs (load_pmc_db env) w (fun res w' _ => res = None /\ ready w').
Proof.
  intros Hr. unfold runs.
  step_passes (load_pmc_db_runs env w) prepared.
Qed.

Lemma create_config_passes w :
  ready w ->
  runs (create_config env) w (fun res w' _ => res = None /\ ready w').
Proof.
  intros Hr. unfold runs.
  step_passes (create_config_runs env w) prepared.
Qed.

(** The steps before the lookups, followed by the rest. *)
Lemma prepare_then (m : M (option string)) w
    (Q : option string -> world -> list event -> Prop) :
  loads env w -> consistent (w_lib w) -> sized (w_demo w) ->
  (forall w1, ready w1 ->
     runs m w1 (fun res w' l => exists pre suf, l = pre ++ suf /\ Q res w' suf)) ->
  runs (load_dylib env ;;; check_permission env ;;; load_pmc_db env ;;;
        create_config env ;;; m) w
    (fun res w' l => exists pre suf, l = pre ++ suf /\ Q res w' suf).
Proof.
  intros Hload Hc Hs Hm.
  apply passes_then; [now apply load_dylib_passes|]. intros w1 Hr1.
  apply passes_then; [now apply check_permission_passes|]. intros w2 Hr2.
  apply passes_then; [now apply load_pmc_db_passes|]. intros w3 Hr3.
  apply passes_then; [now apply create_config_passes|]. exact Hm.
Qed.

End Passing.

(** ** The alias that is not in the database *)

Section FirstMatch.

Variable env : oracle.
Variable cat : string -> reply.
Hypothesis env_cat : forall log d name, env log (kpep_db_event d name) = cat name.

(** The run gets through the steps before the lookups and returns from
    the lookup of [a]. *)
Lemma init_missing_runs before a after w :
  loads env w -> consistent (w_lib w) -> sized (w_demo w) ->
  succeed prepares env ->
  profile_events = before ++ a :: after ->
  Forall (resolves cat) before ->
  Forall (fun n => ~ present cat n) (candidates a) ->
  runs (performance_counters_init env) w
    (fun res _ l => exists pre suf, l = pre ++ suf /\ res = Some (alias a)).
Proof.
  intros Hload Hc Hs Hprep Hsplit Hres Hmiss.
  unfold performance_counters_init.
  apply (prepare_then env Hprep _ w (fun res _ _ => res = Some (alias a)));
    try assumption.
  intros w1 Hr1. eapply runs_and_then.
  - rewrite Hsplit.
    apply (get_events_missing env cat env_cat a after before 0 w1 Hr1);
      [|exact Hres|exact Hmiss].
    rewrite <- Hsplit. reflexivity.
  - intros msg w2 l2 H. exists [], l2. auto.
  - intros w2 l2 [=].
Qed.

(** C3.  For a database that answers a lookup by the name alone:
    [get_event] looks up the candidate names of the alias in list order,
    stops at the first one the database has and returns its handle, whatever
    the candidates after it; when the database has none of the candidates
    before the null that ends the list, it has looked up them all and
    returns null.  And when, in [performance_counters_init], the aliases
    before [a] resolve and [a] has no candidate in the database, the
    initialisation returns the display name of [a]: in every run in which
    [kpep_config_force_counters], the step before the lookups, succeeded,
    and so whenever the libraries load and the calls of the steps before
    the lookups return 0. *)
Theorem get_event_returns_first_match :
  (forall w d a pre name post,
     bound (w_lib w) ->
     candidates a = pre ++ name :: post ->
     Forall (fun n => ~ present cat n) pre -> present cat name ->
     get_event env d a w
     = Ok (handle cat name,
           World (w_lib w) (w_demo w)
             (w_log w ++ lookups cat d (pre ++ [name]))))
  /\ (forall w d a,
        bound (w_lib w) ->
        Forall (fun n => ~ present cat n) (candidates a) ->
        get_event env d a w
        = Ok (NULL,
              World (w_lib w) (w_demo w)
                (w_log w ++ lookups cat d (candidates a))))
  /\ (forall w before a after,
        consistent (w_lib w) -> sized (w_demo w) ->
        profile_events = before ++ a :: after ->
        Forall (resolves cat) before ->
        Forall (fun n => ~ present cat n) (candidates a) ->
        exists res w',
          performance_counters_init env w = Ok (res, w')
          /\ ((exists c r,
                 In (kpep_config_force_counters c, r) (calls_since w w')
                 /\ r_ret r = 0) ->
              res = Some (alias a))
          /\ (loads env w -> succeed prepares env ->
              res = Some (alias a))).
Proof.
  split; [|split].
  - intros w d a pre name post Hb Hc Hpre Hn.
    now apply (get_event_loop_hit env cat env_cat d pre name post).
  - intros w d a Hb Hmiss. now apply (get_event_loop_miss env cat env_cat).
  - intros w before a after Hc Hs Hsplit Hres Hmiss.
    destruct (init_lookup_runs env cat env_cat before a after w Hc Hs Hsplit
                Hres Hmiss) as (res & w' & l & Hrun & Hl & Hout).
    exists res, w'. split; [exact Hrun|]. split.
    + rewrite (calls_since_app w w' _ Hl). intros (c & r & Hin & Hr).
      apply Hout. exists (kpep_config_force_counters c, r).
      split; [exact Hin|]. split; [reflexivity|exact Hr].
    + intros Hload Hprep.
      destruct (runs_value _ _ _ _ _
                  (init_missing_runs before a after w Hload Hc Hs Hprep
                     Hsplit Hres Hmiss) Hrun) as (_ & _ & _ & _ & _ & H).
      exact H.
Qed.

End FirstMatch.

Lemma get_event_returns_first_match_witness :
  get_event (Fake.fake Fake.intel) 100 Fake.cycles (Fake.configured Fake.intel)
  = Ok (1000,
        World (w_lib (Fake.configured Fake.intel))
          (w_demo (Fake.configured Fake.intel))
          (w_log (Fake.configured Fake.intel)
           ++ lookups (Fake.catalog Fake.intel) 100
                (["FIXED_CYCLES"] ++ ["CPU_CLK_UNHALTED.THREAD"])))
  /\ exists w',
       performance_counters_init (Fake.fake Fake.no_branches) world0
       = Ok (Some "branches", w').
Proof.
  split.
  - apply (proj1 (get_event_returns_first_match (Fake.fake Fake.intel)
                    (Fake.catalog Fake.intel) (fun _ _ _ => eq_refl))
             (Fake.configured Fake.intel) 100 Fake.cycles
             ["FIXED_CYCLES"] "CPU_CLK_UNHALTED.THREAD"
             ["CPU_CLK_UNHALTED.CORE"]).
    + apply boundb_bound. vm_compute. reflexivity.
    + reflexivity.
    + repeat constructor. intros H. vm_compute in H. discriminate H.
    + vm_compute. reflexivity.
  - destruct (proj2 (proj2 (get_event_returns_first_match
                              (Fake.fake Fake.no_branches)
                              (Fake.catalog Fake.no_branches)
                              (fun _ _ _ => eq_refl)))
                world0 [Fake.cycles; Fake.instructions] Fake.branches
                [Fake.branch_misses])
      as (res & w' & Hrun & _ & Hres).
    + intros H. discriminate H.
    + vm_compute. auto 6.
    + reflexivity.
    + repeat constructor.
      * exists [], "FIXED_CYCLES",
          ["CPU_CLK_UNHALTED.THREAD"; "CPU_CLK_UNHALTED.CORE"].
        split; [reflexivity|]. split; [constructor|].
        split; [vm_compute; reflexivity|]. vm_compute. discriminate.
      * exists [], "FIXED_INSTRUCTIONS", ["INST_RETIRED.ANY"].
        split; [reflexivity|]. split; [constructor|].
        split; [vm_compute; reflexivity|]. vm_compute. discriminate.
    + repeat constructor; intros H; vm_compute in H; discriminate H.
    + exists w'. rewrite Hrun. f_equal. f_equal. apply Hres.
      * apply loads_value. vm_compute. reflexivity.
      * intros log c Hc. destruct c; try discriminate Hc; reflexivity.
Defined.

(** ** The write of the registers *)

Section Configuration.

Variable env : oracle.
Variable cat : string -> reply.
Hypothesis env_cat : forall log d name, env log (kpep_db_event d name) = cat name.
Hypothesis configured : succeed configures env.

(** Aliases that resolve are all looked up. *)
Lemma get_events_resolved aliases : forall i w,
  ready w -> (i + length aliases <= ev_count)%nat ->
  Forall (resolves cat) aliases ->
  runs (get_events env i aliases) w (fun res w' _ => res = None /\ ready w').
Proof.
  induction aliases as [|b rest IH]; intros i w [Hb Hs] Hi Hres.
  - apply runs_ret. split; [reflexivity|split; assumption].
  - assert (Hlen : (i < length (ev_arr (w_demo w)))%nat)
      by (destruct Hs as (_ & _ & _ & _ & ->); cbn [length] in Hi; lia).
    inversion Hres as [|? ? (pre & name & post & Hc & Hpre & Hn & Hh) Hres'];
      subst.
    cbn [get_events]. unfold runs. rewrite bind_get_demo.
    unfold get_event.
    rewrite (bind_run _ _ _ _ _
               (get_event_loop_hit env cat env_cat _ pre name post _ w
                  Hb Hc Hpre Hn)).
    rewrite (bind_run _ _ _ _ _
               (array_set_run _ i (handle cat name) _ Hlen)).
    run_pure. apply Z.eqb_neq in Hh. rewrite Hh.
    match goal with |- context [get_events env (S i) _ ?w1] =>
      destruct (IH (S i) w1) as (res & w2 & l2 & -> & Hl2 & Hnone & Hr2) end.
    + split; cbn [w_lib w_demo]; [exact Hb|solve_sized].
    + cbn [length] in Hi. lia.
    + exact Hres'.
    + cbn [w_log] in Hl2. rewrite <- app_assoc in Hl2.
      eexists _, w2, _. split; [reflexivity|]. split; [exact Hl2|].
      split; assumption.
Qed.

Lemma add_events_passes indices : forall w,
  ready w -> Forall (fun i => (i < ev_count)%nat) indices ->
  runs (add_events env indices) w (fun res w' _ => res = None /\ ready w').
Proof.
  induction indices as [|i rest IH]; intros w [Hb Hs] Hall.
  - apply runs_ret. split; [reflexivity|split; assumption].
  - inversion Hall as [|? ? Hi Hrest]; subst.
    cbn [add_events]. unfold runs. rewrite bind_get_demo.
    destruct (lookup_lt_is_Some_2 (ev_arr (w_demo w)) i) as [ev Hev].
    { destruct Hs as (_ & _ & _ & _ & ->). exact Hi. }
    assert (Hev' : ev_arr (w_demo w) !! Z.to_nat (Z.of_nat i) = Some ev)
      by now rewrite Nat2Z.id.
    rewrite (bind_run _ _ _ _ _
               (array_get_run _ (Z.of_nat i) ev w (Nat2Z.is_nonneg i) Hev')).
    run. pass_with configured.
    match goal with |- context [add_events env rest ?w1] =>
      destruct (IH w1) as (res & w2 & l2 & -> & Hl2 & Hnone & Hr2) end;
      [split; assumption|exact Hrest|].
    unfold record in Hl2. cbn [w_log] in Hl2. rewrite <- app_assoc in Hl2.
    eexists res, w2, _. split; [reflexivity|]. split; [exact Hl2|].
    split; assumption.
Qed.

Lemma query_config_passes w :
  ready w ->
  runs (query_config env) w (fun res w' _ => res = None /\ ready w').
Proof.
  intros Hr. unfold runs.
  step_passes (query_config_runs env w) configured.
Qed.

(** The last step, when the forcing of the counters succeeds. *)
Lemma set_config_to_kernel_forced w :
  ready w ->
  runs (set_config_to_kernel env) w
    (fun res w' l =>
       set_config_outcome res w' l /\ res <> Some "Failed force all ctrs").
Proof.
  intros Hr.
  destruct (set_config_to_kernel_runs env w Hr)
    as (res & w' & l & Hv & Hl & Hout).
  exists res, w', l. split; [exact Hv|]. split; [exact Hl|].
  split; [exact Hout|]. destruct Hr as [Hb Hs]. revert Hv.
  unfold set_config_to_kernel. run. pass_with configured. run.
  destruct (negb _ && negb _).
  - run. destruct (negb _); unfold ret; intros [= <- _]; discriminate.
  - unfold ret. intros [= <- _]. discriminate.
Qed.

Hypothesis prepared : succeed prepares env.

Lemma init_configures_runs w :
  loads env w -> consistent (w_lib w) -> sized (w_demo w) ->
  Forall (resolves cat) profile_events ->
  runs (performance_counters_init env) w
    (fun res w' l =>
       exists pre suf,
         l = pre ++ suf
         /\ set_config_outcome res w' suf
         /\ res <> Some "Failed force all ctrs").
Proof.
  intros Hload Hc Hs Hres. unfold performance_counters_init.
  apply (prepare_then env prepared _ w
           (fun res w' suf =>
              set_config_outcome res w' suf
              /\ res <> Some "Failed force all ctrs")); try assumption.
  intros w1 Hr1.
  apply passes_then; [now apply get_events_resolved|]. intros w2 Hr2.
  apply passes_then.
  { apply add_events_passes; [exact Hr2|].
    apply List.Forall_forall. intros i Hi. apply in_seq in Hi. lia. }
  intros w3 Hr3.
  apply passes_then; [now apply query_config_passes|]. intros w4 Hr4.
  eapply runs_weaken; [apply set_config_to_kernel_forced, Hr4|].
  intros res w' l H. exists [], l. auto.
Qed.

End Configuration.


(** The catalog of a fake machine is what the machine answers. *)
Ltac solve_resolves :=
  repeat (apply List.Forall_cons;
          [eexists [], _, _; split; [reflexivity|]; split; [constructor|];
           split; [vm_compute; reflexivity|vm_compute; discriminate]|]);
  apply List.Forall_nil.


(** ** The decode of a stream *)

Section Reassembly.

Variables KDBG_FUNC_MASK DBG_FUNC_START : Z.
Variable alloc_ok : Z -> bool.
Variable counter_count : Z.

Abbreviation read_counter_log :=
  (Demo2.read_counter_log KDBG_FUNC_MASK DBG_FUNC_START counter_count).
Abbreviation aggregate :=
  (Demo2.aggregate KDBG_FUNC_MASK DBG_FUNC_START alloc_ok counter_count).
Abbreviation aggregate_thread_data :=
  (Demo2.aggregate_thread_data KDBG_FUNC_MASK DBG_FUNC_START alloc_ok
     counter_count).
Abbreviation begins := (begins KDBG_FUNC_MASK DBG_FUNC_START).
Abbreviation continues := (continues KDBG_FUNC_MASK DBG_FUNC_START).
Abbreviation stops := (stops KDBG_FUNC_MASK DBG_FUNC_START).

(** The outer loop at a record that begins a sample. *)
Lemma aggregate_begins buf rest tbl :
  begins buf ->
  aggregate (buf :: rest) tbl
  = Demo2.obind (read_counter_log buf rest) (fun sample =>
      match sample with
      | None => aggregate rest tbl
      | Some counters =>
          match Demo2.add_thread_data alloc_ok counter_count tbl
                  (Demo2.tid_of buf) (Demo2.timestamp buf) counters with
          | None => Ok None
          | Some tbl' => aggregate rest tbl'
          end
      end).
Proof.
  intros [Hf Ht]. cbn [Demo2.aggregate].
  apply Z.eqb_eq in Hf. rewrite Hf. cbn [negb].
  apply Z.eqb_neq in Ht. now rewrite Ht.
Qed.

(** Records that begin nothing leave the table as it is. *)
Lemma aggregate_none_begin rest : forall tbl,
  Forall (fun b => ~ begins b) rest -> aggregate rest tbl = Ok (Some tbl).
Proof.
  induction rest as [|b rest IH]; intros tbl Hall; [reflexivity|].
  inversion Hall as [|? ? Hb Hrest]; subst.
  rewrite aggregate_skips by exact Hb. now apply IH.
Qed.

Lemma continues_not_begins t conts :
  Forall (continues t) conts -> Forall (fun b => ~ begins b) conts.
Proof.
  intros Hall. eapply List.Forall_impl; [|exact Hall].
  intros b [_ Hf] [Hf' _]. contradiction.
Qed.

(** A start record reads its sample with as many of the records after it
    as it needs, whatever the number of counters from 4 on. *)
Lemma read_counter_log_whole buf conts rest :
  4 <= counter_count <= Z.of_nat KPC_MAX_COUNTERS ->
  Forall (continues (Demo2.tid_of buf)) conts ->
  counter_count <= 4 + 4 * Z.of_nat (length conts) ->
  read_counter_log buf (conts ++ rest)
  = Ok (Some (take (Z.to_nat counter_count)
                (args buf ++ flat_map args conts))).
Proof.
  intros Hrange Hall Hge.
  destruct (Z.eq_dec counter_count 4) as [H4|H4].
  - rewrite read_counter_log_four by exact H4. rewrite H4.
    rewrite take_app_le by (change (length (args buf)) with 4%nat; lia).
    reflexivity.
  - apply read_counter_log_complete; [exact Hrange|lia|exact Hall|exact Hge].
Qed.

(** C8.  The decode of an empty stream is the empty table, and a record
    that has not both the start flag and a thread id other than 0 begins
    nothing.  One that has begins a sample whose first four values are its
    four argument words: with 4 counters that is the whole sample; with
    more, and no more than the [KPC_MAX_COUNTERS] the array of the sample
    holds, the records that follow at once with the same thread id and
    without the start flag each add their argument words in order, up to
    [counter_count] values, and the sample is then added to the thread's
    data.  When those records give fewer than [counter_count] values before
    the stream ends or a record has another thread id or the start flag,
    nothing is read and the table stays as it was.  So the decode of a
    stream that is one complete sample, followed by records that begin
    nothing, yields the one element with the sample's thread, time and
    values; and the decode of a stream that begins with a truncated sample
    is the decode of what follows it, the empty table when nothing
    does. *)
Theorem decode_reassembles_split_samples :
  (forall tbl, aggregate [] tbl = Ok (Some tbl))
  /\ (forall buf rest tbl,
        ~ begins buf -> aggregate (buf :: rest) tbl = aggregate rest tbl)
  /\ (forall buf rest tbl,
        begins buf -> counter_count = 4 ->
        read_counter_log buf rest = Ok (Some (args buf))
        /\ aggregate (buf :: rest) tbl
           = match Demo2.add_thread_data alloc_ok counter_count tbl
                     (Demo2.tid_of buf) (Demo2.timestamp buf) (args buf) with
             | Some tbl' => aggregate rest tbl'
             | None => Ok None
             end)
  /\ (forall buf conts rest tbl,
        begins buf ->
        4 < counter_count -> counter_count <= Z.of_nat KPC_MAX_COUNTERS ->
        Forall (continues (Demo2.tid_of buf)) conts ->
        counter_count <= 4 + 4 * Z.of_nat (length conts) ->
        read_counter_log buf (conts ++ rest)
        = Ok (Some (take (Z.to_nat counter_count)
                      (args buf ++ flat_map args conts)))
        /\ aggregate (buf :: conts ++ rest) tbl
           = match Demo2.add_thread_data alloc_ok counter_count tbl
                     (Demo2.tid_of buf) (Demo2.timestamp buf)
                     (take (Z.to_nat counter_count)
                        (args buf ++ flat_map args conts)) with
             | Some tbl' => aggregate (conts ++ rest) tbl'
             | None => Ok None
             end)
  /\ (forall buf conts rest tbl,
        begins buf -> counter_count <= Z.of_nat KPC_MAX_COUNTERS ->
        Forall (continues (Demo2.tid_of buf)) conts ->
        4 + 4 * Z.of_nat (length conts) < counter_count ->
        stops (Demo2.tid_of buf) rest ->
        read_counter_log buf (conts ++ rest) = Ok None
        /\ aggregate (buf :: conts ++ rest) tbl = aggregate rest tbl)
  /\ (forall buf conts rest,
        alloc_ok (16 * Demo2.sizeof_kpc_thread_data) = true ->
        begins buf ->
        4 <= counter_count -> counter_count <= Z.of_nat KPC_MAX_COUNTERS ->
        Forall (continues (Demo2.tid_of buf)) conts ->
        counter_count <= 4 + 4 * Z.of_nat (length conts) ->
        Forall (fun b => ~ begins b) rest ->
        aggregate_thread_data (buf :: conts ++ rest)
        = Ok (Some (Demo2.Table 16
                      [Demo2.ThreadData (Demo2.tid_of buf)
                         (Demo2.timestamp buf) 0
                         (take (Z.to_nat counter_count)
                            (args buf ++ flat_map args conts)
                          ++ drop (Z.to_nat counter_count)
                               (zeros KPC_MAX_COUNTERS))
                         (zeros KPC_MAX_COUNTERS)])))
  /\ (forall buf conts rest,
        begins buf -> counter_count <= Z.of_nat KPC_MAX_COUNTERS ->
        Forall (continues (Demo2.tid_of buf)) conts ->
        4 + 4 * Z.of_nat (length conts) < counter_count ->
        stops (Demo2.tid_of buf) rest ->
        aggregate_thread_data (buf :: conts ++ rest)
        = aggregate_thread_data rest
        /\ (alloc_ok (16 * Demo2.sizeof_kpc_thread_data) = true ->
            aggregate_thread_data (buf :: conts)
            = Ok (Some (Demo2.Table 16 [])))).
Proof.
  assert (Htrunc : forall buf conts rest tbl,
            begins buf -> counter_count <= Z.of_nat KPC_MAX_COUNTERS ->
            Forall (continues (Demo2.tid_of buf)) conts ->
            4 + 4 * Z.of_nat (length conts) < counter_count ->
            stops (Demo2.tid_of buf) rest ->
            read_counter_log buf (conts ++ rest) = Ok None
            /\ aggregate (buf :: conts ++ rest) tbl = aggregate rest tbl).
  { intros buf conts rest tbl Hb Hmax Hall Hlt Hstop.
    assert (Hread : read_counter_log buf (conts ++ rest) = Ok None).
    { apply read_counter_log_truncated; [lia|exact Hall|exact Hlt|exact Hstop]. }
    split; [exact Hread|].
    rewrite (aggregate_begins _ _ _ Hb), Hread. cbn [Demo2.obind].
    clear - Hall. induction conts as [|c cs IH]; [reflexivity|].
    inversion Hall as [|? ? [_ Hc] Hcs]; subst.
    cbn [app]. rewrite aggregate_skips; [now apply IH|].
    intros [Hf _]. contradiction. }
  split; [reflexivity|]. split; [apply aggregate_skips|].
  split; [|split; [|split; [exact Htrunc|split]]].
  - intros buf rest tbl Hb H4.
    rewrite (aggregate_begins _ _ _ Hb), (read_counter_log_four _ _ _ _ _ H4).
    cbn [Demo2.obind]. split; [reflexivity|].
    now destruct (Demo2.add_thread_data _ _ _ _ _ _).
  - intros buf conts rest tbl Hb H4 Hmax Hall Hge.
    assert (Hread : read_counter_log buf (conts ++ rest)
                    = Ok (Some (take (Z.to_nat counter_count)
                                  (args buf ++ flat_map args conts)))).
    { apply read_counter_log_complete; [lia|exact H4|exact Hall|exact Hge]. }
    rewrite (aggregate_begins _ _ _ Hb), Hread.
    cbn [Demo2.obind]. split; [reflexivity|].
    now destruct (Demo2.add_thread_data _ _ _ _ _ _).
  - intros buf conts rest Halloc Hb H4 Hmax Hall Hge Hrest.
    unfold Demo2.aggregate_thread_data. rewrite Halloc.
    rewrite (aggregate_begins _ _ _ Hb).
    rewrite read_counter_log_whole by (auto; lia).
    cbn [Demo2.obind].
    unfold Demo2.add_thread_data.
    change (Demo2.thread_count (Demo2.Table 16 [])) with 0.
    cbn [Demo2.thread_data Demo2.find_thread Demo2.thread_capacity
         Z.eqb app].
    rewrite aggregate_none_begin.
    + unfold Demo2.store_sample, Demo2.new_thread_data.
      cbn [Demo2.timestamp_0 Demo2.tid Demo2.timestamp_1 Demo2.counters_0
           Demo2.counters_1 Z.eqb].
      unfold Demo2.memcpy. rewrite take_take, Nat.min_id. reflexivity.
    + apply Forall_app. split; [|exact Hrest].
      eapply continues_not_begins, Hall.
  - intros buf conts rest Hb Hmax Hall Hlt Hstop. split.
    + unfold Demo2.aggregate_thread_data.
      destruct (alloc_ok _); [|reflexivity].
      now apply Htrunc.
    + intros Halloc.
      rewrite <- (app_nil_r conts).
      unfold Demo2.aggregate_thread_data. rewrite Halloc.
      destruct (Htrunc buf conts [] (Demo2.Table 16 []) Hb Hmax Hall Hlt I)
        as [_ ->].
      reflexivity.
Qed.

End Reassembly.

Lemma decode_reassembles_split_samples_witness :
  Demo2.aggregate_thread_data Fake.KDBG_FUNC_MASK Fake.DBG_FUNC_START
    Fake.plenty 5
    (Fake.start_record 100 7 1 2 3 4 :: [Fake.more_record 101 7 5 0 0 0] ++ [])
  = Ok (Some (Demo2.Table 16
                [Demo2.ThreadData 7 100 0
                   ([1; 2; 3; 4; 5] ++ zeros 27) (zeros KPC_MAX_COUNTERS)]))
  /\ Demo2.aggregate_thread_data Fake.KDBG_FUNC_MASK Fake.DBG_FUNC_START
       Fake.plenty 5
       (Fake.start_record 100 7 1 2 3 4
        :: [] ++ [Fake.more_record 101 8 5 0 0 0])
     = Ok (Some (Demo2.Table 16 []))
  /\ Demo2.read_counter_log Fake.KDBG_FUNC_MASK Fake.DBG_FUNC_START 5
       (Fake.start_record 100 7 1 2 3 4)
       ([Fake.more_record 101 7 5 0 0 0] ++ [])
     = Ok (Some [1; 2; 3; 4; 5])
  /\ Demo2.read_counter_log Fake.KDBG_FUNC_MASK Fake.DBG_FUNC_START 5
       (Fake.start_record 100 7 1 2 3 4)
       ([] ++ [Fake.more_record 101 8 5 0 0 0])
     = Ok None.
Proof.
  assert (Hmax : 5 <= Z.of_nat KPC_MAX_COUNTERS) by (vm_compute; discriminate).
  assert (Hbegins : begins Fake.KDBG_FUNC_MASK Fake.DBG_FUNC_START
                      (Fake.start_record 100 7 1 2 3 4)).
  { split; [reflexivity|discriminate]. }
  assert (Hcont : Forall (continues Fake.KDBG_FUNC_MASK Fake.DBG_FUNC_START
                            (Demo2.tid_of (Fake.start_record 100 7 1 2 3 4)))
                    [Fake.more_record 101 7 5 0 0 0]).
  { repeat constructor. discriminate. }
  assert (Hstop : stops Fake.KDBG_FUNC_MASK Fake.DBG_FUNC_START
                    (Demo2.tid_of (Fake.start_record 100 7 1 2 3 4))
                    [Fake.more_record 101 8 5 0 0 0]).
  { intros [Ht _]. discriminate Ht. }
  destruct (decode_reassembles_split_samples Fake.KDBG_FUNC_MASK
              Fake.DBG_FUNC_START Fake.plenty 5)
    as (_ & _ & _ & Hmore & Htrunc & Hone & Hnone).
  split; [|split; [|split]].
  - apply (Hone _ [Fake.more_record 101 7 5 0 0 0] [] eq_refl Hbegins).
    + lia.
    + exact Hmax.
    + exact Hcont.
    + vm_compute. discriminate.
    + constructor.
  - destruct (Hnone _ [] [Fake.more_record 101 8 5 0 0 0] Hbegins Hmax)
      as [-> _].
    + constructor.
    + reflexivity.
    + exact Hstop.
    + vm_compute. reflexivity.
  - apply (Hmore _ [Fake.more_record 101 7 5 0 0 0] []
             (Demo2.Table 16 []) Hbegins).
    + reflexivity.
    + exact Hmax.
    + exact Hcont.
    + vm_compute. discriminate.
  - apply (Htrunc _ [] [Fake.more_record 101 8 5 0 0 0]
             (Demo2.Table 16 []) Hbegins Hmax).
    + constructor.
    + reflexivity.
    + exact Hstop.
Defined.

(** * Further properties *)

(** ** kdebug_trace_read, with a buffer *)

(** X1.  With a buffer and a length other than 0, [kdebug_trace_read]
    makes exactly one kernel read.  When the read fails its return value is
    passed on and the count, if there is one, is 0.  When it succeeds the
    result is 0 and the count is the length the kernel stored back; with a
    null count pointer the store goes through the null pointer. *)
Theorem kdebug_trace_read_reads_once env buf len count w :
  buf <> NULL -> len <> 0 ->
  (r_ret (env (w_log w) (sysctl_KERN_KDREADTR buf len)) <> 0 ->
   kdebug_trace_read env buf len count w
   = Ok ((r_ret (env (w_log w) (sysctl_KERN_KDREADTR buf len)),
          match count with Some _ => Some 0 | None => None end),
         record (sysctl_KERN_KDREADTR buf len)
           (env (w_log w) (sysctl_KERN_KDREADTR buf len)) w))
  /\ (r_ret (env (w_log w) (sysctl_KERN_KDREADTR buf len)) = 0 ->
      kdebug_trace_read env buf len count w
      = match count with
        | Some _ =>
            Ok ((0,
                 Some (default len
                         (r_out (env (w_log w)
                                   (sysctl_KERN_KDREADTR buf len))))),
                record (sysctl_KERN_KDREADTR buf len)
                  (env (w_log w) (sysctl_KERN_KDREADTR buf len)) w)
        | None => Undefined
        end).
Proof.
  intros Hbuf Hlen. unfold kdebug_trace_read.
  apply Z.eqb_neq in Hbuf. apply Z.eqb_neq in Hlen. rewrite Hbuf, Hlen.
  cbn [orb]. rewrite bind_extern by reflexivity.
  split; intros Hr.
  - apply Z.eqb_neq in Hr. rewrite Hr. reflexivity.
  - rewrite Hr. cbn [Z.eqb negb]. now destruct count.
Qed.

Lemma kdebug_trace_read_reads_once_witness :
  kdebug_trace_read (Fake.fake Fake.apple) 4096 64 (Some 7) world0
  = Ok ((0, Some 3),
        record (sysctl_KERN_KDREADTR 4096 64) (Reply 0 (Some 3) [] "") world0).
Proof.
  apply (proj2 (kdebug_trace_read_reads_once (Fake.fake Fake.apple) 4096 64
                  (Some 7) world0 ltac:(discriminate) ltac:(discriminate))).
  reflexivity.
Defined.

(** ** kpep_config_error_desc *)

(** X2.  [kpep_config_error_desc] gives, for a code from 0 to 15, the
    entry of [kpep_config_error_names] with that index, and "unknown error"
    for every other code, negative ones too; the 16 names differ from each
    other and from "unknown error", so the description tells the code. *)
Theorem kpep_config_error_desc_tells_the_code code :
  (0 <= code < KPEP_CONFIG_ERROR_MAX ->
   kpep_config_error_names !! Z.to_nat code
   = Some (kpep_config_error_desc code)
   /\ kpep_config_error_desc code <> "unknown error"
   /\ forall code', 0 <= code' < KPEP_CONFIG_ERROR_MAX ->
        kpep_config_error_desc code' = kpep_config_error_desc code ->
        code' = code)
  /\ (code < 0 \/ KPEP_CONFIG_ERROR_MAX <= code ->
      kpep_config_error_desc code = "unknown error").
Proof.
  assert (Hcases : forall c, 0 <= c < KPEP_CONFIG_ERROR_MAX ->
            In c (map Z.of_nat (seq 0 16))).
  { intros c Hc. unfold KPEP_CONFIG_ERROR_MAX in Hc.
    apply in_map_iff. exists (Z.to_nat c). split; [lia|].
    apply in_seq. lia. }
  split.
  - intros Hc. apply Hcases in Hc. cbn in Hc.
    split; [|split].
    + repeat (destruct Hc as [<-|Hc]; [reflexivity|]). destruct Hc.
    + repeat (destruct Hc as [<-|Hc]; [discriminate|]). destruct Hc.
    + intros code' Hc'. apply Hcases in Hc'. cbn in Hc'.
      repeat (destruct Hc as [<-|Hc];
              [repeat (destruct Hc' as [<-|Hc'];
                       [first [reflexivity | discriminate]|]);
               destruct Hc'|]).
      destruct Hc.
  - intros Hout. unfold kpep_config_error_desc.
    destruct (Z.leb_spec 0 code); [|reflexivity].
    destruct (Z.ltb_spec code KPEP_CONFIG_ERROR_MAX); [lia|reflexivity].
Qed.

Lemma kpep_config_error_desc_tells_the_code_witness :
  kpep_config_error_names !! Z.to_nat 13 = Some (kpep_config_error_desc 13)
  /\ kpep_config_error_desc (-1) = "unknown error"
  /\ kpep_config_error_desc 16 = "unknown error".
Proof.
  split; [|split].
  - apply (proj1 (kpep_config_error_desc_tells_the_code 13)).
    unfold KPEP_CONFIG_ERROR_MAX. lia.
  - apply (proj2 (kpep_config_error_desc_tells_the_code (-1))). left. lia.
  - apply (proj2 (kpep_config_error_desc_tells_the_code 16)). right.
    unfold KPEP_CONFIG_ERROR_MAX. lia.
Defined.

(** ** The loader, call by call *)

Lemma lib_deinit_calls env w :
  exists l,
    lib_deinit env w
    = Ok (tt, World (deinit_state (w_lib w)) (w_demo w) (w_log w ++ l))
    /\ map fst l
       = closes (lib_handle_kperf (w_lib w)) (lib_handle_kperfdata (w_lib w)).
Proof.
  unfold lib_deinit, closes. run_pure.
  cbn [lib_handle_kperf lib_handle_kperfdata set_lib_has_err set_lib_inited].
  destruct (lib_handle_kperf (w_lib w) =? NULL),
           (lib_handle_kperfdata (w_lib w) =? NULL); cbn [negb];
    repeat first [ rewrite bind_bind
                 | rewrite bind_extern by reflexivity
                 | progress run_pure ];
    rewrite (bind_run _ _ _ _ _ (clear_symbols_run _ _));
    rewrite clear_symbols_run; cbn [w_lib w_demo w_log];
    rewrite <- ?app_assoc.
  - exists []. rewrite app_nil_r. split; reflexivity.
  - eexists. split; reflexivity.
  - eexists. split; reflexivity.
  - eexists. split; reflexivity.
Qed.

Lemma return_err_calls env w :
  exists w' l,
    return_err env w = Ok (false, w')
    /\ failed (w_lib w')
    /\ lib_err_msg (w_lib w') = lib_err_msg (w_lib w)
    /\ w_log w' = w_log w ++ l
    /\ map fst l
       = closes (lib_handle_kperf (w_lib w)) (lib_handle_kperfdata (w_lib w)).
Proof.
  unfold return_err. destruct (lib_deinit_calls env w) as (l & H & Hl).
  rewrite (bind_run _ _ _ _ _ H). clear H.
  destruct (deinit_state_fields (w_lib w)) as (_ & _ & E & T).
  revert E T. generalize (deinit_state (w_lib w)). intros D E T.
  run_pure. unfold ret.
  eexists _, l. split; [reflexivity|]. cbn [w_lib w_demo w_log].
  split; [|split; [exact E|split; [reflexivity|exact Hl]]].
  split; [reflexivity|]. split; [reflexivity|]. exact T.
Qed.

Lemma load_symbols_cons env handle what name rest :
  load_symbols env handle what (name :: rest)
  = (let* l := get_lib in
     let* r := extern env (dlsym (handle l) name) in
     modify_lib (set_impl name (r_ret r));;
     if r_ret r =? NULL
     then modify_lib (set_lib_err_msg (symbol_message what name));;
          return_err env
     else load_symbols env handle what rest).
Proof. reflexivity. Qed.

(** One symbol loop: either every symbol was found, by one [dlsym] each
    in table order, or the loop stopped at the first symbol [dlsym] did not
    find, left the message that names it and closed the libraries. *)
Lemma load_symbols_calls env handle what :
  (forall n p l, handle (set_impl n p l) = handle l) ->
  forall symbols w,
  exists b w' l,
    load_symbols env handle what symbols w = Ok (b, w')
    /\ w_log w' = w_log w ++ l
    /\ (b = true ->
        map fst l = map (dlsym (handle (w_lib w))) symbols
        /\ lib_handle_kperf (w_lib w') = lib_handle_kperf (w_lib w)
        /\ lib_handle_kperfdata (w_lib w') = lib_handle_kperfdata (w_lib w))
    /\ (b = false ->
        exists pre name post,
          symbols = pre ++ name :: post
          /\ map fst l
             = map (dlsym (handle (w_lib w))) (pre ++ [name])
               ++ closes (lib_handle_kperf (w_lib w))
                    (lib_handle_kperfdata (w_lib w))
          /\ lib_err_msg (w_lib w') = symbol_message what name).
Proof.
  intros Hhandle. induction symbols as [|name rest IH]; intros w.
  - exists true, w, []. change (load_symbols env handle what []) with
      (@ret bool true). unfold ret.
    rewrite app_nil_r. repeat split; auto. discriminate.
  - rewrite load_symbols_cons, bind_get_lib.
    rewrite bind_extern by reflexivity. run_pure.
    set (r := env (w_log w) (dlsym (handle (w_lib w)) name)).
    destruct (r_ret r =? NULL) eqn:Hr.
    + run_pure.
      match goal with |- context [return_err env ?w0] =>
        destruct (return_err_calls env w0)
          as (w' & l & -> & _ & Hmsg & Hl & Hcalls) end.
      cbn [w_lib w_log lib_err_msg lib_handle_kperf lib_handle_kperfdata
           set_lib_err_msg set_impl] in Hmsg, Hl, Hcalls.
      rewrite <- app_assoc in Hl.
      eexists false, w', _. split; [reflexivity|]. split; [exact Hl|].
      split; [discriminate|]. intros _. exists [], name, rest.
      split; [reflexivity|]. split; [|exact Hmsg].
      cbn [map app fst]. now rewrite Hcalls.
    + match goal with |- context [load_symbols env handle what rest ?w0] =>
        destruct (IH w0) as (b & w' & l & -> & Hl & Ht & Hf) end.
      cbn [w_lib w_log] in Hl, Ht, Hf. rewrite Hhandle in Ht, Hf.
      cbn [lib_handle_kperf lib_handle_kperfdata set_impl] in Ht, Hf.
      rewrite <- app_assoc in Hl.
      eexists b, w', _. split; [reflexivity|]. split; [exact Hl|]. split.
      * intros Hb. destruct (Ht Hb) as (Hc & H1 & H2).
        split; [|split; assumption]. cbn [map app fst]. now rewrite Hc.
      * intros Hb. destruct (Hf Hb) as (pre & n & post & -> & Hc & Hmsg).
        exists (name :: pre), n, post. split; [reflexivity|].
        split; [|exact Hmsg]. cbn [map app fst]. now rewrite Hc.
Qed.

(** [lib_init] on cleared variables, call by call. *)
Lemma lib_init_calls env w :
  lib_inited (w_lib w) = false ->
  exists b w' l h1 h2,
    lib_init env w = Ok (b, w') /\ w_log w' = w_log w ++ l
    /\ (b = true ->
        h1 <> NULL /\ h2 <> NULL
        /\ map fst l
           = dlopen lib_path_kperf :: dlopen lib_path_kperfdata
             :: map (dlsym h1) lib_symbols_kperf
             ++ map (dlsym h2) lib_symbols_kperfdata
        /\ lib_handle_kperf (w_lib w') = h1
        /\ lib_handle_kperfdata (w_lib w') = h2)
    /\ (b = false ->
        (exists e,
           map fst l
           = [dlopen lib_path_kperf; dlerror]
             ++ closes NULL (lib_handle_kperfdata (w_lib w))
           /\ lib_err_msg (w_lib w')
              = snprintf 256 ("Failed to load kperf.framework, message: "
                              +:+ e +:+ "."))
        \/ (exists e,
              h1 <> NULL
              /\ map fst l = [dlopen lib_path_kperf; dlopen lib_path_kperfdata;
                              dlerror; dlclose h1]
              /\ lib_err_msg (w_lib w')
                 = snprintf 256
                     ("Failed to load kperfdata.framework, message: "
                      +:+ e +:+ "."))
        \/ (exists pre name post,
              h1 <> NULL /\ h2 <> NULL
              /\ lib_symbols_kperf = pre ++ name :: post
              /\ map fst l
                 = dlopen lib_path_kperf :: dlopen lib_path_kperfdata
                   :: map (dlsym h1) (pre ++ [name])
                   ++ [dlclose h1; dlclose h2]
              /\ lib_err_msg (w_lib w') = symbol_message "kperf" name)
        \/ (exists pre name post,
              h1 <> NULL /\ h2 <> NULL
              /\ lib_symbols_kperfdata = pre ++ name :: post
              /\ map fst l
                 = dlopen lib_path_kperf :: dlopen lib_path_kperfdata
                   :: map (dlsym h1) lib_symbols_kperf
                   ++ map (dlsym h2) (pre ++ [name])
                   ++ [dlclose h1; dlclose h2]
              /\ lib_err_msg (w_lib w') = symbol_message "kperfdata" name)).
Proof.
  intros Hfresh.
  unfold lib_init. rewrite bind_get_lib, Hfresh.
  rewrite bind_extern by reflexivity. run_pure.
  set (r1 := env (w_log w) (dlopen lib_path_kperf)).
  set (h1 := r_ret r1).
  destruct (Z.eqb_spec h1 NULL) as [H1|H1].
  { rewrite bind_extern by reflexivity. run_pure.
    match goal with |- context [return_err env ?w0] =>
      destruct (return_err_calls env w0)
        as (w' & l & -> & _ & Hmsg & Hl & Hcalls) end.
    cbn [w_lib w_log lib_err_msg lib_handle_kperf lib_handle_kperfdata
         set_lib_err_msg set_lib_handle_kperf] in Hmsg, Hl, Hcalls.
    rewrite <- !app_assoc in Hl.
    eexists false, w', _, h1, 0. split; [reflexivity|]. split; [exact Hl|].
    split; [discriminate|]. intros _. left. eexists.
    split; [|exact Hmsg]. cbn [map app fst]. rewrite Hcalls, H1.
    reflexivity. }
  rewrite bind_extern by reflexivity. run_pure.
  set (r2 := env _ (dlopen lib_path_kperfdata)).
  set (h2 := r_ret r2).
  destruct (Z.eqb_spec h2 NULL) as [H2|H2].
  { rewrite bind_extern by reflexivity. run_pure.
    match goal with |- context [return_err env ?w0] =>
      destruct (return_err_calls env w0)
        as (w' & l & -> & _ & Hmsg & Hl & Hcalls) end.
    cbn [w_lib w_log lib_err_msg lib_handle_kperf lib_handle_kperfdata
         set_lib_err_msg set_lib_handle_kperf set_lib_handle_kperfdata]
      in Hmsg, Hl, Hcalls.
    rewrite <- !app_assoc in Hl.
    eexists false, w', _, h1, h2. split; [reflexivity|]. split; [exact Hl|].
    split; [discriminate|]. intros _. right. left. eexists.
    split; [exact H1|]. split; [|exact Hmsg].
    cbn [map app fst]. rewrite Hcalls, H2. unfold closes.
    apply Z.eqb_neq in H1. rewrite H1. reflexivity. }
  match goal with |- context [bind (load_symbols env ?h ?s ?sy) ?k ?w0] =>
    destruct (load_symbols_calls env h s ltac:(reflexivity) sy w0)
      as (b1 & w1 & l1 & Hrun1 & Hl1 & Ht1 & Hf1);
    rewrite (bind_run _ k w0 _ _ Hrun1); clear Hrun1 end.
  cbn [w_lib w_log lib_handle_kperf lib_handle_kperfdata
       set_lib_handle_kperf set_lib_handle_kperfdata] in Hl1, Ht1, Hf1.
  rewrite <- !app_assoc in Hl1.
  assert (Hcloses : closes h1 h2 = [dlclose h1; dlclose h2]).
  { unfold closes. apply Z.eqb_neq in H1, H2. now rewrite H1, H2. }
  destruct b1; cbn [negb].
  2:{ destruct (Hf1 eq_refl) as (pre & name & post & Hsplit & Hc & Hmsg).
      unfold ret. eexists false, w1, _, h1, h2. split; [reflexivity|].
      split; [exact Hl1|]. split; [discriminate|]. intros _.
      right. right. left. exists pre, name, post.
      split; [exact H1|]. split; [exact H2|]. split; [exact Hsplit|].
      split; [|exact Hmsg]. cbn [map app fst].
      now rewrite Hc, Hcloses. }
  destruct (Ht1 eq_refl) as (Hc1 & Hk1 & Hk2). clear Ht1 Hf1.
  destruct (load_symbols_calls env lib_handle_kperfdata "kperfdata"
              ltac:(reflexivity) lib_symbols_kperfdata w1)
    as (b2 & w2 & l2 & Hrun2 & Hl2 & Ht2 & Hf2).
  rewrite (bind_run _ _ _ _ _ Hrun2). clear Hrun2.
  rewrite Hl1, <- !app_assoc, Hk1, Hk2 in *.
  destruct b2; cbn [negb].
  2:{ destruct (Hf2 eq_refl) as (pre & name & post & Hsplit & Hc & Hmsg).
      unfold ret. eexists false, w2, _, h1, h2. split; [reflexivity|].
      split; [exact Hl2|]. split; [discriminate|]. intros _.
      right. right. right. exists pre, name, post.
      split; [exact H1|]. split; [exact H2|]. split; [exact Hsplit|].
      split; [|exact Hmsg]. cbn [map app fst].
      do 2 f_equal. etransitivity; [apply List.map_app|].
      rewrite Hcloses in Hc. f_equal; [exact Hc1|exact Hc]. }
  destruct (Ht2 eq_refl) as (Hc2 & Hk3 & Hk4). clear Ht2 Hf2.
  run_pure. unfold ret.
  eexists true, _, _, h1, h2. split; [reflexivity|].
  cbn [w_lib w_log]. split; [exact Hl2|]. split; [|discriminate].
  intros _. split; [exact H1|]. split; [exact H2|].
  cbn [lib_handle_kperf lib_handle_kperfdata set_lib_has_err set_lib_inited].
  split; [|split; assumption].
  cbn [map app fst]. do 2 f_equal. etransitivity; [apply List.map_app|].
  f_equal; [exact Hc1|exact Hc2].
Qed.

(** X3. A first [lib_init] that succeeds has made exactly these calls, in
    this order and nothing else: [dlopen] of kperf, [dlopen] of kperfdata,
    then one [dlsym] on the kperf handle for each name of
    [lib_symbols_kperf] in table order, then one [dlsym] on the kperfdata
    handle for each name of [lib_symbols_kperfdata] in table order.  Both
    handles are the non-null values [dlopen] returned and are kept; no
    library is closed. *)
Theorem lib_init_opens_then_resolves_in_table_order env w :
  lib_inited (w_lib w) = false ->
  exists b w',
    lib_init env w = Ok (b, w')
    /\ (b = true ->
        exists h1 h2,
          h1 <> NULL /\ h2 <> NULL
          /\ map fst (calls_since w w')
             = dlopen lib_path_kperf :: dlopen lib_path_kperfdata
               :: map (dlsym h1) lib_symbols_kperf
               ++ map (dlsym h2) lib_symbols_kperfdata
          /\ lib_handle_kperf (w_lib w') = h1
          /\ lib_handle_kperfdata (w_lib w') = h2).
Proof.
  intros Hfresh.
  destruct (lib_init_calls env w Hfresh)
    as (b & w' & l & h1 & h2 & H & Hl & Ht & _).
  exists b, w'. split; [exact H|]. intros Hb.
  exists h1, h2. rewrite (calls_since_app _ _ _ Hl).
  exact (Ht Hb).
Qed.

Lemma lib_init_opens_then_resolves_in_table_order_witness :
  exists b w',
    lib_init (Fake.fake Fake.apple) world0 = Ok (b, w')
    /\ (b = true ->
        exists h1 h2,
          h1 <> NULL /\ h2 <> NULL
          /\ map fst (calls_since world0 w')
             = dlopen lib_path_kperf :: dlopen lib_path_kperfdata
               :: map (dlsym h1) lib_symbols_kperf
               ++ map (dlsym h2) lib_symbols_kperfdata
          /\ lib_handle_kperf (w_lib w') = h1
          /\ lib_handle_kperfdata (w_lib w') = h2).
Proof.
  exact (lib_init_opens_then_resolves_in_table_order
           (Fake.fake Fake.apple) world0 eq_refl).
Defined.

(** One symbol loop, with what [dlsym] answered: either every symbol was
    found, or the loop stopped at the first symbol for which [dlsym]
    returned null. *)
Lemma load_symbols_events env handle what :
  (forall n p l, handle (set_impl n p l) = handle l) ->
  forall symbols w,
  exists b w' l,
    load_symbols env handle what symbols w = Ok (b, w')
    /\ w_log w' = w_log w ++ l
    /\ (b = true ->
        map fst l = map (dlsym (handle (w_lib w))) symbols
        /\ Forall found l
        /\ lib_handle_kperf (w_lib w') = lib_handle_kperf (w_lib w)
        /\ lib_handle_kperfdata (w_lib w') = lib_handle_kperfdata (w_lib w))
    /\ (b = false ->
        exists pre name post hits r cl,
          symbols = pre ++ name :: post
          /\ l = hits ++ (dlsym (handle (w_lib w)) name, r) :: cl
          /\ map fst hits = map (dlsym (handle (w_lib w))) pre
          /\ Forall found hits /\ r_ret r = NULL
          /\ map fst cl
             = closes (lib_handle_kperf (w_lib w))
                 (lib_handle_kperfdata (w_lib w))
          /\ lib_err_msg (w_lib w') = symbol_message what name).
Proof.
  intros Hhandle. induction symbols as [|name rest IH]; intros w.
  - exists true, w, []. change (load_symbols env handle what []) with
      (@ret bool true). unfold ret.
    rewrite app_nil_r. repeat split; auto. discriminate.
  - rewrite load_symbols_cons, bind_get_lib.
    rewrite bind_extern by reflexivity. run_pure.
    set (r := env (w_log w) (dlsym (handle (w_lib w)) name)).
    destruct (Z.eqb_spec (r_ret r) NULL) as [Hr|Hr].
    + run_pure.
      match goal with |- context [return_err env ?w0] =>
        destruct (return_err_calls env w0)
          as (w' & l & -> & _ & Hmsg & Hl & Hcalls) end.
      cbn [w_lib w_log lib_err_msg lib_handle_kperf lib_handle_kperfdata
           set_lib_err_msg set_impl] in Hmsg, Hl, Hcalls.
      rewrite <- app_assoc in Hl.
      eexists false, w', _. split; [reflexivity|]. split; [exact Hl|].
      split; [discriminate|]. intros _. exists [], name, rest, [], r, l.
      repeat split; auto.
    + match goal with |- context [load_symbols env handle what rest ?w0] =>
        destruct (IH w0) as (b & w' & l & -> & Hl & Ht & Hf) end.
      cbn [w_lib w_log] in Hl, Ht, Hf. rewrite Hhandle in Ht, Hf.
      cbn [lib_handle_kperf lib_handle_kperfdata set_impl] in Ht, Hf.
      rewrite <- app_assoc in Hl.
      eexists b, w', _. split; [reflexivity|]. split; [exact Hl|]. split.
      * intros Hb. destruct (Ht Hb) as (Hc & Hfound & H1 & H2).
        split; [|split; [|split; assumption]].
        -- cbn [map app fst]. now rewrite Hc.
        -- apply List.Forall_cons; [exact Hr|exact Hfound].
      * intros Hb.
        destruct (Hf Hb)
          as (pre & n & post & hits & r' & cl & -> & -> & Hc & Hfound
              & Hnull & Hcl & Hmsg).
        exists (name :: pre), n, post,
          ((dlsym (handle (w_lib w)) name, r) :: hits), r', cl.
        split; [reflexivity|]. split; [reflexivity|].
        split; [cbn [map fst]; now rewrite Hc|].
        split; [apply List.Forall_cons; [exact Hr|exact Hfound]|].
        auto.
Qed.

(** X4. A first [lib_init] that fails stops at the first thing it cannot
    load, closes what it had opened and leaves a message that names it.
    With the kperfdata handle null at entry: when [dlopen] of kperf
    returns null, the calls of the run are that [dlopen] and [dlerror],
    the result is false and [lib_err_msg] is the text for kperf with what
    [dlerror] returned; when it is [dlopen] of kperfdata that returns
    null, the calls are the two [dlopen]s, [dlerror] and the [dlclose] of
    the handle of kperf, and the message is the text for kperfdata with
    what [dlerror] returned; and when both are open and the result is
    false, the calls are the two [dlopen]s, a [dlsym] for each symbol up
    to the first for which [dlsym] returned null (kperf's table on its
    handle first, then kperfdata's on its own), all of them found but
    that last one, and the [dlclose] of the two handles, kperf's first.
    No symbol after the missing one is looked up, and [lib_err_msg] is
    the text the code formats for that symbol, cut to 255 characters. *)
Theorem lib_init_stops_at_the_first_failure env w :
  lib_inited (w_lib w) = false ->
  lib_handle_kperfdata (w_lib w) = NULL ->
  let r1 := env (w_log w) (dlopen lib_path_kperf) in
  let log1 := w_log w ++ [(dlopen lib_path_kperf, r1)] in
  let r2 := env log1 (dlopen lib_path_kperfdata) in
  let log2 := log1 ++ [(dlopen lib_path_kperfdata, r2)] in
  exists b w',
    lib_init env w = Ok (b, w')
    /\ (r_ret r1 = NULL ->
        b = false
        /\ calls_since w w'
           = [(dlopen lib_path_kperf, r1); (dlerror, env log1 dlerror)]
        /\ lib_err_msg (w_lib w')
           = snprintf 256 ("Failed to load kperf.framework, message: "
                           +:+ r_str (env log1 dlerror) +:+ "."))
    /\ (r_ret r1 <> NULL -> r_ret r2 = NULL ->
        b = false
        /\ (exists rc,
              calls_since w w'
              = [(dlopen lib_path_kperf, r1); (dlopen lib_path_kperfdata, r2);
                 (dlerror, env log2 dlerror); (dlclose (r_ret r1), rc)])
        /\ lib_err_msg (w_lib w')
           = snprintf 256 ("Failed to load kperfdata.framework, message: "
                           +:+ r_str (env log2 dlerror) +:+ "."))
    /\ (r_ret r1 <> NULL -> r_ret r2 <> NULL -> b = false ->
        exists pre name post hits h r rc1 rc2,
          calls_since w w'
          = (dlopen lib_path_kperf, r1) :: (dlopen lib_path_kperfdata, r2)
            :: hits
            ++ [(dlsym h name, r); (dlclose (r_ret r1), rc1);
                (dlclose (r_ret r2), rc2)]
          /\ Forall found hits /\ r_ret r = NULL
          /\ ((h = r_ret r1
               /\ lib_symbols_kperf = pre ++ name :: post
               /\ map fst hits = map (dlsym (r_ret r1)) pre
               /\ lib_err_msg (w_lib w') = symbol_message "kperf" name)
              \/ (h = r_ret r2
                  /\ lib_symbols_kperfdata = pre ++ name :: post
                  /\ map fst hits
                     = map (dlsym (r_ret r1)) lib_symbols_kperf
                       ++ map (dlsym (r_ret r2)) pre
                  /\ lib_err_msg (w_lib w')
                     = symbol_message "kperfdata" name))).
Proof.
  intros Hfresh Hnull. cbv zeta.
  unfold lib_init. rewrite bind_get_lib, Hfresh.
  rewrite bind_extern by reflexivity. run_pure.
  set (r1 := env (w_log w) (dlopen lib_path_kperf)).
  set (h1 := r_ret r1).
  destruct (Z.eqb_spec h1 NULL) as [H1|H1].
  { rewrite bind_extern by reflexivity. run_pure.
    match goal with |- context [return_err env ?w0] =>
      destruct (return_err_calls env w0)
        as (w' & l & -> & _ & Hmsg & Hl & Hcalls) end.
    cbn [w_lib w_log lib_err_msg lib_handle_kperf lib_handle_kperfdata
         set_lib_err_msg set_lib_handle_kperf] in Hmsg, Hl, Hcalls.
    rewrite H1, Hnull in Hcalls. cbn in Hcalls.
    apply map_eq_nil in Hcalls. subst l.
    rewrite app_nil_r in Hl.
    eexists false, w'. split; [reflexivity|].
    split; [|split; intros; contradiction].
    intros _. split; [reflexivity|]. split; [|exact Hmsg].
    apply calls_since_app. rewrite Hl, <- !app_assoc. reflexivity. }
  rewrite bind_extern by reflexivity. run_pure.
  set (r2 := env _ (dlopen lib_path_kperfdata)).
  set (h2 := r_ret r2).
  destruct (Z.eqb_spec h2 NULL) as [H2|H2].
  { rewrite bind_extern by reflexivity. run_pure.
    match goal with |- context [return_err env ?w0] =>
      destruct (return_err_calls env w0)
        as (w' & l & -> & _ & Hmsg & Hl & Hcalls) end.
    cbn [w_lib w_log lib_err_msg lib_handle_kperf lib_handle_kperfdata
         set_lib_err_msg set_lib_handle_kperf set_lib_handle_kperfdata]
      in Hmsg, Hl, Hcalls.
    rewrite H2 in Hcalls. unfold closes in Hcalls.
    apply Z.eqb_neq in H1. rewrite H1 in Hcalls. apply Z.eqb_neq in H1.
    cbn in Hcalls.
    destruct l as [|[c rc] [|? ?]]; try discriminate Hcalls.
    cbn in Hcalls. injection Hcalls as ->.
    eexists false, w'. split; [reflexivity|].
    split; [intros; contradiction|]. split; [|intros; contradiction].
    intros _ _. split; [reflexivity|]. split; [|exact Hmsg].
    exists rc. apply calls_since_app. rewrite Hl, <- !app_assoc.
    reflexivity. }
  assert (Hcloses : closes h1 h2 = [dlclose h1; dlclose h2]).
  { unfold closes. apply Z.eqb_neq in H1, H2. now rewrite H1, H2. }
  match goal with |- context [bind (load_symbols env ?h ?s ?sy) ?k ?w0] =>
    destruct (load_symbols_events env h s ltac:(reflexivity) sy w0)
      as (b1 & w1 & l1 & Hrun1 & Hl1 & Ht1 & Hf1);
    rewrite (bind_run _ k w0 _ _ Hrun1); clear Hrun1 end.
  cbn [w_lib w_log lib_handle_kperf lib_handle_kperfdata
       set_lib_handle_kperf set_lib_handle_kperfdata] in Hl1, Ht1, Hf1.
  rewrite <- !app_assoc in Hl1. rewrite Hcloses in Hf1.
  destruct b1; cbn [negb].
  2:{ destruct (Hf1 eq_refl)
        as (pre & name & post & hits & r & cl & Hsplit & -> & Hc & Hfound
            & Hr & Hcl & Hmsg).
      destruct cl as [|[c1 rc1] [|[c2 rc2] [|? ?]]]; try discriminate Hcl.
      cbn in Hcl. injection Hcl as -> ->.
      unfold ret. eexists false, w1. split; [reflexivity|].
      split; [intros; contradiction|]. split; [intros; contradiction|].
      intros _ _ _.
      exists pre, name, post, hits, h1, r, rc1, rc2.
      split; [exact (calls_since_app _ _ _ Hl1)|].
      split; [exact Hfound|]. split; [exact Hr|]. left. auto. }
  destruct (Ht1 eq_refl) as (Hc1 & Hfound1 & Hk1 & Hk2). clear Ht1 Hf1.
  destruct (load_symbols_events env lib_handle_kperfdata "kperfdata"
              ltac:(reflexivity) lib_symbols_kperfdata w1)
    as (b2 & w2 & l2 & Hrun2 & Hl2 & Ht2 & Hf2).
  rewrite (bind_run _ _ _ _ _ Hrun2). clear Hrun2.
  rewrite Hl1, <- !app_assoc, Hk1, Hk2, Hcloses in *.
  destruct b2; cbn [negb].
  2:{ destruct (Hf2 eq_refl)
        as (pre & name & post & hits & r & cl & Hsplit & -> & Hc & Hfound
            & Hr & Hcl & Hmsg).
      destruct cl as [|[c1 rc1] [|[c2 rc2] [|? ?]]]; try discriminate Hcl.
      cbn in Hcl. injection Hcl as -> ->.
      unfold ret. eexists false, w2. split; [reflexivity|].
      split; [intros; contradiction|]. split; [intros; contradiction|].
      intros _ _ _.
      exists pre, name, post, (l1 ++ hits), h2, r, rc1, rc2.
      split.
      { rewrite (calls_since_app _ _ _ Hl2). cbn [app].
        now rewrite <- app_assoc. }
      split; [now apply Forall_app|]. split; [exact Hr|]. right.
      split; [reflexivity|]. split; [exact Hsplit|]. split; [|exact Hmsg].
      etransitivity; [apply List.map_app|]. f_equal; [exact Hc1|exact Hc]. }
  run_pure. unfold ret. eexists true, _. split; [reflexivity|].
  split; [intros; contradiction|]. split; [intros; contradiction|].
  intros _ _ [=].
Qed.

Lemma lib_init_stops_at_the_first_failure_witness :
  (exists w' pre name post hits h r rc1 rc2,
     lib_init (Fake.without_symbol "kpc_get_thread_counters" Fake.apple)
       world0
     = Ok (false, w')
     /\ calls_since world0 w'
        = (dlopen lib_path_kperf, Fake.answer 4096)
          :: (dlopen lib_path_kperfdata, Fake.answer 4096)
          :: hits
          ++ [(dlsym h name, r); (dlclose 4096, rc1); (dlclose 4096, rc2)]
     /\ Forall found hits /\ r_ret r = NULL
     /\ ((h = 4096
          /\ lib_symbols_kperf = pre ++ name :: post
          /\ map fst hits = map (dlsym 4096) pre
          /\ lib_err_msg (w_lib w') = symbol_message "kperf" name)
         \/ (h = 4096
             /\ lib_symbols_kperfdata = pre ++ name :: post
             /\ map fst hits
                = map (dlsym 4096) lib_symbols_kperf
                  ++ map (dlsym 4096) pre
             /\ lib_err_msg (w_lib w') = symbol_message "kperfdata" name)))
  /\ (exists w',
        lib_init (Fake.fake Fake.flaky) world0 = Ok (false, w')
        /\ calls_since world0 w'
           = [(dlopen lib_path_kperf, Fake.answer NULL);
              (dlerror, Reply 0 None [] "image not found")]
        /\ lib_err_msg (w_lib w')
           = "Failed to load kperf.framework, message: image not found.").
Proof.
  split.
  - pose proof (lib_init_stops_at_the_first_failure
                  (Fake.without_symbol "kpc_get_thread_counters" Fake.apple)
                  world0 eq_refl eq_refl) as H.
    cbv zeta in H. destruct H as (b & w' & Hrun & _ & _ & Hsym).
    assert (Hb : b = false).
    { assert (Hv : Fake.value_of
                     (lib_init (Fake.without_symbol "kpc_get_thread_counters"
                                  Fake.apple) world0) = Some false)
        by (vm_compute; reflexivity).
      rewrite Hrun in Hv. now injection Hv. }
    destruct Hsym
      as (pre & name & post & hits & h & r & rc1 & rc2 & Hrest);
      [discriminate|discriminate|exact Hb|].
    subst b. exists w', pre, name, post, hits, h, r, rc1, rc2.
    split; [exact Hrun|exact Hrest].
  - pose proof (lib_init_stops_at_the_first_failure
                  (Fake.fake Fake.flaky) world0 eq_refl eq_refl) as H.
    cbv zeta in H. destruct H as (b & w' & Hrun & Hfirst & _).
    destruct Hfirst as (-> & Hcalls & Hmsg); [reflexivity|].
    exists w'. split; [exact Hrun|]. split; [exact Hcalls|exact Hmsg].
Defined.

(** On a machine whose kperf has no [kpc_get_thread_counters], the binding
    fails at that symbol: nothing after it is looked up and the message
    names it. *)
Example lib_init_without_one_symbol :
  let env := Fake.without_symbol "kpc_get_thread_counters" Fake.apple in
  Fake.value_of (lib_init env world0) = Some false
  /\ last (map fst (List.filter (fun e => match fst e with
                                     | dlsym _ _ => true | _ => false end)
                      (w_log (Fake.world_of (lib_init env world0)))))
     = Some (dlsym 4096 "kpc_get_thread_counters")
  /\ lib_err_msg (w_lib (Fake.world_of (lib_init env world0)))
     = "Failed to load kperf function: kpc_get_thread_counters.".
Proof. repeat split; vm_compute; reflexivity. Qed.

(** X5. [lib_deinit] undoes a binding, whatever its state: it calls
    [dlclose] once for each handle that is not null (kperf first), leaves
    both handles and every function pointer null and clears [lib_inited]
    and [lib_has_err].  The next [lib_init] is therefore not answered from
    the recorded result: it starts over with the [dlopen] of kperf. *)
Theorem lib_deinit_makes_lib_init_start_over env w :
  exists w1,
    lib_deinit env w = Ok (tt, w1)
    /\ map fst (calls_since w w1)
       = closes (lib_handle_kperf (w_lib w)) (lib_handle_kperfdata (w_lib w))
    /\ torn_down (w_lib w1)
    /\ lib_inited (w_lib w1) = false
    /\ lib_has_err (w_lib w1) = false
    /\ forall env', exists b w2 rest,
         lib_init env' w1 = Ok (b, w2)
         /\ map fst (calls_since w1 w2) = dlopen lib_path_kperf :: rest.
Proof.
  destruct (lib_deinit_calls env w) as (l & H & Hl).
  destruct (deinit_state_fields (w_lib w)) as (I & E & _ & T).
  revert H I E T. generalize (deinit_state (w_lib w)). intros D H I E T.
  eexists. split; [exact H|].
  split; [rewrite (calls_since_app _ _ l); [exact Hl|reflexivity]|].
  cbn [w_lib]. split; [exact T|]. split; [exact I|]. split; [exact E|].
  intros env'.
  destruct (lib_init_calls env' (World D (w_demo w) (w_log w ++ l)) I)
    as (b & w2 & l2 & h1 & h2 & H2 & Hl2 & Ht & Hf).
  exists b, w2. rewrite (calls_since_app _ _ _ Hl2).
  destruct b.
  - destruct (Ht eq_refl) as (_ & _ & Hc & _). rewrite Hc. eauto.
  - destruct (Hf eq_refl)
      as [(e & Hc & _)|[(e & _ & Hc & _)|[(p & n & q & _ & _ & _ & Hc & _)
                                         |(p & n & q & _ & _ & _ & Hc & _)]]];
      rewrite Hc; eauto.
Qed.

(** ** The demo without a bound library *)

Lemma extern_null env c name w :
  call_symbol c = Some name -> fnptr (w_lib w) name = NULL ->
  extern env c w = Undefined.
Proof.
  intros Hc Hn. unfold extern, linked. now rewrite Hc, Hn.
Qed.

Lemma torn_down_fnptr l name :
  torn_down l -> In name lib_symbols -> fnptr l name = NULL.
Proof.
  intros (_ & _ & H) Hin. rewrite List.Forall_forall in H. now apply H.
Qed.

(** X6. The demo must not be used without a bound library.  When the
    handles and function pointers are null (before any [lib_init], after
    a failed one, after [lib_deinit]), [performance_counters_start] and
    [performance_counters_stop] call through a null function pointer,
    which is undefined behaviour; neither checks.  After a failed
    [lib_init], [performance_counters_init] makes no call and changes
    nothing: it returns the message of that failure. *)
Theorem the_demo_needs_a_bound_library env w values :
  torn_down (w_lib w) ->
  performance_counters_start env w = Undefined
  /\ performance_counters_stop env values w = Undefined
  /\ (lib_inited (w_lib w) = true -> lib_has_err (w_lib w) = true ->
      performance_counters_init env w = Ok (Some (lib_err_msg (w_lib w)), w)).
Proof.
  intros Ht. split; [|split].
  - unfold performance_counters_start. rewrite bind_get_demo.
    unfold bind at 1.
    rewrite (extern_null env (kpc_set_counting (classes (w_demo w)))
               "kpc_set_counting" w eq_refl); [reflexivity|].
    apply torn_down_fnptr; [exact Ht|].
    apply list_elem_of_In, (bool_decide_unpack _). vm_compute. exact I.
  - unfold performance_counters_stop. unfold bind at 1.
    rewrite (extern_null env
               (kpc_get_thread_counters 0 (Z.of_nat KPC_MAX_COUNTERS))
               "kpc_get_thread_counters" w eq_refl); [reflexivity|].
    apply torn_down_fnptr; [exact Ht|].
    apply list_elem_of_In, (bool_decide_unpack _). vm_compute. exact I.
  - intros Hi He. unfold performance_counters_init, and_then at 1, load_dylib.
    rewrite bind_bind, (bind_run _ _ _ _ _ (lib_init_cached env w Hi)), He.
    cbn [negb]. now run_pure.
Qed.

Lemma the_demo_needs_a_bound_library_witness :
  performance_counters_start (Fake.fake Fake.apple) world0 = Undefined
  /\ performance_counters_stop (Fake.fake Fake.apple) (zeros 4) world0
     = Undefined
  /\ (lib_inited (w_lib world0) = true -> lib_has_err (w_lib world0) = true ->
      performance_counters_init (Fake.fake Fake.apple) world0
      = Ok (Some (lib_err_msg (w_lib world0)), world0)).
Proof.
  apply (the_demo_needs_a_bound_library (Fake.fake Fake.apple) world0).
  split; [reflexivity|]. split; [reflexivity|].
  apply List.Forall_forall. intros name _. reflexivity.
Defined.


(** ** The order of the initialisation *)


Lemma in_order_le a b l :
  (a <= b)%nat -> in_order b l = true -> in_order a l = true.
Proof.
  intros Hab. destruct l as [|e rest]; [reflexivity|]. cbn [in_order].
  destruct (phase (fst e)) as [p|]; [|discriminate].
  intros H. apply andb_true_iff in H. destruct H as [Hc Hr].
  apply andb_true_iff. split; [|exact Hr].
  apply orb_true_iff in Hc. apply orb_true_iff.
  destruct Hc as [Hc|Hc].
  - apply Nat.ltb_lt in Hc. left. apply Nat.ltb_lt. lia.
  - apply andb_true_iff in Hc. destruct Hc as [Hc Hrep].
    apply Nat.eqb_eq in Hc. subst p.
    destruct (Nat.eq_dec a b) as [->|Hne].
    + right. now rewrite Nat.eqb_refl.
    + left. apply Nat.ltb_lt. lia.
Qed.

Lemma in_order_app l1 : forall a b l2,
  (a <= b)%nat -> in_order a l1 = true -> upto b l1 = true ->
  in_order b l2 = true -> in_order a (l1 ++ l2) = true.
Proof.
  induction l1 as [|e rest IH]; intros a b l2 Hab H1 Hu H2.
  - now apply (in_order_le a b).
  - cbn [in_order app] in *. unfold upto in Hu. cbn [forallb] in Hu.
    destruct (phase (fst e)) as [p|]; [|discriminate].
    apply andb_true_iff in H1. destruct H1 as [Hc Hr].
    apply andb_true_iff in Hu. destruct Hu as [Hp Hu].
    apply Nat.leb_le in Hp.
    apply andb_true_iff. split; [exact Hc|].
    now apply (IH p b).
Qed.

(** The events of a step that makes all its calls through one pointer. *)
Lemma within_ordered s p l : forall a,
  (forall c, call_symbol c = Some s -> phase c = Some p) ->
  repeated p = true -> (a <= p)%nat ->
  within [s] l -> ordered a p l.
Proof.
  intros a Hs Hrep. revert a.
  induction l as [|e rest IH]; intros a Hap Hw; [split; reflexivity|].
  inversion Hw as [|? ? (s' & Hsym & Hin) Hrest]; subst.
  destruct Hin as [<-|[]].
  destruct (IH p (Nat.le_refl p) Hrest) as [Ho Hu].
  unfold ordered, upto. cbn [in_order forallb].
  rewrite (Hs (fst e) Hsym), Ho. fold (upto p rest). rewrite Hu.
  rewrite Nat.leb_refl, Hrep. split; [|reflexivity].
  destruct (Nat.eq_dec a p) as [->|Hne].
  - now rewrite Nat.eqb_refl, orb_true_r.
  - assert (H : (a <? p)%nat = true) by (apply Nat.ltb_lt; lia).
    now rewrite H.
Qed.

Lemma loader_dlsym h names : Forall loader (map (dlsym h) names).
Proof. induction names; constructor; [reflexivity|assumption]. Qed.

Lemma loader_closes h1 h2 : Forall loader (closes h1 h2).
Proof.
  unfold closes. destruct (h1 =? NULL), (h2 =? NULL);
    repeat constructor.
Qed.

Lemma loader_ordered l : Forall loader (map fst l) -> ordered 0 0 l.
Proof.
  induction l as [|e rest IH]; intros H; [split; reflexivity|].
  inversion H as [|? ? He Hrest]; subst. destruct (IH Hrest) as [Ho Hu].
  unfold ordered, upto. cbn [in_order forallb]. unfold loader in He.
  rewrite He, Ho. fold (upto 0 rest). now rewrite Hu.
Qed.

Lemma lib_init_loader env w :
  lib_inited (w_lib w) = false ->
  exists b w' l, lib_init env w = Ok (b, w') /\ w_log w' = w_log w ++ l
                 /\ Forall loader (map fst l).
Proof.
  intros Hfresh.
  destruct (lib_init_calls env w Hfresh)
    as (b & w' & l & h1 & h2 & H & Hl & Ht & Hf).
  exists b, w', l. split; [exact H|]. split; [exact Hl|].
  assert (Hcons : forall c cs, loader c -> Forall loader cs ->
                               Forall loader (c :: cs))
    by (intros; now constructor).
  destruct b.
  - destruct (Ht eq_refl) as (_ & _ & -> & _).
    do 2 (apply Hcons; [reflexivity|]).
    apply Forall_app. split; apply loader_dlsym.
  - destruct (Hf eq_refl)
      as [(e & -> & _)|[(e & _ & -> & _)|[(p & n & q & _ & _ & _ & -> & _)
                                         |(p & n & q & _ & _ & _ & -> & _)]]].
    + apply Forall_app. split; [repeat constructor|apply loader_closes].
    + repeat constructor.
    + do 2 (apply Hcons; [reflexivity|]). apply Forall_app.
      split; [apply loader_dlsym|repeat constructor].
    + do 2 (apply Hcons; [reflexivity|]). apply Forall_app.
      split; [apply loader_dlsym|].
      apply Forall_app. split; [apply loader_dlsym|repeat constructor].
Qed.

Lemma load_dylib_order env w :
  runs (load_dylib env) w (fun _ _ l => ordered 0 0 l).
Proof.
  unfold runs, load_dylib.
  destruct (lib_inited (w_lib w)) eqn:Hi.
  - rewrite (bind_run _ _ _ _ _ (lib_init_cached env w Hi)).
    destruct (lib_has_err (w_lib w)); cbn [negb]; run_pure; unfold ret;
      (eexists _, w, []; split; [reflexivity|];
       split; [now rewrite app_nil_r|split; reflexivity]).
  - destruct (lib_init_loader env w Hi) as (b & w' & l & H & Hl & Hload).
    rewrite (bind_run _ _ _ _ _ H).
    destruct b; cbn [negb]; run_pure; unfold ret;
      (eexists _, w', l; split; [reflexivity|]; split; [exact Hl|];
       now apply loader_ordered).
Qed.

Lemma check_permission_order env w :
  bound (w_lib w) ->
  runs (check_permission env) w (fun _ _ l => ordered 0 1 l).
Proof.
  intros Hb. unfold runs, check_permission. run.
  destruct (negb _); finish_step; split; reflexivity.
Qed.

Lemma load_pmc_db_order env w :
  bound (w_lib w) ->
  runs (load_pmc_db env) w (fun _ _ l => ordered 1 2 l).
Proof.
  intros Hb. unfold runs, load_pmc_db. run.
  destruct (negb _); finish_step; split; reflexivity.
Qed.

Lemma create_config_order env w :
  bound (w_lib w) ->
  runs (create_config env) w (fun _ _ l => ordered 2 4 l).
Proof.
  intros Hb. unfold runs, create_config. run.
  destruct (negb _); [finish_step; split; reflexivity|].
  run. destruct (negb _); finish_step; split; reflexivity.
Qed.

Lemma query_config_order env w :
  bound (w_lib w) ->
  runs (query_config env) w (fun _ _ l => ordered 6 10 l).
Proof.
  intros Hb. unfold runs, query_config. run.
  destruct (negb _); [finish_step; split; reflexivity|].
  run. destruct (negb _); [finish_step; split; reflexivity|].
  run. destruct (negb _); [finish_step; split; reflexivity|].
  run. destruct (negb _); finish_step; split; reflexivity.
Qed.

Lemma set_config_outcome_order res w' l :
  set_config_outcome res w' l -> in_order 10 l = true.
Proof.
  intros (r & [(-> & _)|[(-> & _)|(r' & -> & _)]]); reflexivity.
Qed.

Lemma order_step (m1 m2 : M (option string)) w a b :
  (a <= b)%nat ->
  runs m1 w (fun res w' l => ready w' /\ ordered a b l) ->
  (forall w1, ready w1 -> runs m2 w1 (fun _ _ l => in_order b l = true)) ->
  runs (m1 ;;; m2) w (fun _ _ l => in_order a l = true).
Proof.
  intros Hab H1 H2. eapply runs_and_then; [exact H1| |].
  - intros msg w1 l1 (_ & Ho & _). exact Ho.
  - intros w1 l1 (Hr & Ho & Hu). eapply runs_weaken; [apply H2, Hr|].
    intros res w2 l2 Ho2. now apply (in_order_app l1 a b).
Qed.

Lemma init_order env w :
  consistent (w_lib w) -> sized (w_demo w) ->
  runs (performance_counters_init env) w (fun _ _ l => in_order 0 l = true).
Proof.
  intros Hc Hs. unfold performance_counters_init.
  eapply runs_and_then;
    [apply runs_both;
     [apply load_dylib_runs; assumption|apply load_dylib_order]| |].
  { intros msg w1 l1 (_ & Ho & _). exact Ho. }
  intros w1 l1 ((Hs1 & _ & Hb1) & Ho1 & Hu1).
  assert (Hr1 : ready w1) by (split; auto).
  eapply runs_weaken;
    [|intros res w2 l2 Ho2; apply (in_order_app l1 0 0 l2 (Nat.le_refl 0) Ho1 Hu1);
      exact Ho2].
  clear - Hr1. revert w1 Hr1. intros w Hr.
  apply (order_step _ _ _ 0 1); [lia| |].
  { apply runs_both; [|apply check_permission_order, Hr].
    eapply runs_weaken; [apply check_permission_runs, Hr|].
    intros res w' l [H _]. exact H. }
  clear w Hr. intros w Hr.
  apply (order_step _ _ _ 1 2); [lia| |].
  { apply runs_both; [|apply load_pmc_db_order, Hr].
    eapply runs_weaken; [apply load_pmc_db_runs, Hr|].
    intros res w' l [H _]. exact H. }
  clear w Hr. intros w Hr.
  apply (order_step _ _ _ 2 4); [lia| |].
  { apply runs_both; [|apply create_config_order, Hr].
    eapply runs_weaken; [apply create_config_runs, Hr|].
    intros res w' l [H _]. exact H. }
  clear w Hr. intros w Hr.
  apply (order_step _ _ _ 4 5); [lia| |].
  { eapply runs_weaken; [apply get_events_runs; [exact Hr|reflexivity]|].
    intros res w' l [H1 H2]. split; [exact H1|].
    apply (within_ordered "kpep_db_event"); [|reflexivity|lia|exact H2].
    intros c; destruct c; simpl; intros [=]; reflexivity. }
  clear w Hr. intros w Hr.
  apply (order_step _ _ _ 5 6); [lia| |].
  { eapply runs_weaken; [apply add_events_runs; [exact Hr|]|].
    - apply List.Forall_forall. intros i Hi. apply in_seq in Hi. lia.
    - intros res w' l [H1 H2]. split; [exact H1|].
      apply (within_ordered "kpep_config_add_event");
        [|reflexivity|lia|exact H2].
      intros c; destruct c; simpl; intros [=]; reflexivity. }
  clear w Hr. intros w Hr.
  apply (order_step _ _ _ 6 10); [lia| |].
  { apply runs_both; [|apply query_config_order, Hr].
    eapply runs_weaken; [apply query_config_runs, Hr|].
    intros res w' l [H _]. exact H. }
  clear w Hr. intros w Hr.
  eapply runs_weaken; [apply set_config_to_kernel_runs, Hr|].
  intros res w' l. apply set_config_outcome_order.
Qed.

(** X7. The calls of [performance_counters_init] follow the order of its
    steps: first the loader's calls ([dlopen], [dlsym], [dlerror],
    [dlclose]), then at most one call each of [kpc_force_all_ctrs_get],
    [kpep_db_create], [kpep_config_create] and
    [kpep_config_force_counters], then the lookups [kpep_db_event], then
    the [kpep_config_add_event] calls, then at most one call each of
    [kpep_config_kpc_classes], [kpep_config_kpc_count],
    [kpep_config_kpc_map], [kpep_config_kpc], [kpc_force_all_ctrs_set]
    with the argument 1 and [kpc_set_config].  It makes no other call: it
    never starts or stops counting, never reads the counters and never
    releases the forced counters. *)
Theorem init_calls_follow_its_steps env w :
  consistent (w_lib w) -> sized (w_demo w) ->
  exists res w',
    performance_counters_init env w = Ok (res, w')
    /\ in_order 0 (calls_since w w') = true.
Proof.
  intros Hc Hs.
  destruct (init_order env w Hc Hs) as (res & w' & l & H & Hl & Ho).
  exists res, w'. split; [exact H|].
  now rewrite (calls_since_app _ _ _ Hl).
Qed.

Lemma init_calls_follow_its_steps_witness :
  exists res w',
    performance_counters_init (Fake.fake Fake.apple) world0 = Ok (res, w')
    /\ in_order 0 (calls_since world0 w') = true.
Proof.
  apply (init_calls_follow_its_steps (Fake.fake Fake.apple) world0).
  - intros H. discriminate H.
  - vm_compute. auto 6.
Defined.

(** ** A start and the stop after it *)

Lemma lookup_map {A B} (f : A -> B) l n : map f l !! n = f <$> (l !! n).
Proof.
  revert n. induction l as [|x l IH]; intros [|n]; try reflexivity.
  apply IH.
Qed.

(** A word the callee wrote is in the buffer, cut to 64 bits. *)
Lemma lookup_blit ws buf n a :
  (n < length buf)%nat -> ws !! n = Some a ->
  blit ws buf !! n = Some (wrap64 a).
Proof.
  intros Hn Ha. unfold blit.
  assert (Hlt : (n < length ws)%nat) by (apply lookup_lt_is_Some; eauto).
  rewrite lookup_app_l by (rewrite length_take, length_map; lia).
  rewrite lookup_take_lt by exact Hn.
  now rewrite lookup_map, Ha.
Qed.

(** X8. A start that succeeds and the stop after it measure what the
    kernel counted in between.  When the two enabling calls and both reads
    of the counters return 0, start returns no error, stop returns no
    error, and for each of the first 4 events [i] the value stored in
    [values[i]] is the difference, in 64-bit arithmetic, of the words the
    kernel wrote for register [counter_map[i]] in the read of stop and in
    the read of start. *)
Theorem start_then_stop_measures_the_interval env w values :
  bound (w_lib w) -> in_bounds (w_demo w) values ->
  let cls := classes (w_demo w) in
  let r1 := env (w_log w) (kpc_set_counting cls) in
  let log1 := w_log w ++ [(kpc_set_counting cls, r1)] in
  let r2 := env log1 (kpc_set_thread_counting cls) in
  let log2 := log1 ++ [(kpc_set_thread_counting cls, r2)] in
  let before := env log2 read_counters in
  let log3 := log2 ++ [(read_counters, before)] in
  let after := env log3 read_counters in
  r_ret r1 = 0 -> r_ret r2 = 0 -> r_ret before = 0 -> r_ret after = 0 ->
  exists w1 values' w2,
    performance_counters_start env w = Ok (None, w1)
    /\ performance_counters_stop env values w1 = Ok ((None, values'), w2)
    /\ forall i idx a b,
         (i < 4)%nat -> counter_map (w_demo w) !! i = Some idx ->
         r_words after !! Z.to_nat idx = Some a ->
         r_words before !! Z.to_nat idx = Some b ->
         values' !! i = Some (sub64 (wrap64 a) (wrap64 b)).
Proof.
  intros Hb Hin cls r1 log1 r2 log2 before log3 after H1 H2 H3 H4.
  pose proof (start_run env w Hb) as Hs. cbv zeta in Hs.
  fold cls in Hs. unfold record in Hs. cbn [w_log w_lib w_demo] in Hs.
  fold r1 in Hs. fold log1 in Hs. fold r2 in Hs. fold log2 in Hs.
  fold before in Hs. fold log3 in Hs.
  rewrite H1, H2, H3 in Hs. cbn [Z.eqb negb] in Hs.
  set (w3 := World (w_lib w)
               (set_counters_0 (blit (r_words before) (counters_0 (w_demo w)))
                  (w_demo w)) log3) in *.
  assert (Hb3 : bound (w_lib w3)) by exact Hb.
  assert (Hin3 : in_bounds (w_demo w3) values).
  { destruct Hin as (Hsz & Hlen & Hmap). split; [|split; assumption].
    subst w3. solve_sized. }
  destruct (stop_run_good env w3 values Hb3 Hin3 H4) as (q1 & q2 & q3 & Hstop).
  eexists _, _, _. split; [exact Hs|]. split; [exact Hstop|].
  intros i idx a b Hi Hidx Ha Hb'.
  destruct (in_bounds_map _ values i Hin Hi) as (idx' & Hidx' & H0 & Hlt).
  rewrite Hidx in Hidx'. injection Hidx' as <-.
  destruct Hin as ((_ & _ & H0len & H1len & _) & Hlen & _).
  rewrite lookup_write_deltas by lia.
  rewrite bool_decide_eq_true_2 by (apply list_elem_of_In, in_seq; lia).
  unfold delta_at. subst w3.
  cbn [w_demo w_log counter_map counters_0 counters_1 set_counters_0
       set_counters_1].
  rewrite Hidx. destruct (Z.ltb_spec idx 0) as [?|_]; [lia|].
  fold after.
  rewrite (lookup_blit _ _ _ a) by (rewrite ?H1len; auto).
  rewrite (lookup_blit _ _ _ b) by (rewrite ?H0len; auto).
  reflexivity.
Qed.

Lemma start_then_stop_measures_the_interval_witness :
  exists w1 values' w2,
    performance_counters_start (Fake.fake Fake.fixed_only)
      (Fake.configured Fake.fixed_only) = Ok (None, w1)
    /\ performance_counters_stop (Fake.fake Fake.fixed_only) [0; 0; 0; 0] w1
       = Ok ((None, values'), w2).
Proof.
  assert (Hb : bound (w_lib (Fake.configured Fake.fixed_only))).
  { apply boundb_bound. vm_compute. reflexivity. }
  assert (Hin : in_bounds (w_demo (Fake.configured Fake.fixed_only))
                  [0; 0; 0; 0]).
  { split; [vm_compute; auto 6|]. split; [simpl; lia|].
    vm_compute. repeat constructor; discriminate. }
  pose proof (start_then_stop_measures_the_interval
                (Fake.fake Fake.fixed_only)
                (Fake.configured Fake.fixed_only) [0; 0; 0; 0] Hb Hin) as H.
  cbv zeta in H.
  assert (E1 : r_ret (Fake.fake Fake.fixed_only
                        (w_log (Fake.configured Fake.fixed_only))
                        (kpc_set_counting
                           (classes (w_demo (Fake.configured Fake.fixed_only)))))
               = 0) by (vm_compute; reflexivity).
  specialize (H E1).
  match type of H with ?P -> _ =>
    assert (E2 : P) by (vm_compute; reflexivity) end.
  specialize (H E2).
  match type of H with ?P -> _ =>
    assert (E3 : P) by (vm_compute; reflexivity) end.
  specialize (H E3).
  match type of H with ?P -> _ =>
    assert (E4 : P) by (vm_compute; reflexivity) end.
  destruct (H E4) as (w1 & values' & w2 & Hs & Hp & _).
  exists w1, values', w2. split; assumption.
Defined.

(** ** The register indices of the stop *)

Lemma compute_values_undefined indices : forall values w,
  Forall (fun i => (i < length values)%nat) indices ->
  Exists (fun i => delta_at (w_demo w) i = None) indices ->
  compute_values indices values w = Undefined.
Proof.
  induction indices as [|i rest IH]; intros values w Hlen Hex.
  - inversion Hex.
  - inversion Hlen as [|? ? Hi Hrest]; subst.
    cbn [compute_values]. rewrite bind_get_demo.
    destruct (delta_at (w_demo w) i) as [v|] eqn:Hd.
    + destruct (delta_at_Some _ _ _ Hd)
        as (idx & c1 & c0 & Hm & H0 & H1 & H2 & ->).
      assert (Hm' : counter_map (w_demo w) !! Z.to_nat (Z.of_nat i) = Some idx)
        by now rewrite Nat2Z.id.
      rewrite (bind_run _ _ _ _ _ (array_get_run _ (Z.of_nat i) idx w
                 (Nat2Z.is_nonneg i) Hm')).
      rewrite (bind_run _ _ _ _ _ (array_get_run _ idx c1 w H0 H1)).
      rewrite (bind_run _ _ _ _ _ (array_get_run _ idx c0 w H0 H2)).
      rewrite (bind_run _ _ _ _ _ (array_set_run values i _ w Hi)).
      apply IH.
      * eapply Forall_impl; [exact Hrest|]. cbv beta. intros j Hj.
        now rewrite length_insert.
      * inversion Hex as [? ? Hhead|? ? Htail]; subst; [congruence|exact Htail].
    + unfold delta_at in Hd. unfold bind at 1, array_get at 1.
      destruct (Z.ltb_spec (Z.of_nat i) 0); [lia|]. rewrite Nat2Z.id.
      destruct (counter_map (w_demo w) !! i) as [idx|]; [|reflexivity].
      unfold ret. unfold bind at 1, array_get at 1.
      destruct (idx <? 0); [reflexivity|].
      destruct (counters_1 (w_demo w) !! Z.to_nat idx) as [c1|];
        [|reflexivity].
      unfold ret. unfold bind at 1, array_get at 1.
      destruct (idx <? 0); [reflexivity|].
      destruct (counters_0 (w_demo w) !! Z.to_nat idx) as [c0|];
        [discriminate|reflexivity].
Qed.

(** X9. [performance_counters_stop] uses the first 4 entries of
    [counter_map] as indices into [counters_1] and [counters_0] without a
    check, whatever the number of events.  After a successful read, with
    room for 4 results in [values]: when each of the 4 entries is below
    [KPC_MAX_COUNTERS] the stop returns no error, and when one is not the
    stop reads outside the arrays, which is undefined behaviour. *)
Theorem stop_needs_the_map_in_range env w values :
  bound (w_lib w) -> sized (w_demo w) -> (4 <= length values)%nat ->
  r_ret (env (w_log w) read_counters) = 0 ->
  let in_range idx := 0 <= idx < Z.of_nat KPC_MAX_COUNTERS in
  (Forall in_range (take 4 (counter_map (w_demo w))) ->
   exists values' w',
     performance_counters_stop env values w = Ok ((None, values'), w'))
  /\ (~ Forall in_range (take 4 (counter_map (w_demo w))) ->
      performance_counters_stop env values w = Undefined).
Proof.
  intros Hb Hs Hlen Hr in_range. split.
  - intros Hall.
    destruct (stop_run_good env w values Hb (conj Hs (conj Hlen Hall)) Hr)
      as (r1 & r2 & r3 & H).
    eexists _, _. exact H.
  - intros Hnot. apply not_Forall_Exists in Hnot; [|intros idx; apply _].
    apply Exists_exists in Hnot. destruct Hnot as (idx & Hin & Hbad).
    apply list_elem_of_lookup in Hin. destruct Hin as (i & Hi).
    assert (Hi4 : (i < 4)%nat).
    { apply lookup_lt_Some in Hi. rewrite length_take in Hi. lia. }
    rewrite lookup_take_lt in Hi by exact Hi4.
    rewrite (stop_run env w values Hb). cbv zeta. rewrite Hr.
    cbn [Z.eqb negb]. rewrite compute_values_undefined; [reflexivity| |].
    + apply List.Forall_forall. intros j Hj. apply in_seq in Hj. lia.
    + apply List.Exists_exists. exists i. split; [apply in_seq; lia|].
      unfold record, delta_at.
      cbn [w_demo counter_map counters_0 counters_1 set_counters_1].
      rewrite Hi. destruct (Z.ltb_spec idx 0) as [|Hpos]; [reflexivity|].
      destruct Hs as (_ & _ & H0len & _).
      assert (Hout : counters_0 (w_demo w) !! Z.to_nat idx = None).
      { apply lookup_ge_None. rewrite H0len. unfold in_range in Hbad.
        unfold KPC_MAX_COUNTERS, compose in *. lia. }
      rewrite Hout. destruct (blit _ _ !! _); reflexivity.
Qed.

Lemma stop_needs_the_map_in_range_witness :
  (Forall (fun idx => 0 <= idx < Z.of_nat KPC_MAX_COUNTERS)
     (take 4 (counter_map (w_demo (Fake.counting Fake.fixed_only)))) ->
   exists values' w',
     performance_counters_stop (Fake.fake Fake.fixed_only) [0; 0; 0; 0]
       (Fake.counting Fake.fixed_only) = Ok ((None, values'), w'))
  /\ (~ Forall (fun idx => 0 <= idx < Z.of_nat KPC_MAX_COUNTERS)
        (take 4 (counter_map (w_demo (Fake.counting Fake.fixed_only)))) ->
      performance_counters_stop (Fake.fake Fake.fixed_only) [0; 0; 0; 0]
        (Fake.counting Fake.fixed_only) = Undefined).
Proof.
  apply (stop_needs_the_map_in_range (Fake.fake Fake.fixed_only)
           (Fake.counting Fake.fixed_only) [0; 0; 0; 0]).
  - apply boundb_bound. vm_compute. reflexivity.
  - vm_compute. auto 6.
  - simpl. lia.
  - vm_compute. reflexivity.
Defined.

(** ** The decode outside its range of counters *)

Section DecodeRange.

Variables KDBG_FUNC_MASK DBG_FUNC_START : Z.
Variable alloc_ok : Z -> bool.
Variable counter_count : Z.

(** With fewer than 4 counters no sample is ever complete: the four words
    of the start record are already too many. *)
Lemma read_counter_log_short buf rest :
  counter_count < 4 ->
  Demo2.read_counter_log KDBG_FUNC_MASK DBG_FUNC_START counter_count buf rest
  = Ok None.
Proof.
  intros Hlt. unfold Demo2.read_counter_log, Demo2.ci. cbn [length].
  destruct (Z.ltb_spec (Z.of_nat 4) counter_count) as [|_]; [lia|].
  cbn [Demo2.obind length].
  destruct (Z.eqb_spec (Z.of_nat 4) counter_count) as [|_]; [lia|].
  reflexivity.
Qed.

Lemma aggregate_short bufs : forall tbl,
  counter_count < 4 ->
  Demo2.aggregate KDBG_FUNC_MASK DBG_FUNC_START alloc_ok counter_count bufs tbl
  = Ok (Some tbl).
Proof.
  induction bufs as [|buf rest IH]; intros tbl Hlt; [reflexivity|].
  cbn [Demo2.aggregate].
  destruct (negb (Demo2.func KDBG_FUNC_MASK buf =? DBG_FUNC_START));
    [now apply IH|].
  destruct (Demo2.tid_of buf =? 0); [now apply IH|].
  rewrite read_counter_log_short by exact Hlt. cbn [Demo2.obind].
  now apply IH.
Qed.

Lemma samples_short bufs :
  counter_count < 4 ->
  samples KDBG_FUNC_MASK DBG_FUNC_START counter_count bufs = [].
Proof.
  intros Hlt. induction bufs as [|buf rest IH]; [reflexivity|].
  cbn [samples].
  destruct (negb (Demo2.func KDBG_FUNC_MASK buf =? DBG_FUNC_START));
    [exact IH|].
  destruct (Demo2.tid_of buf =? 0); [exact IH|].
  now rewrite read_counter_log_short by exact Hlt.
Qed.

(** X10. With fewer than 4 counters the decode records nothing.  A start
    record always supplies 4 values, so the test [ci != counter_count]
    holds for every sample and each is skipped as truncated: the loop
    leaves the table as it was, whatever the records, and after
    [aggregate_thread_data] the table is empty. *)
Theorem fewer_than_4_counters_record_nothing bufs tbl :
  counter_count < 4 ->
  Demo2.aggregate KDBG_FUNC_MASK DBG_FUNC_START alloc_ok counter_count bufs tbl
  = Ok (Some tbl)
  /\ samples KDBG_FUNC_MASK DBG_FUNC_START counter_count bufs = []
  /\ (alloc_ok (16 * Demo2.sizeof_kpc_thread_data) = true ->
      Demo2.aggregate_thread_data KDBG_FUNC_MASK DBG_FUNC_START alloc_ok
        counter_count bufs = Ok (Some (Demo2.Table 16 []))).
Proof.
  intros Hlt. split; [now apply aggregate_short|].
  split; [now apply samples_short|].
  intros Halloc. unfold Demo2.aggregate_thread_data. rewrite Halloc.
  now apply aggregate_short.
Qed.

(** Above [KPC_MAX_COUNTERS] counters a store is made whenever the local
    array has room, and is outside the array when it has none. *)
Lemma push_below_over counters v :
  Z.of_nat KPC_MAX_COUNTERS < counter_count ->
  (length counters <= KPC_MAX_COUNTERS)%nat ->
  Demo2.push_below counter_count counters v
  = if (length counters <? KPC_MAX_COUNTERS)%nat then Ok (counters ++ [v])
    else Undefined.
Proof.
  intros Hover Hlen. unfold Demo2.push_below, Demo2.push, Demo2.ci.
  destruct (Z.ltb_spec (Z.of_nat (length counters)) counter_count); [|lia].
  reflexivity.
Qed.

Lemma read_split_over t rest : forall conts counters,
  Z.of_nat KPC_MAX_COUNTERS < counter_count ->
  Forall (continues KDBG_FUNC_MASK DBG_FUNC_START t) conts ->
  (length counters <= KPC_MAX_COUNTERS)%nat ->
  (KPC_MAX_COUNTERS < length counters + 4 * length conts)%nat ->
  Demo2.read_split KDBG_FUNC_MASK DBG_FUNC_START counter_count t counters
    (conts ++ rest) = Undefined.
Proof.
  induction conts as [|c cs IH]; intros counters Hover Hall Hlen Hmore.
  - cbn [length] in Hmore. lia.
  - inversion_clear Hall as [|? ? [Ht Hf] Hcs].
    cbn [app Demo2.read_split].
    apply Z.eqb_eq in Ht. rewrite Ht. cbn [negb].
    apply Z.eqb_neq in Hf. rewrite Hf.
    rewrite push_below_over by assumption.
    destruct (Nat.ltb_spec (length counters) KPC_MAX_COUNTERS) as [H1|H1];
      [|reflexivity].
    cbn [Demo2.obind].
    rewrite push_below_over by (rewrite ?length_app; cbn [length]; lia).
    rewrite length_app. cbn [length].
    destruct (Nat.ltb_spec (length counters + 1) KPC_MAX_COUNTERS) as [H2|H2];
      [|reflexivity].
    cbn [Demo2.obind].
    rewrite push_below_over
      by (rewrite ?length_app; cbn [length]; lia).
    rewrite !length_app. cbn [length].
    destruct (Nat.ltb_spec (length counters + 1 + 1) KPC_MAX_COUNTERS)
      as [H3|H3]; [|reflexivity].
    cbn [Demo2.obind].
    rewrite push_below_over
      by (rewrite ?length_app; cbn [length]; lia).
    rewrite !length_app. cbn [length].
    destruct (Nat.ltb_spec (length counters + 1 + 1 + 1) KPC_MAX_COUNTERS)
      as [H4|H4]; [|reflexivity].
    cbn [Demo2.obind]. unfold Demo2.ci. rewrite !length_app. cbn [length].
    destruct (Z.eqb_spec (Z.of_nat (length counters + 1 + 1 + 1 + 1))
                counter_count) as [Heq|_]; [lia|].
    apply IH; [exact Hover|exact Hcs| |].
    + rewrite !length_app. cbn [length]. lia.
    + rewrite !length_app. cbn [length] in *. lia.
Qed.

(** X11. With more than [KPC_MAX_COUNTERS] (32) counters the decode
    overflows its local array [counters]: a start record followed by 8 or
    more continuation records of its thread fills the 32 slots and then
    stores past the end, which is undefined behaviour.  The code has no
    check of [counter_count] against the array size. *)
Theorem more_than_32_counters_overflow buf conts rest tbl :
  Z.of_nat KPC_MAX_COUNTERS < counter_count ->
  begins KDBG_FUNC_MASK DBG_FUNC_START buf ->
  Forall (continues KDBG_FUNC_MASK DBG_FUNC_START (Demo2.tid_of buf)) conts ->
  (8 <= length conts)%nat ->
  Demo2.read_counter_log KDBG_FUNC_MASK DBG_FUNC_START counter_count buf
    (conts ++ rest) = Undefined
  /\ Demo2.aggregate KDBG_FUNC_MASK DBG_FUNC_START alloc_ok counter_count
       (buf :: conts ++ rest) tbl = Undefined.
Proof.
  intros Hover [Hf Ht] Hall Hlen.
  assert (Hread : Demo2.read_counter_log KDBG_FUNC_MASK DBG_FUNC_START
                    counter_count buf (conts ++ rest) = Undefined).
  { unfold Demo2.read_counter_log, Demo2.ci. cbn [length].
    destruct (Z.ltb_spec (Z.of_nat 4) counter_count) as [_|Hge];
      [|unfold KPC_MAX_COUNTERS in Hover; lia].
    rewrite read_split_over; [reflexivity|exact Hover|exact Hall| |];
      unfold KPC_MAX_COUNTERS; cbn [length]; lia. }
  split; [exact Hread|].
  cbn [Demo2.aggregate]. apply Z.eqb_eq in Hf. rewrite Hf. cbn [negb].
  apply Z.eqb_neq in Ht. rewrite Ht. now rewrite Hread.
Qed.

End DecodeRange.

Lemma fewer_than_4_counters_record_nothing_witness :
  Demo2.aggregate Fake.KDBG_FUNC_MASK Fake.DBG_FUNC_START Fake.plenty 2
    [Fake.start_record 100 7 1 2 3 4; Fake.start_record 200 7 5 6 7 8]
    (Demo2.Table 16 [])
  = Ok (Some (Demo2.Table 16 [])).
Proof.
  apply (fewer_than_4_counters_record_nothing Fake.KDBG_FUNC_MASK
           Fake.DBG_FUNC_START Fake.plenty 2). lia.
Defined.

Lemma more_than_32_counters_overflow_witness :
  Demo2.read_counter_log Fake.KDBG_FUNC_MASK Fake.DBG_FUNC_START 40
    (Fake.start_record 100 7 1 2 3 4)
    (repeat (Fake.more_record 101 7 5 6 7 8) 8 ++ [])
  = Undefined.
Proof.
  apply (more_than_32_counters_overflow Fake.KDBG_FUNC_MASK
           Fake.DBG_FUNC_START Fake.plenty 40
           (Fake.start_record 100 7 1 2 3 4)
           (repeat (Fake.more_record 101 7 5 6 7 8) 8) []
           (Demo2.Table 16 [])).
  - vm_compute. reflexivity.
  - split; [reflexivity|discriminate].
  - repeat constructor; discriminate.
  - simpl. lia.
Defined.

(** ** The memory of the table *)

Section TableMemory.

Variables KDBG_FUNC_MASK DBG_FUNC_START : Z.
Variable alloc_ok : Z -> bool.
Variable counter_count : Z.

Lemma add_thread_data_fits tbl t ts counters tbl' :
  Demo2.add_thread_data alloc_ok counter_count tbl t ts counters = Some tbl' ->
  Demo2.thread_count tbl <= Demo2.thread_capacity tbl ->
  0 < Demo2.thread_capacity tbl ->
  Demo2.thread_count tbl < 2 ^ 62 ->
  Demo2.thread_count tbl' <= Demo2.thread_capacity tbl'
  /\ 0 < Demo2.thread_capacity tbl'
  /\ Demo2.thread_count tbl' <= Demo2.thread_count tbl + 1.
Proof.
  unfold Demo2.add_thread_data, Demo2.thread_count.
  destruct (Demo2.find_thread t (Demo2.thread_data tbl)) as [i|].
  - intros [= <-] Hfit Hpos Hsmall.
    cbn [Demo2.thread_data Demo2.thread_capacity].
    rewrite length_alter. lia.
  - destruct (Z.eqb_spec (Demo2.thread_capacity tbl)
                (Z.of_nat (length (Demo2.thread_data tbl)))) as [Hfull|Hroom].
    + destruct (alloc_ok _); [|discriminate].
      intros [= <-] Hfit Hpos Hsmall.
      cbn [Demo2.thread_data Demo2.thread_capacity].
      rewrite length_app. cbn [length].
      unfold wrap64. rewrite Z.mod_small by lia. lia.
    + intros [= <-] Hfit Hpos Hsmall.
      cbn [Demo2.thread_data Demo2.thread_capacity].
      rewrite length_app. cbn [length]. lia.
Qed.

Lemma aggregate_fits bufs : forall tbl tbl',
  Demo2.aggregate KDBG_FUNC_MASK DBG_FUNC_START alloc_ok counter_count bufs tbl
  = Ok (Some tbl') ->
  Demo2.thread_count tbl <= Demo2.thread_capacity tbl ->
  0 < Demo2.thread_capacity tbl ->
  Demo2.thread_count tbl + Z.of_nat (length bufs) < 2 ^ 62 ->
  Demo2.thread_count tbl' <= Demo2.thread_capacity tbl'
  /\ 0 < Demo2.thread_capacity tbl'.
Proof.
  induction bufs as [|buf rest IH]; intros tbl tbl' Hagg Hfit Hpos Hsmall.
  - injection Hagg as <-. auto.
  - cbn [Demo2.aggregate length] in Hagg, Hsmall.
    assert (Hskip : Demo2.aggregate KDBG_FUNC_MASK DBG_FUNC_START alloc_ok
                      counter_count rest tbl = Ok (Some tbl') ->
                    Demo2.thread_count tbl' <= Demo2.thread_capacity tbl'
                    /\ 0 < Demo2.thread_capacity tbl').
    { intros H. apply (IH tbl tbl' H Hfit Hpos). lia. }
    destruct (negb (Demo2.func KDBG_FUNC_MASK buf =? DBG_FUNC_START));
      [now apply Hskip|].
    destruct (Demo2.tid_of buf =? 0); [now apply Hskip|].
    destruct (Demo2.read_counter_log _ _ _ buf rest) as [[counters|]|];
      cbn [Demo2.obind] in Hagg; [|now apply Hskip|discriminate].
    destruct (Demo2.add_thread_data alloc_ok counter_count tbl
                (Demo2.tid_of buf) (Demo2.timestamp buf) counters)
      as [tbl1|] eqn:Hadd; [|discriminate].
    destruct (add_thread_data_fits _ _ _ _ _ Hadd Hfit Hpos)
      as (Hfit1 & Hpos1 & Hstep); [lia|].
    apply (IH tbl1 tbl' Hagg Hfit1 Hpos1). lia.
Qed.

(** X12. The table of the decode stays inside its allocation.  Whatever
    [malloc] and [realloc] grant, in a table the decode ends with the
    number of elements in use is at most the capacity that was allocated
    for it (for a trace of fewer than 2^62 records, so that doubling the
    capacity does not wrap around). *)
Theorem the_table_stays_inside_its_allocation bufs tbl :
  Z.of_nat (length bufs) < 2 ^ 62 ->
  Demo2.aggregate_thread_data KDBG_FUNC_MASK DBG_FUNC_START alloc_ok
    counter_count bufs = Ok (Some tbl) ->
  Demo2.thread_count tbl <= Demo2.thread_capacity tbl.
Proof.
  intros Hsmall. unfold Demo2.aggregate_thread_data.
  destruct (alloc_ok _); [|discriminate]. intros Hagg.
  apply (aggregate_fits bufs (Demo2.Table 16 []) tbl Hagg);
    unfold Demo2.thread_count; cbn [Demo2.thread_data Demo2.thread_capacity
                                    length]; lia.
Qed.

Lemma read_counter_log_defined buf rest :
  counter_count <= Z.of_nat KPC_MAX_COUNTERS ->
  exists s,
    Demo2.read_counter_log KDBG_FUNC_MASK DBG_FUNC_START counter_count buf rest
    = Ok s.
Proof.
  intros Hfit. unfold Demo2.read_counter_log.
  destruct (Demo2.ci _ <? counter_count).
  - destruct (read_split_defined KDBG_FUNC_MASK DBG_FUNC_START counter_count
                (Demo2.tid_of buf)
                rest [Demo2.arg1 buf; Demo2.arg2 buf; Demo2.arg3 buf;
                      Demo2.arg4 buf] Hfit) as [c ->].
    cbn [Demo2.obind]. destruct (negb _); eauto.
  - cbn [Demo2.obind]. destruct (negb _); eauto.
Qed.

Lemma aggregate_within threads bufs : forall tbl,
  counter_count <= Z.of_nat KPC_MAX_COUNTERS ->
  (length threads <= 16)%nat ->
  Forall (fun buf => In (Demo2.tid_of buf) threads) bufs ->
  Demo2.thread_capacity tbl = 16 ->
  NoDup (map Demo2.tid (Demo2.thread_data tbl)) ->
  incl (map Demo2.tid (Demo2.thread_data tbl)) threads ->
  exists tbl',
    Demo2.aggregate KDBG_FUNC_MASK DBG_FUNC_START alloc_ok counter_count bufs
      tbl = Ok (Some tbl')
    /\ Demo2.thread_capacity tbl' = 16.
Proof.
  induction bufs as [|buf rest IH];
    intros tbl Hfit Hfew Hall Hcap Hnd Hincl; [cbn; eauto|].
  inversion Hall as [|? ? Hin Hrest]; subst.
  cbn [Demo2.aggregate].
  destruct (negb (Demo2.func KDBG_FUNC_MASK buf =? DBG_FUNC_START));
    [now apply IH|].
  destruct (Demo2.tid_of buf =? 0); [now apply IH|].
  destruct (read_counter_log_defined buf rest Hfit) as [[counters|] ->];
    cbn [Demo2.obind]; [|now apply IH].
  destruct (Demo2.add_thread_data alloc_ok counter_count tbl
              (Demo2.tid_of buf) (Demo2.timestamp buf) counters)
    as [tbl1|] eqn:Hadd.
  - pose proof (add_thread_data_tids _ _ _ _ _ _ _ Hadd Hnd) as Hnd1.
    revert Hadd. unfold Demo2.add_thread_data.
    destruct (Demo2.find_thread (Demo2.tid_of buf) (Demo2.thread_data tbl))
      as [i|] eqn:Hfind.
    + intros [= <-]. cbn [Demo2.thread_data] in Hnd1.
      apply IH; cbn [Demo2.thread_data Demo2.thread_capacity]; auto.
      rewrite tids_alter; [exact Hincl|]. intros d. apply tid_store_sample.
    + assert (Hincl1 : incl (map Demo2.tid (Demo2.thread_data tbl)
                             ++ [Demo2.tid_of buf]) threads).
      { intros x Hx. apply in_app_or in Hx. destruct Hx as [Hx|[<-|[]]];
          [now apply Hincl|exact Hin]. }
      destruct (Z.eqb_spec (Demo2.thread_capacity tbl)
                  (Demo2.thread_count tbl)) as [Hfull|Hroom].
      * destruct (alloc_ok _); [|discriminate]. intros [= <-].
        cbn [Demo2.thread_data] in Hnd1.
        rewrite map_app in Hnd1. cbn [map] in Hnd1.
        rewrite tid_store_sample in Hnd1.
        cbn [Demo2.tid Demo2.new_thread_data] in Hnd1.
        pose proof (List.NoDup_incl_length (proj1 (NoDup_ListNoDup _) Hnd1)
                      Hincl1) as Hlen.
        rewrite length_app, length_map in Hlen. cbn [length] in Hlen.
        unfold Demo2.thread_count in Hfull. lia.
      * intros [= <-]. cbn [Demo2.thread_data] in Hnd1.
        apply IH; cbn [Demo2.thread_data Demo2.thread_capacity]; auto.
        rewrite map_app. cbn [map]. rewrite tid_store_sample. exact Hincl1.
  - exfalso. revert Hadd. unfold Demo2.add_thread_data.
    destruct (Demo2.find_thread (Demo2.tid_of buf) (Demo2.thread_data tbl))
      as [i|] eqn:Hfind; [discriminate|].
    destruct (Z.eqb_spec (Demo2.thread_capacity tbl)
                (Demo2.thread_count tbl)) as [Hfull|Hroom]; [|discriminate].
    intros _.
    assert (Hnd1 : NoDup (map Demo2.tid (Demo2.thread_data tbl)
                          ++ [Demo2.tid_of buf])).
    { apply NoDup_app. split; [exact Hnd|]. split; [|apply NoDup_singleton].
      intros x Hx Hx'. apply list_elem_of_singleton in Hx'. subst x.
      apply find_thread_None in Hfind.
      apply list_elem_of_fmap in Hx. destruct Hx as (d & Hd & Hind).
      rewrite Forall_forall in Hfind. apply Hfind in Hind. congruence. }
    assert (Hincl1 : incl (map Demo2.tid (Demo2.thread_data tbl)
                           ++ [Demo2.tid_of buf]) threads).
    { intros x Hx. apply in_app_or in Hx. destruct Hx as [Hx|[<-|[]]];
        [now apply Hincl|exact Hin]. }
    pose proof (List.NoDup_incl_length (proj1 (NoDup_ListNoDup _) Hnd1)
                      Hincl1) as Hlen.
    rewrite length_app, length_map in Hlen. cbn [length] in Hlen.
    unfold Demo2.thread_count in Hfull. lia.
Qed.

(** X13. The table is allocated once for 16 threads and grows only when a
    17th arrives.  When the first [malloc] succeeds and the records of the
    trace come from at most 16 threads, the decode never calls [realloc]:
    it ends with a table, of capacity 16, also when every later allocation
    would be refused. *)
Theorem up_to_16_threads_need_no_realloc threads bufs :
  counter_count <= Z.of_nat KPC_MAX_COUNTERS ->
  alloc_ok (16 * Demo2.sizeof_kpc_thread_data) = true ->
  (length threads <= 16)%nat ->
  Forall (fun buf => In (Demo2.tid_of buf) threads) bufs ->
  exists tbl,
    Demo2.aggregate_thread_data KDBG_FUNC_MASK DBG_FUNC_START alloc_ok
      counter_count bufs = Ok (Some tbl)
    /\ Demo2.thread_capacity tbl = 16.
Proof.
  intros Hfit Halloc Hfew Hall. unfold Demo2.aggregate_thread_data.
  rewrite Halloc.
  apply (aggregate_within threads); auto.
  - constructor.
  - intros x [].
Qed.

End TableMemory.

Lemma the_table_stays_inside_its_allocation_witness :
  Demo2.thread_count
    (Demo2.Table 16
       [Demo2.store_sample 4 100 [1; 2; 3; 4] (Demo2.new_thread_data 7)])
  <= 16.
Proof.
  apply (the_table_stays_inside_its_allocation Fake.KDBG_FUNC_MASK
           Fake.DBG_FUNC_START Fake.plenty 4
           [Fake.start_record 100 7 1 2 3 4]).
  - vm_compute. reflexivity.
  - reflexivity.
Defined.

Lemma up_to_16_threads_need_no_realloc_witness :
  exists tbl,
    Demo2.aggregate_thread_data Fake.KDBG_FUNC_MASK Fake.DBG_FUNC_START
      (fun size => size =? 16 * Demo2.sizeof_kpc_thread_data) 4
      [Fake.start_record 100 7 1 2 3 4; Fake.start_record 110 8 5 6 7 8]
    = Ok (Some tbl)
    /\ Demo2.thread_capacity tbl = 16.
Proof.
  apply (up_to_16_threads_need_no_realloc Fake.KDBG_FUNC_MASK
           Fake.DBG_FUNC_START
           (fun size => size =? 16 * Demo2.sizeof_kpc_thread_data) 4 [7; 8]).
  - vm_compute. discriminate.
  - reflexivity.
  - simpl. lia.
  - repeat (apply List.Forall_cons; [vm_compute; tauto|]).
    apply List.Forall_nil.
Defined.

(** ** The collection of the trace *)

Section Collection.

Variables KDBG_EXTRACT_CLASS KDBG_EXTRACT_SUBCLASS KDBG_EXTRACT_CODE : Z -> Z.
Variable DBG_PERF : Z.

Abbreviation thread_pmc_data :=
  (Collect.thread_pmc_data KDBG_EXTRACT_CLASS KDBG_EXTRACT_SUBCLASS
     KDBG_EXTRACT_CODE DBG_PERF).
Abbreviation keep_loop :=
  (Collect.keep_loop KDBG_EXTRACT_CLASS KDBG_EXTRACT_SUBCLASS
     KDBG_EXTRACT_CODE DBG_PERF).

(** The loop from record [buf] on, with the records kept so far ending at
    [buf_cur], which is not after [buf]: no record is overwritten before
    it was read. *)
Lemma keep_loop_run n : forall buf mem buf_cur,
  (buf_cur <= buf)%nat -> (buf + n <= length mem)%nat ->
  exists mem',
    keep_loop n buf mem buf_cur
    = Ok (mem',
          (buf_cur
           + length (List.filter thread_pmc_data (take n (drop buf mem))))%nat)
    /\ length mem' = length mem
    /\ take (buf_cur
             + length (List.filter thread_pmc_data (take n (drop buf mem))))
         mem'
       = take buf_cur mem
         ++ List.filter thread_pmc_data (take n (drop buf mem))
    /\ drop (buf + n) mem' = drop (buf + n) mem.
Proof.
  induction n as [|n IH]; intros buf mem buf_cur Hle Hfit.
  - exists mem. cbn [Collect.keep_loop take List.filter length].
    rewrite Nat.add_0_r, app_nil_r. auto.
  - cbn [Collect.keep_loop].
    destruct (lookup_lt_is_Some_2 mem buf) as [b Hb]; [lia|].
    rewrite Hb. rewrite (drop_S _ _ _ Hb). cbn [take List.filter].
    destruct (thread_pmc_data b) eqn:Hkeep.
    + destruct (Nat.ltb_spec buf_cur (length mem)) as [Hin|]; [|lia].
      destruct (IH (S buf) (<[buf_cur := b]> mem) (S buf_cur))
        as (mem' & Hrun & Hlen & Htake & Hdrop);
        [lia|rewrite length_insert; lia|].
      rewrite drop_insert_lt in Hrun, Htake by lia.
      rewrite drop_insert_lt in Hdrop by lia.
      rewrite length_insert in Hlen.
      exists mem'. cbn [length]. rewrite Nat.add_succ_r.
      split; [exact Hrun|]. split; [exact Hlen|].
      split; [|now rewrite Nat.add_succ_r].
      cbn [Nat.add] in Htake. rewrite Htake.
      rewrite (take_S_r _ _ b) by now apply list_lookup_insert_eq.
      rewrite take_insert_ge by lia. now rewrite <- app_assoc.
    + destruct (IH (S buf) mem buf_cur) as (mem' & Hrun & Hlen & Htake & Hdrop);
        [lia|lia|].
      exists mem'. split; [exact Hrun|]. split; [exact Hlen|].
      split; [exact Htake|]. now rewrite Nat.add_succ_r.
Qed.

Lemma keep_loop_outside n : forall buf mem buf_cur,
  (buf_cur <= buf <= length mem)%nat -> (length mem < buf + n)%nat ->
  keep_loop n buf mem buf_cur = Undefined.
Proof.
  induction n as [|n IH]; intros buf mem buf_cur Hle Hout; [lia|].
  cbn [Collect.keep_loop].
  destruct (mem !! buf) as [b|] eqn:Hb; [|reflexivity].
  apply lookup_lt_Some in Hb.
  destruct (thread_pmc_data b).
  - destruct (Nat.ltb_spec buf_cur (length mem)) as [Hin|]; [|lia].
    apply IH; rewrite ?length_insert; lia.
  - apply IH; lia.
Qed.

(** X14. The loop that keeps only the thread PMC records compacts the
    trace in place and in order.  After a read that stored [count] records
    at [buf_cur], inside the buffer: the records before [buf_cur] are as
    they were, the records of the read that have class [DBG_PERF],
    subclass [PERF_KPC] and code [PERF_KPC_DATA_THREAD] follow them in
    their order, the others are dropped, and [buf_cur] ends after the last
    record kept.  When [count] reaches past the end of the buffer the loop
    reads outside it, which is undefined behaviour. *)
Theorem keeping_compacts_in_order mem buf_cur count :
  let kept := List.filter thread_pmc_data (take count (drop buf_cur mem)) in
  ((buf_cur + count <= length mem)%nat ->
   exists mem',
     Collect.keep_thread_pmc_data KDBG_EXTRACT_CLASS KDBG_EXTRACT_SUBCLASS
       KDBG_EXTRACT_CODE DBG_PERF mem buf_cur count
     = Ok (mem', (buf_cur + length kept)%nat)
     /\ length mem' = length mem
     /\ take (buf_cur + length kept) mem' = take buf_cur mem ++ kept)
  /\ ((buf_cur <= length mem < buf_cur + count)%nat ->
      Collect.keep_thread_pmc_data KDBG_EXTRACT_CLASS KDBG_EXTRACT_SUBCLASS
        KDBG_EXTRACT_CODE DBG_PERF mem buf_cur count
      = Undefined).
Proof.
  intros kept. unfold Collect.keep_thread_pmc_data. split.
  - intros Hfit.
    destruct (keep_loop_run count buf_cur mem buf_cur (Nat.le_refl _) Hfit)
      as (mem' & Hrun & Hlen & Htake & _).
    exists mem'. auto.
  - intros Hout. apply keep_loop_outside; lia.
Qed.

End Collection.

Lemma keeping_compacts_in_order_witness :
  Collect.keep_thread_pmc_data Fake.KDBG_EXTRACT_CLASS
    Fake.KDBG_EXTRACT_SUBCLASS Fake.KDBG_EXTRACT_CODE Fake.DBG_PERF
    [Fake.start_record 100 7 1 2 3 4; Fake.other_record 101 7;
     Fake.other_record 102 8; Fake.start_record 103 8 5 6 7 8;
     Fake.other_record 0 0]
    1 3
  = Ok ([Fake.start_record 100 7 1 2 3 4; Fake.start_record 103 8 5 6 7 8;
         Fake.other_record 102 8; Fake.start_record 103 8 5 6 7 8;
         Fake.other_record 0 0], 2%nat).
Proof.
  destruct (proj1 (keeping_compacts_in_order Fake.KDBG_EXTRACT_CLASS
                     Fake.KDBG_EXTRACT_SUBCLASS Fake.KDBG_EXTRACT_CODE
                     Fake.DBG_PERF
                     [Fake.start_record 100 7 1 2 3 4;
                      Fake.other_record 101 7; Fake.other_record 102 8;
                      Fake.start_record 103 8 5 6 7 8; Fake.other_record 0 0]
                     1 3))
    as (mem' & Hrun & _); [simpl; lia|].
  reflexivity.
Defined.

(** ** The report *)

Lemma wrap64_add_l a b : wrap64 (wrap64 a + b) = wrap64 (a + b).
Proof. unfold wrap64. apply Zplus_mod_idemp_l. Qed.

Lemma wrap64_sub64 a b : wrap64 (0 + sub64 a b) = sub64 a b.
Proof. unfold sub64, wrap64. rewrite Z.add_0_l. apply Z.mod_mod. lia. Qed.

Lemma lookup_zeros n c : (c < n)%nat -> zeros n !! c = Some 0.
Proof.
  unfold zeros. revert c. induction n as [|n IH]; intros [|c] H; try lia.
  - reflexivity.
  - apply IH. lia.
Qed.

Section ReportLoops.

Variable counter_count : Z.
Variable counter_map : list Z.

Abbreviation delta_loop := Report.delta_loop.
Abbreviation sum_loop := Report.sum_loop.
Abbreviation event_values := (Report.event_values counter_map).
Abbreviation report_loop := (Report.report_loop counter_count counter_map).
Abbreviation line_of := (line_of counter_count counter_map).

Lemma delta_loop_spec data cs : forall one,
  NoDup cs ->
  Forall (fun c => (c < length one)%nat
                   /\ (c < length (Demo2.counters_1 data))%nat
                   /\ (c < length (Demo2.counters_0 data))%nat) cs ->
  exists one',
    delta_loop cs data one = Ok one' /\ length one' = length one
    /\ forall c,
         one' !! c
         = (fun x => if bool_decide (c ∈ cs)
                     then wrap64 (x + sub64
                                        (default 0 (Demo2.counters_1 data !! c))
                                        (default 0 (Demo2.counters_0 data !! c)))
                     else x) <$> one !! c.
Proof.
  induction cs as [|c0 rest IH]; intros one Hnd Hall.
  - exists one. split; [reflexivity|]. split; [reflexivity|].
    intros c. now destruct (one !! c).
  - apply NoDup_cons in Hnd. destruct Hnd as [Hnotin Hnd].
    inversion Hall as [|? ? (H1 & H2 & H3) Hrest]; subst.
    destruct (lookup_lt_is_Some_2 _ _ H1) as [x Hx].
    destruct (lookup_lt_is_Some_2 _ _ H2) as [a Ha].
    destruct (lookup_lt_is_Some_2 _ _ H3) as [b Hb].
    cbn [Report.delta_loop]. rewrite Ha, Hb. unfold Report.add_at.
    rewrite Hx. cbn [Demo2.obind].
    destruct (IH (<[c0 := wrap64 (x + sub64 a b)]> one) Hnd)
      as (one' & Hrun & Hlen & Hval).
    { eapply Forall_impl; [exact Hrest|]. cbv beta.
      intros c (? & ? & ?). now rewrite length_insert. }
    exists one'. split; [exact Hrun|].
    split; [now rewrite Hlen, length_insert|].
    intros c. rewrite Hval.
    destruct (decide (c = c0)) as [->|Hne].
    + rewrite list_lookup_insert_eq by exact H1. rewrite Hx, Ha, Hb.
      cbn [fmap option_fmap option_map from_option id].
      rewrite bool_decide_eq_false_2 by exact Hnotin.
      rewrite bool_decide_eq_true_2 by constructor. reflexivity.
    + rewrite list_lookup_insert_ne by congruence.
      destruct (decide (c ∈ rest)) as [Hin|Hout].
      * rewrite !bool_decide_eq_true_2; [reflexivity| |exact Hin].
        now constructor.
      * rewrite !bool_decide_eq_false_2; [reflexivity| |exact Hout].
        intros H. apply elem_of_cons in H. tauto.
Qed.

Lemma sum_loop_spec one cs : forall sum,
  NoDup cs ->
  Forall (fun c => (c < length sum)%nat /\ (c < length one)%nat) cs ->
  exists sum',
    sum_loop cs one sum = Ok sum' /\ length sum' = length sum
    /\ forall c,
         sum' !! c
         = (fun s => if bool_decide (c ∈ cs)
                     then wrap64 (s + default 0 (one !! c))
                     else s) <$> sum !! c.
Proof.
  induction cs as [|c0 rest IH]; intros sum Hnd Hall.
  - exists sum. split; [reflexivity|]. split; [reflexivity|].
    intros c. now destruct (sum !! c).
  - apply NoDup_cons in Hnd. destruct Hnd as [Hnotin Hnd].
    inversion Hall as [|? ? (H1 & H2) Hrest]; subst.
    destruct (lookup_lt_is_Some_2 _ _ H1) as [s Hs].
    destruct (lookup_lt_is_Some_2 _ _ H2) as [v Hv].
    cbn [Report.sum_loop]. rewrite Hv. unfold Report.add_at.
    rewrite Hs. cbn [Demo2.obind].
    destruct (IH (<[c0 := wrap64 (s + v)]> sum) Hnd)
      as (sum' & Hrun & Hlen & Hval).
    { eapply Forall_impl; [exact Hrest|]. cbv beta.
      intros c (? & ?). now rewrite length_insert. }
    exists sum'. split; [exact Hrun|].
    split; [now rewrite Hlen, length_insert|].
    intros c. rewrite Hval.
    destruct (decide (c = c0)) as [->|Hne].
    + rewrite list_lookup_insert_eq by exact H1. rewrite Hs, Hv.
      cbn [fmap option_fmap option_map from_option id].
      rewrite bool_decide_eq_false_2 by exact Hnotin.
      rewrite bool_decide_eq_true_2 by constructor. reflexivity.
    + rewrite list_lookup_insert_ne by congruence.
      destruct (decide (c ∈ rest)) as [Hin|Hout].
      * rewrite !bool_decide_eq_true_2; [reflexivity| |exact Hin].
        now constructor.
      * rewrite !bool_decide_eq_false_2; [reflexivity| |exact Hout].
        intros H. apply elem_of_cons in H. tauto.
Qed.

Lemma event_values_spec counters events :
  Forall (fun i => exists idx,
            counter_map !! i = Some idx /\ 0 <= idx
            /\ (Z.to_nat idx < length counters)%nat) events ->
  event_values events counters
  = Ok (map (fun i => default 0 (counters !! mapped counter_map i)) events).
Proof.
  induction events as [|i rest IH]; intros Hall; [reflexivity|].
  inversion Hall as [|? ? (idx & Hidx & H0 & Hlt) Hrest]; subst.
  cbn [Report.event_values map]. unfold mapped at 1. rewrite Hidx.
  destruct (Z.ltb_spec idx 0); [lia|].
  destruct (lookup_lt_is_Some_2 _ _ Hlt) as [v Hv].
  cbn [from_option id]. rewrite Hv, (IH Hrest). reflexivity.
Qed.

Hypothesis count_range : 0 <= counter_count <= Z.of_nat KPC_MAX_COUNTERS.

Lemma counter_indices_spec :
  NoDup (Report.counter_indices counter_count)
  /\ (forall c, c ∈ Report.counter_indices counter_count
                <-> Z.of_nat c < counter_count)
  /\ Forall (fun c => (c < KPC_MAX_COUNTERS)%nat)
       (Report.counter_indices counter_count).
Proof.
  unfold Report.counter_indices. split; [apply NoDup_seq|]. split.
  - intros c. rewrite elem_of_seq. lia.
  - apply Forall_forall. intros c Hc. apply elem_of_seq in Hc. lia.
Qed.

Lemma delta_loop_run data :
  snapshots_sized data ->
  exists one,
    delta_loop (Report.counter_indices counter_count) data
      (zeros KPC_MAX_COUNTERS) = Ok one
    /\ length one = KPC_MAX_COUNTERS
    /\ forall c, (c < KPC_MAX_COUNTERS)%nat ->
                 one !! c = Some (delta_of counter_count data c).
Proof.
  intros [H0 H1].
  destruct counter_indices_spec as (Hnd & Hin & Hlt).
  destruct (delta_loop_spec data (Report.counter_indices counter_count)
              (zeros KPC_MAX_COUNTERS) Hnd) as (one & Hrun & Hlen & Hval).
  { eapply Forall_impl; [exact Hlt|]. cbv beta. intros c Hc.
    rewrite H0, H1. unfold zeros. rewrite repeat_length. auto. }
  exists one. split; [exact Hrun|].
  unfold zeros in Hlen. rewrite repeat_length in Hlen.
  split; [exact Hlen|]. intros c Hc. rewrite Hval, (lookup_zeros _ _ Hc).
  cbn [fmap option_fmap option_map]. unfold delta_of. f_equal.
  destruct (Z.ltb_spec (Z.of_nat c) counter_count) as [Hlt'|Hge].
  - rewrite bool_decide_eq_true_2 by now apply Hin.
    apply wrap64_sub64.
  - rewrite bool_decide_eq_false_2; [reflexivity|].
    intros H. apply Hin in H. lia.
Qed.

Lemma sum_loop_run data one sum (acc : nat -> Z) :
  length one = KPC_MAX_COUNTERS ->
  (forall c, (c < KPC_MAX_COUNTERS)%nat ->
             one !! c = Some (delta_of counter_count data c)) ->
  length sum = KPC_MAX_COUNTERS ->
  (forall c, (c < KPC_MAX_COUNTERS)%nat -> sum !! c = Some (wrap64 (acc c))) ->
  exists sum',
    sum_loop (Report.counter_indices counter_count) one sum = Ok sum'
    /\ length sum' = KPC_MAX_COUNTERS
    /\ forall c, (c < KPC_MAX_COUNTERS)%nat ->
                 sum' !! c
                 = Some (wrap64 (acc c + delta_of counter_count data c)).
Proof.
  intros Hone Hval Hsum Hacc.
  destruct counter_indices_spec as (Hnd & Hin & Hlt).
  destruct (sum_loop_spec one (Report.counter_indices counter_count) sum Hnd)
    as (sum' & Hrun & Hlen & Hres).
  { eapply Forall_impl; [exact Hlt|]. cbv beta. intros c Hc.
    rewrite Hone, Hsum. auto. }
  exists sum'. split; [exact Hrun|]. split; [now rewrite Hlen|].
  intros c Hc. rewrite Hres, (Hacc c Hc), (Hval c Hc).
  cbn [fmap option_fmap option_map from_option id]. f_equal.
  destruct (Z.ltb_spec (Z.of_nat c) counter_count) as [Hlt'|Hge].
  - rewrite bool_decide_eq_true_2 by now apply Hin.
    apply wrap64_add_l.
  - rewrite bool_decide_eq_false_2 by (intros H; apply Hin in H; lia).
    unfold delta_of. destruct (Z.ltb_spec (Z.of_nat c) counter_count); [lia|].
    now rewrite Z.add_0_r.
Qed.

Hypothesis map_range :
  Forall (fun i => exists idx,
            counter_map !! i = Some idx
            /\ 0 <= idx < Z.of_nat KPC_MAX_COUNTERS) (seq 0 ev_count).

Lemma event_values_run counters :
  length counters = KPC_MAX_COUNTERS ->
  event_values (seq 0 ev_count) counters
  = Ok (map (fun i => default 0 (counters !! mapped counter_map i))
          (seq 0 ev_count)).
Proof.
  intros Hlen. apply event_values_spec.
  eapply Forall_impl; [exact map_range|]. cbv beta.
  intros i (idx & Hidx & Hr). exists idx. rewrite Hlen.
  split; [exact Hidx|]. lia.
Qed.

Lemma mapped_range i :
  In i (seq 0 ev_count) -> (mapped counter_map i < KPC_MAX_COUNTERS)%nat.
Proof.
  intros Hi. pose proof map_range as H. rewrite List.Forall_forall in H.
  destruct (H i Hi) as (idx & Hidx & Hr). unfold mapped. rewrite Hidx.
  cbn [from_option id]. lia.
Qed.

Lemma report_loop_run threads : forall sum acc,
  Forall snapshots_sized threads ->
  length sum = KPC_MAX_COUNTERS ->
  (forall c, (c < KPC_MAX_COUNTERS)%nat -> sum !! c = Some (wrap64 (acc c))) ->
  exists sum',
    report_loop threads sum
    = Ok (map line_of (List.filter complete threads), sum')
    /\ length sum' = KPC_MAX_COUNTERS
    /\ forall c, (c < KPC_MAX_COUNTERS)%nat ->
         sum' !! c
         = Some (wrap64 (acc c
                         + total (map (fun d => delta_of counter_count d c)
                                    (List.filter complete threads)))).
Proof.
  induction threads as [|d rest IH]; intros sum acc Hsized Hlen Hacc.
  - exists sum. split; [reflexivity|]. split; [exact Hlen|].
    intros c Hc. cbn. rewrite Z.add_0_r. now apply Hacc.
  - inversion Hsized as [|? ? Hd Hrest]; subst.
    cbn [Report.report_loop List.filter].
    assert (Hc : complete d
                 = negb ((Demo2.timestamp_0 d =? 0)
                         || (Demo2.timestamp_1 d =? 0)))
      by (unfold complete; now rewrite negb_orb).
    rewrite Hc.
    destruct ((Demo2.timestamp_0 d =? 0) || (Demo2.timestamp_1 d =? 0));
      cbn [negb]; [now apply IH|].
    destruct (delta_loop_run d Hd) as (one & -> & Hone & Hval).
    cbn [Demo2.obind]. rewrite (event_values_run one Hone).
    cbn [Demo2.obind].
    destruct (sum_loop_run d one sum acc Hone Hval Hlen Hacc)
      as (sum1 & -> & Hlen1 & Hacc1).
    cbn [Demo2.obind].
    destruct (IH sum1 (fun c => acc c + delta_of counter_count d c)
                Hrest Hlen1 Hacc1) as (sum' & -> & Hlen' & Hacc').
    exists sum'. split; [|split; [exact Hlen'|]].
    + assert (Hvals :
                map (fun i => default 0 (one !! mapped counter_map i))
                  (seq 0 ev_count)
                = map (fun i => delta_of counter_count d (mapped counter_map i))
                    (seq 0 ev_count)).
      { apply map_ext_in. intros i Hi.
        now rewrite (Hval _ (mapped_range i Hi)). }
      rewrite Hvals. reflexivity.
    + intros c Hlt. rewrite (Hacc' c Hlt). cbn [map total fold_right].
      f_equal. f_equal. fold (total (map (fun d0 => delta_of counter_count d0 c)
                                       (List.filter complete rest))). lia.
Qed.

(** X15. The report prints one line for each thread that has both
    snapshots (both timestamps other than 0), in the order of the table,
    and skips the others.  The value of an event in a line is the
    difference, in 64-bit arithmetic, of the thread's two snapshots at the
    counter the event is mapped to, and 0 when that counter is not below
    [counter_count].  The value printed for an event under "all threads"
    is the sum, in 64-bit arithmetic, of the values printed for it in the
    lines. *)
Theorem the_report_sums_the_lines tbl :
  Forall snapshots_sized (Demo2.thread_data tbl) ->
  exists lines totals,
    Report.report counter_count counter_map tbl = Ok (lines, totals)
    /\ lines = map line_of (List.filter complete (Demo2.thread_data tbl))
    /\ totals = map (fun i => wrap64 (total (column i lines)))
                  (seq 0 ev_count).
Proof.
  intros Hsized. unfold Report.report.
  destruct (report_loop_run (Demo2.thread_data tbl) (zeros KPC_MAX_COUNTERS)
              (fun _ => 0) Hsized) as (sum' & -> & Hlen & Hacc).
  { unfold zeros. apply repeat_length. }
  { intros c Hc. now rewrite (lookup_zeros _ _ Hc). }
  rewrite (event_values_run sum' Hlen). cbn [Demo2.obind].
  eexists _, _. split; [reflexivity|]. split; [reflexivity|].
  apply map_ext_in. intros i Hi.
  rewrite (Hacc _ (mapped_range i Hi)). cbn [from_option id]. rewrite Z.add_0_l.
  f_equal. f_equal. unfold column. rewrite map_map.
  apply map_ext. intros d. unfold line_of. cbn [Report.l_values].
  apply in_seq in Hi.
  rewrite lookup_map, lookup_seq_lt by lia. reflexivity.
Qed.

End ReportLoops.

Lemma the_report_sums_the_lines_witness :
  exists lines totals,
    Report.report 2 ([0; 1] ++ zeros 30)
      (Demo2.Table 16
         [Demo2.ThreadData 7 100 150 ([10; 20] ++ zeros 30)
            ([15; 45] ++ zeros 30);
          Demo2.ThreadData 8 100 0 ([10; 20] ++ zeros 30) (zeros 32);
          Demo2.ThreadData 9 5 9 ([1; 1] ++ zeros 30) ([2; 3] ++ zeros 30)])
    = Ok (lines, totals)
    /\ totals = map (fun i => wrap64 (total (column i lines)))
                  (seq 0 ev_count).
Proof.
  destruct (the_report_sums_the_lines 2 ([0; 1] ++ zeros 30))
    with (tbl := Demo2.Table 16
         [Demo2.ThreadData 7 100 150 ([10; 20] ++ zeros 30)
            ([15; 45] ++ zeros 30);
          Demo2.ThreadData 8 100 0 ([10; 20] ++ zeros 30) (zeros 32);
          Demo2.ThreadData 9 5 9 ([1; 1] ++ zeros 30) ([2; 3] ++ zeros 30)])
    as (lines & totals & Hrun & _ & Htotals).
  4: now exists lines, totals.
  - vm_compute. split; discriminate.
  - repeat (apply List.Forall_cons;
            [eexists; split; [reflexivity|vm_compute; split; congruence]|]).
    apply List.Forall_nil.
  - repeat (apply List.Forall_cons; [split; reflexivity|]).
    apply List.Forall_nil.
Defined.

(** Two threads with both snapshots and one without its end: two lines,
    and the sums of their values. *)
Example report_of_three_threads :
  Report.report 2 ([0; 1] ++ zeros 30)
    (Demo2.Table 16
       [Demo2.ThreadData 7 100 150 ([10; 20] ++ zeros 30)
          ([15; 45] ++ zeros 30);
        Demo2.ThreadData 8 100 0 ([10; 20] ++ zeros 30) (zeros 32);
        Demo2.ThreadData 9 5 9 ([1; 1] ++ zeros 30) ([2; 3] ++ zeros 30)])
  = Ok ([Report.Line 7 50 [5; 25; 5; 5]; Report.Line 9 4 [1; 2; 1; 1]],
        [6; 27; 6; 6]).
Proof. vm_compute. reflexivity. Qed.

(** ** From the trace to the report *)

Lemma length_memcpy counter_count dst src :
  length src = Z.to_nat counter_count ->
  (Z.to_nat counter_count <= length dst)%nat ->
  length (Demo2.memcpy counter_count dst src) = length dst.
Proof.
  intros Hsrc Hdst. unfold Demo2.memcpy.
  rewrite length_app, length_take, length_drop. lia.
Qed.

Lemma store_sample_sized counter_count ts counters d :
  counter_count <= Z.of_nat KPC_MAX_COUNTERS ->
  length counters = Z.to_nat counter_count ->
  snapshots_sized d ->
  snapshots_sized (Demo2.store_sample counter_count ts counters d).
Proof.
  intros Hfit Hlen [H0 H1]. unfold Demo2.store_sample, snapshots_sized.
  destruct (Demo2.timestamp_0 d =? 0);
    cbn [Demo2.counters_0 Demo2.counters_1];
    rewrite length_memcpy by (auto; lia); auto.
Qed.

Lemma new_thread_data_sized t : snapshots_sized (Demo2.new_thread_data t).
Proof. split; apply repeat_length. Qed.

Lemma add_thread_data_sized alloc_ok counter_count tbl t ts counters tbl' :
  counter_count <= Z.of_nat KPC_MAX_COUNTERS ->
  length counters = Z.to_nat counter_count ->
  Demo2.add_thread_data alloc_ok counter_count tbl t ts counters = Some tbl' ->
  Forall snapshots_sized (Demo2.thread_data tbl) ->
  Forall snapshots_sized (Demo2.thread_data tbl').
Proof.
  intros Hfit Hlen. unfold Demo2.add_thread_data.
  destruct (Demo2.find_thread t (Demo2.thread_data tbl)) as [i|].
  - intros [= <-] Hall. cbn [Demo2.thread_data].
    apply Forall_alter; [exact Hall|]. intros d _ Hd.
    now apply store_sample_sized.
  - destruct (if Demo2.thread_capacity tbl =? Demo2.thread_count tbl
              then _ else _) as [capacity|]; [|discriminate].
    intros [= <-] Hall. cbn [Demo2.thread_data].
    apply Forall_app. split; [exact Hall|]. constructor; [|constructor].
    apply store_sample_sized; auto. apply new_thread_data_sized.
Qed.

Lemma aggregate_sized mask start alloc_ok counter_count bufs :
  forall tbl tbl',
  counter_count <= Z.of_nat KPC_MAX_COUNTERS ->
  Demo2.aggregate mask start alloc_ok counter_count bufs tbl
  = Ok (Some tbl') ->
  Forall snapshots_sized (Demo2.thread_data tbl) ->
  Forall snapshots_sized (Demo2.thread_data tbl').
Proof.
  induction bufs as [|buf rest IH]; intros tbl tbl' Hfit.
  - intros [= <-]. auto.
  - cbn [Demo2.aggregate].
    destruct (negb (Demo2.func mask buf =? start)); [now apply IH|].
    destruct (Demo2.tid_of buf =? 0); [now apply IH|].
    destruct (Demo2.read_counter_log mask start counter_count buf rest)
      as [[counters|]|] eqn:Hread; cbn [Demo2.obind];
      [|now apply IH|discriminate].
    destruct (Demo2.add_thread_data alloc_ok counter_count tbl
                (Demo2.tid_of buf) (Demo2.timestamp buf) counters)
      as [tbl1|] eqn:Hadd; [|discriminate].
    intros Hagg Hall. apply (IH tbl1 tbl' Hfit Hagg).
    eapply add_thread_data_sized; eauto.
    eapply read_counter_log_length; eauto.
Qed.

Lemma thread_entry_None t tbl :
  thread_entry t tbl = None ->
  Demo2.find_thread t (Demo2.thread_data tbl) = None.
Proof.
  unfold thread_entry.
  destruct (Demo2.find_thread t (Demo2.thread_data tbl)) as [i|] eqn:Hfind;
    [|reflexivity].
  destruct (find_thread_Some _ _ _ Hfind) as (d & -> & _). discriminate.
Qed.

Section EndToEnd.

Variables KDBG_FUNC_MASK DBG_FUNC_START : Z.
Variable alloc_ok : Z -> bool.
Variable counter_count : Z.
Variable counter_map : list Z.

Hypothesis count_range : 0 <= counter_count <= Z.of_nat KPC_MAX_COUNTERS.
Hypothesis map_range :
  Forall (fun i => exists idx,
            counter_map !! i = Some idx
            /\ 0 <= idx < Z.of_nat KPC_MAX_COUNTERS) (seq 0 ev_count).

Abbreviation line_of := (line_of counter_count counter_map).

Lemma report_run tbl :
  Forall snapshots_sized (Demo2.thread_data tbl) ->
  exists totals,
    Report.report counter_count counter_map tbl
    = Ok (map line_of (List.filter complete (Demo2.thread_data tbl)), totals).
Proof.
  intros Hsized. unfold Report.report.
  destruct (report_loop_run counter_count counter_map count_range map_range
              (Demo2.thread_data tbl) (zeros KPC_MAX_COUNTERS)
              (fun _ => 0) Hsized) as (sum' & -> & Hlen & _).
  { unfold zeros. apply repeat_length. }
  { intros c Hc. now rewrite (lookup_zeros _ _ Hc). }
  rewrite (event_values_run counter_map map_range sum' Hlen).
  cbn [Demo2.obind]. eauto.
Qed.

Lemma tids_of_lines data :
  map Report.l_tid (map line_of data) = map Demo2.tid data.
Proof. rewrite map_map. reflexivity. Qed.

(** A thread without an element has no line. *)
Lemma no_entry_no_line t data :
  Demo2.find_thread t data = None ->
  ~ In t (map Report.l_tid (map line_of (List.filter complete data))).
Proof.
  intros Hfind Hin. rewrite tids_of_lines in Hin.
  apply in_map_iff in Hin. destruct Hin as (d & Htid & Hd).
  apply filter_In in Hd. destruct Hd as [Hd _].
  apply find_thread_None in Hfind. rewrite List.Forall_forall in Hfind.
  now apply (Hfind d Hd).
Qed.

(** The lines of a thread with an element: the line of that element when
    it has both snapshots, and none when it has not. *)
Lemma entry_line t tbl d line :
  NoDup (map Demo2.tid (Demo2.thread_data tbl)) ->
  thread_entry t tbl = Some d ->
  In line (map line_of (List.filter complete (Demo2.thread_data tbl)))
  /\ Report.l_tid line = t
  <-> complete d = true /\ line = line_of d.
Proof.
  intros Hnd. unfold thread_entry. generalize dependent (Demo2.thread_data tbl).
  intros data Hnd.
  destruct (Demo2.find_thread t data) as [i|] eqn:Hfind; [|discriminate].
  intros Hd. destruct (find_thread_Some _ _ _ Hfind) as (d0 & Hd0 & Htid).
  rewrite Hd in Hd0. injection Hd0 as <-.
  split.
  - intros [Hin Hline]. apply in_map_iff in Hin.
    destruct Hin as (d' & <- & Hd').
    apply filter_In in Hd'. destruct Hd' as [Hd' Hcomplete].
    simpl in Hline.
    apply list_elem_of_In, list_elem_of_lookup in Hd'.
    destruct Hd' as (j & Hj).
    assert (Hij : i = j).
    { apply (NoDup_lookup _ i j t Hnd).
      - now rewrite list_lookup_fmap, Hd; cbn; rewrite Htid.
      - rewrite list_lookup_fmap, Hj. cbn. now rewrite <- Hline. }
    subst j. rewrite Hd in Hj. injection Hj as <-. auto.
  - intros [Hcomplete ->]. split; [|exact Htid].
    apply in_map. apply filter_In. split; [|exact Hcomplete].
    apply list_elem_of_In, list_elem_of_lookup. eauto.
Qed.

(** X16. From the trace to the report, thread by thread.  In the report
    of a table the decode ends with, a thread without a complete sample
    has no line.  For a thread whose first complete sample has a timestamp
    other than 0: with that sample alone it has no line, and neither when
    its last sample has the timestamp 0; otherwise it has exactly one
    line, whose ticks are the last timestamp minus the first and whose
    value for each event is the last sample's counter minus the first
    sample's, in 64-bit arithmetic, at the counter the event is mapped to
    (0 when that counter is not below [counter_count]).  The samples in
    between do not count. *)
Theorem a_line_is_the_last_sample_minus_the_first bufs tbl :
  Demo2.aggregate_thread_data KDBG_FUNC_MASK DBG_FUNC_START alloc_ok
    counter_count bufs = Ok (Some tbl) ->
  exists lines totals,
    Report.report counter_count counter_map tbl = Ok (lines, totals)
    /\ forall t,
         match samples_of KDBG_FUNC_MASK DBG_FUNC_START counter_count t bufs
         with
         | [] => ~ In t (map Report.l_tid lines)
         | first :: later =>
             s_timestamp first <> 0 ->
             match last later with
             | None => ~ In t (map Report.l_tid lines)
             | Some latest =>
                 (s_timestamp latest = 0 ->
                  ~ In t (map Report.l_tid lines))
                 /\ (s_timestamp latest <> 0 ->
                     forall line,
                       In line lines /\ Report.l_tid line = t
                       <-> line
                           = Report.Line t
                               (sub64 (s_timestamp latest) (s_timestamp first))
                               (map (fun i =>
                                       sample_delta counter_count first latest
                                         (mapped counter_map i))
                                  (seq 0 ev_count)))
             end
         end.
Proof.
  unfold Demo2.aggregate_thread_data.
  destruct (alloc_ok _); [|discriminate]. intros Hagg.
  assert (Hsized : Forall snapshots_sized (Demo2.thread_data tbl)).
  { apply (aggregate_sized _ _ _ _ _ _ _ (proj2 count_range) Hagg).
    constructor. }
  destruct (report_run tbl Hsized) as (totals & Hrun).
  eexists _, totals. split; [exact Hrun|]. intros t.
  destruct (aggregate_entries _ _ _ _ t _ _ _ Hagg) as [Hentry Hnd].
  specialize (Hnd (NoDup_nil_2 (A:=Z))).
  change (thread_entry t (Demo2.Table 16 [])) with
    (@None Demo2.kpc_thread_data) in Hentry.
  pose proof (samples_of_length KDBG_FUNC_MASK DBG_FUNC_START counter_count
                t bufs) as Hlen.
  destruct (samples_of _ _ _ t bufs) as [|first later].
  { apply no_entry_no_line, thread_entry_None, Hentry. }
  intros Hts. inversion Hlen as [|? ? Hfirst Hlater]; subst.
  cbn [fold_left] in Hentry.
  set (d1 := Demo2.ThreadData t (s_timestamp first) 0
               (Demo2.memcpy counter_count (zeros KPC_MAX_COUNTERS)
                  (s_counters first))
               (zeros KPC_MAX_COUNTERS)).
  assert (Hd1 : stored counter_count t None first = Some d1) by reflexivity.
  rewrite Hd1 in Hentry.
  destruct (fold_later counter_count t later d1 Hts Hlater)
    as (d & Hfold & Htid & Ht0 & Hc0 & Hlast).
  rewrite Hfold in Hentry.
  cbn [Demo2.tid Demo2.timestamp_0 Demo2.counters_0 d1] in Htid, Ht0, Hc0.
  assert (Hnone : complete d = false ->
                  ~ In t (map Report.l_tid
                            (map line_of
                               (List.filter complete (Demo2.thread_data tbl))))).
  { intros Hinc Hin. apply in_map_iff in Hin.
    destruct Hin as (line & Hline & Hin).
    destruct (proj1 (entry_line t tbl d line Hnd Hentry) (conj Hin Hline))
      as [Hc _].
    congruence. }
  destruct (last later) as [latest|].
  - destruct Hlast as [Ht1 Hc1]. split.
    + intros Hzero. apply Hnone. unfold complete. rewrite Ht1, Hzero.
      now rewrite andb_false_r.
    + intros Hnz line.
      rewrite (entry_line t tbl d line Hnd Hentry).
      assert (Hcomplete : complete d = true).
      { unfold complete. rewrite Ht0, Ht1.
        apply Z.eqb_neq in Hts, Hnz. now rewrite Hts, Hnz. }
      assert (Hline : line_of d
                      = Report.Line t
                          (sub64 (s_timestamp latest) (s_timestamp first))
                          (map (fun i =>
                                  sample_delta counter_count first latest
                                    (mapped counter_map i))
                             (seq 0 ev_count))).
      { change (line_of d)
          with (Report.Line (Demo2.tid d)
                  (sub64 (Demo2.timestamp_1 d) (Demo2.timestamp_0 d))
                  (map (fun i => delta_of counter_count d
                                   (mapped counter_map i)) (seq 0 ev_count))).
        rewrite Htid, Ht0, Ht1. f_equal.
        apply map_ext. intros i. unfold delta_of, sample_delta.
        destruct (Z.ltb_spec (Z.of_nat (mapped counter_map i)) counter_count)
          as [Hlt|]; [|reflexivity].
        rewrite <- Hc1, Hc0.
        rewrite <- (take_memcpy counter_count (zeros KPC_MAX_COUNTERS)
                      (s_counters first) Hfirst) at 2.
        rewrite !lookup_take_lt by lia. reflexivity. }
      rewrite Hline. tauto.
  - subst d. apply Hnone. unfold complete, d1.
    cbn [Demo2.timestamp_0 Demo2.timestamp_1]. apply andb_false_r.
Qed.

End EndToEnd.

Lemma a_line_is_the_last_sample_minus_the_first_witness :
  exists lines totals,
    Report.report 4 ([0; 1; 2; 3] ++ zeros 28)
      (Demo2.Table 16
         [Demo2.ThreadData 7 100 300 ([1; 2; 3; 4] ++ zeros 28)
            ([9; 9; 9; 9] ++ zeros 28)])
    = Ok (lines, totals).
Proof.
  assert (Hrange : 0 <= 4 <= Z.of_nat KPC_MAX_COUNTERS)
    by (vm_compute; split; discriminate).
  assert (Hmap : Forall (fun i => exists idx,
                           ([0; 1; 2; 3] ++ zeros 28) !! i = Some idx
                           /\ 0 <= idx < Z.of_nat KPC_MAX_COUNTERS)
                   (seq 0 ev_count)).
  { repeat (apply List.Forall_cons;
            [eexists; split; [reflexivity|vm_compute; split; congruence]|]).
    apply List.Forall_nil. }
  destruct (a_line_is_the_last_sample_minus_the_first Fake.KDBG_FUNC_MASK
              Fake.DBG_FUNC_START Fake.plenty 4 ([0; 1; 2; 3] ++ zeros 28)
              Hrange Hmap
              [Fake.start_record 100 7 1 2 3 4;
               Fake.start_record 200 7 5 6 7 8;
               Fake.start_record 300 7 9 9 9 9]
              (Demo2.Table 16
                 [Demo2.ThreadData 7 100 300 ([1; 2; 3; 4] ++ zeros 28)
                    ([9; 9; 9; 9] ++ zeros 28)]))
    as (lines & totals & Hrun & _); [vm_compute; reflexivity|].
  now exists lines, totals.
Defined.

(** Three samples of one thread and one of another: one line, from the
    first and the last sample. *)
Example report_of_a_trace :
  Demo2.obind
    (Demo2.aggregate_thread_data Fake.KDBG_FUNC_MASK Fake.DBG_FUNC_START
       Fake.plenty 4
       [Fake.start_record 100 7 1 2 3 4; Fake.start_record 150 8 1 1 1 1;
        Fake.start_record 200 7 5 6 7 8; Fake.start_record 300 7 9 9 9 9])
    (fun tbl => match tbl with
                | Some tbl => Report.report 4 ([0; 1; 2; 3] ++ zeros 28) tbl
                | None => Undefined
                end)
  = Ok ([Report.Line 7 200 [8; 7; 6; 5]], [8; 7; 6; 5]).
Proof. vm_compute. reflexivity. Qed.

(** ** The order of the table *)

Lemma find_thread_seen t data :
  seen (map Demo2.tid data) t
  = match Demo2.find_thread t data with Some _ => true | None => false end.
Proof.
  induction data as [|d rest IH]; [reflexivity|].
  cbn [map seen existsb Demo2.find_thread]. rewrite (Z.eqb_sym t).
  destruct (Demo2.tid d =? t); [reflexivity|]. cbn [orb].
  unfold seen in IH. rewrite IH.
  now destruct (Demo2.find_thread t rest).
Qed.

Section TableOrder.

Variables KDBG_FUNC_MASK DBG_FUNC_START : Z.
Variable alloc_ok : Z -> bool.
Variable counter_count : Z.

Lemma add_thread_data_order tbl t ts counters tbl' :
  Demo2.add_thread_data alloc_ok counter_count tbl t ts counters = Some tbl' ->
  map Demo2.tid (Demo2.thread_data tbl')
  = first_seen (map Demo2.tid (Demo2.thread_data tbl)) [t].
Proof.
  unfold Demo2.add_thread_data, first_seen. cbn [fold_left].
  rewrite find_thread_seen.
  destruct (Demo2.find_thread t (Demo2.thread_data tbl)) as [i|].
  - intros [= <-]. cbn [Demo2.thread_data].
    apply tids_alter. intros d. apply tid_store_sample.
  - destruct (if Demo2.thread_capacity tbl =? Demo2.thread_count tbl
              then _ else _) as [capacity|]; [|discriminate].
    intros [= <-]. cbn [Demo2.thread_data].
    rewrite map_app. cbn [map]. now rewrite tid_store_sample.
Qed.

Lemma aggregate_order bufs : forall tbl tbl',
  Demo2.aggregate KDBG_FUNC_MASK DBG_FUNC_START alloc_ok counter_count bufs tbl
  = Ok (Some tbl') ->
  map Demo2.tid (Demo2.thread_data tbl')
  = first_seen (map Demo2.tid (Demo2.thread_data tbl))
      (map s_tid (samples KDBG_FUNC_MASK DBG_FUNC_START counter_count bufs)).
Proof.
  induction bufs as [|buf rest IH]; intros tbl tbl'.
  - intros [= <-]. reflexivity.
  - cbn [Demo2.aggregate samples].
    destruct (negb (Demo2.func KDBG_FUNC_MASK buf =? DBG_FUNC_START));
      [apply IH|].
    destruct (Demo2.tid_of buf =? 0); [apply IH|].
    destruct (Demo2.read_counter_log KDBG_FUNC_MASK DBG_FUNC_START
                counter_count buf rest) as [[counters|]|];
      cbn [Demo2.obind]; [|apply IH|discriminate].
    destruct (Demo2.add_thread_data alloc_ok counter_count tbl
                (Demo2.tid_of buf) (Demo2.timestamp buf) counters)
      as [tbl1|] eqn:Hadd; [|discriminate].
    intros Hagg. rewrite (IH tbl1 tbl' Hagg).
    rewrite (add_thread_data_order _ _ _ _ _ Hadd).
    reflexivity.
Qed.

(** X17. The table lists the threads in the order of their first
    complete sample: in a table the decode ends with, the thread ids of
    the elements are the thread ids of the complete samples of the trace,
    each once, in the order in which each first occurs.  The report, which
    goes through the table from its start, prints its lines in that
    order. *)
Theorem the_table_is_in_order_of_first_sample bufs tbl :
  Demo2.aggregate_thread_data KDBG_FUNC_MASK DBG_FUNC_START alloc_ok
    counter_count bufs = Ok (Some tbl) ->
  map Demo2.tid (Demo2.thread_data tbl)
  = first_seen []
      (map s_tid (samples KDBG_FUNC_MASK DBG_FUNC_START counter_count bufs)).
Proof.
  unfold Demo2.aggregate_thread_data.
  destruct (alloc_ok _); [|discriminate]. intros Hagg.
  apply (aggregate_order bufs _ _ Hagg).
Qed.

End TableOrder.

Lemma the_table_is_in_order_of_first_sample_witness :
  map Demo2.tid
    (Demo2.thread_data
       (Demo2.Table 16
          [Demo2.ThreadData 8 100 300 ([1; 2; 3; 4] ++ zeros 28)
             ([9; 9; 9; 9] ++ zeros 28);
           Demo2.ThreadData 7 200 0 ([5; 6; 7; 8] ++ zeros 28) (zeros 32)]))
  = first_seen []
      (map s_tid
         (samples Fake.KDBG_FUNC_MASK Fake.DBG_FUNC_START 4
            [Fake.start_record 100 8 1 2 3 4; Fake.start_record 200 7 5 6 7 8;
             Fake.start_record 300 8 9 9 9 9])).
Proof.
  apply (the_table_is_in_order_of_first_sample Fake.KDBG_FUNC_MASK
           Fake.DBG_FUNC_START Fake.plenty 4).
  vm_compute. reflexivity.
Defined.

(** ** The errors of the initialisation *)

Lemma passed_removelast l : Forall passed l -> Forall passed (removelast l).
Proof.
  induction l as [|e [|e' rest] IH]; intros H; [constructor..|].
  inversion H; subst. cbn [removelast]. constructor; [assumption|].
  now apply IH.
Qed.

Lemma stops_at_failure_passed res l :
  Forall passed l -> stops_at_failure res l.
Proof.
  intros H. unfold stops_at_failure. destruct res; [|exact H].
  now apply passed_removelast.
Qed.

Lemma stops_at_failure_app res l1 l2 :
  Forall passed l1 -> stops_at_failure res l2 ->
  stops_at_failure res (l1 ++ l2).
Proof.
  unfold stops_at_failure. intros H1 H2. destruct res as [msg|].
  - destruct l2 as [|e rest].
    + rewrite app_nil_r. now apply passed_removelast.
    + rewrite removelast_app by discriminate.
      apply Forall_app. now split.
  - apply Forall_app. now split.
Qed.

Lemma upto_0_passed l : upto 0 l = true -> Forall passed l.
Proof.
  unfold upto. rewrite forallb_forall. intros H.
  apply List.Forall_forall. intros [c r] Hin. specialize (H _ Hin).
  cbn [fst] in H. unfold passed. cbn [fst snd].
  destruct c; cbn in H |- *; try discriminate; try (destruct (_ =? 1)); discriminate.
Qed.

Lemma within_lookups_passed l : within ["kpep_db_event"] l -> Forall passed l.
Proof.
  intros H. eapply Forall_impl; [exact H|]. cbv beta.
  intros [c r] (s & Hs & [<-|[]]). unfold passed. cbn [fst snd].
  unfold symbol in Hs. cbn [fst] in Hs.
  destruct c; cbn in Hs |- *; try discriminate.
Qed.

(** Split on a tested return value, keeping what it was. *)
Ltac test_ret :=
  match goal with
  | |- context [negb (r_ret ?r =? 0)] =>
      let H := fresh "Hret" in
      destruct (Z.eqb_spec (r_ret r) 0) as [H|H]; cbn [negb]
  end.

(** The events listed passed, given the return values in the context. *)
Ltac solve_passed :=
  unfold stops_at_failure; rewrite <- ?app_assoc in *;
  cbn [removelast app] in *;
  repeat (apply List.Forall_cons; [intros _; cbn [snd]; assumption|]);
  apply List.Forall_nil.

Lemma check_permission_stops env w :
  bound (w_lib w) ->
  runs (check_permission env) w (fun res _ l => stops_at_failure res l).
Proof.
  intros Hb. unfold runs, check_permission. run.
  test_ret; finish_step; solve_passed.
Qed.

Lemma load_pmc_db_stops env w :
  bound (w_lib w) ->
  runs (load_pmc_db env) w (fun res _ l => stops_at_failure res l).
Proof.
  intros Hb. unfold runs, load_pmc_db. run.
  test_ret; finish_step; solve_passed.
Qed.

Lemma create_config_stops env w :
  bound (w_lib w) ->
  runs (create_config env) w (fun res _ l => stops_at_failure res l).
Proof.
  intros Hb. unfold runs, create_config. run.
  test_ret; [run|finish_step; solve_passed].
  test_ret; finish_step; solve_passed.
Qed.

Lemma query_config_stops env w :
  bound (w_lib w) ->
  runs (query_config env) w (fun res _ l => stops_at_failure res l).
Proof.
  intros Hb. unfold runs, query_config. run.
  test_ret; [run|finish_step; solve_passed].
  test_ret; [run|finish_step; solve_passed].
  test_ret; [run|finish_step; solve_passed].
  test_ret; finish_step; solve_passed.
Qed.

Lemma set_config_outcome_stops res w' l :
  set_config_outcome res w' l -> stops_at_failure res l.
Proof.
  intros (r & [(-> & Hr & ->)|[(-> & Hr & _ & ->)|(r' & -> & Hr & _ & ->)]]).
  - solve_passed.
  - solve_passed.
  - destruct (Z.eqb_spec (r_ret r') 0); solve_passed.
Qed.

Lemma add_events_stops env indices : forall w,
  ready w -> Forall (fun i => (i < ev_count)%nat) indices ->
  runs (add_events env indices) w (fun res _ l => stops_at_failure res l).
Proof.
  induction indices as [|i rest IH]; intros w [Hb Hs] Hall.
  - apply runs_ret. constructor.
  - inversion Hall as [|? ? Hi Hrest]; subst.
    cbn [add_events]. unfold runs. rewrite bind_get_demo.
    destruct (lookup_lt_is_Some_2 (ev_arr (w_demo w)) i) as [ev Hev].
    { destruct Hs as (_ & _ & _ & _ & ->). exact Hi. }
    assert (Hev' : ev_arr (w_demo w) !! Z.to_nat (Z.of_nat i) = Some ev)
      by now rewrite Nat2Z.id.
    rewrite (bind_run _ _ _ _ _
               (array_get_run _ (Z.of_nat i) ev w (Nat2Z.is_nonneg i) Hev')).
    run. test_ret.
    + match goal with |- context [add_events env rest ?w1] =>
        destruct (IH w1) as (res & w2 & l2 & -> & Hl2 & Hstop) end;
        [split; assumption|exact Hrest|].
      unfold record in Hl2. cbn [w_log] in Hl2. rewrite <- app_assoc in Hl2.
      eexists res, w2, (_ :: l2). split; [reflexivity|].
      split; [exact Hl2|].
      apply (stops_at_failure_app res [_] l2); [|exact Hstop].
      constructor; [intros _; exact Hret|constructor].
    + finish_step. solve_passed.
Qed.

Lemma stop_step (m1 m2 : M (option string)) w :
  runs m1 w (fun res w' l => ready w' /\ stops_at_failure res l) ->
  (forall w1, ready w1 ->
     runs m2 w1 (fun res _ l => stops_at_failure res l)) ->
  runs (m1 ;;; m2) w (fun res _ l => stops_at_failure res l).
Proof.
  intros H1 H2. eapply runs_and_then; [exact H1| |].
  - intros msg w1 l1 [_ H]. exact H.
  - intros w1 l1 [Hr H]. eapply runs_weaken; [apply H2, Hr|].
    intros res w2 l2 Hstop. now apply stops_at_failure_app.
Qed.

Lemma init_stops env w :
  consistent (w_lib w) -> sized (w_demo w) ->
  runs (performance_counters_init env) w
    (fun res _ l => stops_at_failure res l).
Proof.
  intros Hc Hs. unfold performance_counters_init.
  eapply runs_and_then;
    [apply runs_both;
     [apply load_dylib_runs; assumption|apply load_dylib_order]| |].
  { intros msg w1 l1 (_ & _ & Hu). cbv beta.
    now apply stops_at_failure_passed, upto_0_passed. }
  intros w1 l1 ((Hs1 & _ & Hb1) & _ & Hu1).
  assert (Hr1 : ready w1) by (split; auto).
  eapply runs_weaken;
    [|intros res w2 l2 Hstop;
      apply (stops_at_failure_app res l1 l2 (upto_0_passed l1 Hu1) Hstop)].
  clear - Hr1. revert w1 Hr1. intros w Hr.
  apply stop_step.
  { apply runs_both; [|apply check_permission_stops, Hr].
    eapply runs_weaken; [apply check_permission_runs, Hr|].
    intros res w' l [H _]. exact H. }
  clear w Hr. intros w Hr. apply stop_step.
  { apply runs_both; [|apply load_pmc_db_stops, Hr].
    eapply runs_weaken; [apply load_pmc_db_runs, Hr|].
    intros res w' l [H _]. exact H. }
  clear w Hr. intros w Hr. apply stop_step.
  { apply runs_both; [|apply create_config_stops, Hr].
    eapply runs_weaken; [apply create_config_runs, Hr|].
    intros res w' l [H _]. exact H. }
  clear w Hr. intros w Hr. apply stop_step.
  { eapply runs_weaken; [apply get_events_runs; [exact Hr|reflexivity]|].
    intros res w' l [H1 H2]. split; [exact H1|].
    now apply stops_at_failure_passed, within_lookups_passed. }
  clear w Hr. intros w Hr.
  assert (Hidx : Forall (fun i => (i < ev_count)%nat) (seq 0 ev_count)).
  { apply List.Forall_forall. intros i Hi. apply in_seq in Hi. lia. }
  apply stop_step.
  { apply runs_both; [|now apply add_events_stops].
    eapply runs_weaken; [apply add_events_runs; [exact Hr|exact Hidx]|].
    intros res w' l [H _]. exact H. }
  clear w Hr. intros w Hr. apply stop_step.
  { apply runs_both; [|apply query_config_stops, Hr].
    eapply runs_weaken; [apply query_config_runs, Hr|].
    intros res w' l [H _]. exact H. }
  clear w Hr. intros w Hr.
  eapply runs_weaken; [apply set_config_to_kernel_runs, Hr|].
  intros res w' l. apply set_config_outcome_stops.
Qed.

(** X18. [performance_counters_init] ignores no error and stops at the
    first one.  It tests the return value of every framework call it
    makes, the lookups of the events apart: when it returns no error, each
    of these calls returned 0; when it returns an error, each of them but
    the last call of the run returned 0, so that no call follows one that
    failed. *)
Theorem init_stops_at_the_first_error env w :
  consistent (w_lib w) -> sized (w_demo w) ->
  exists res w',
    performance_counters_init env w = Ok (res, w')
    /\ Forall passed
         (match res with
          | None => calls_since w w'
          | Some _ => removelast (calls_since w w')
          end).
Proof.
  intros Hc Hs.
  destruct (init_stops env w Hc Hs) as (res & w' & l & H & Hl & Hstop).
  exists res, w'. split; [exact H|].
  rewrite (calls_since_app _ _ _ Hl). exact Hstop.
Qed.

Lemma init_stops_at_the_first_error_witness :
  exists res w',
    performance_counters_init (Fake.fake Fake.no_branches) world0
    = Ok (res, w')
    /\ Forall passed
         (match res with
          | None => calls_since world0 w'
          | Some _ => removelast (calls_since world0 w')
          end).
Proof.
  apply (init_stops_at_the_first_error (Fake.fake Fake.no_branches) world0).
  - intros H. discriminate H.
  - vm_compute. auto 6.
Defined.
